(** * AI-HERO-Health: dataset loader, configuration loader and model wrappers

    A shallow embedding of the repository's own glue code:
    - [src/datamodules/datasets/health.py]  (module [Health] below),
    - [src/models/mvit_module.py], function [load_config] (module [Config]),
    - [src/models/effinet_module.py] and [src/models/mvit_module.py], the
      two Lightning wrappers (modules [EFFILitModule] and [MVITLitModule],
      over the module trees of [NN] and the trainer events of
      [Lightning]).

    Everything owned by external libraries (pandas, PIL, OpenCV, joblib,
    torchvision transforms, the pretrained networks, the loss) is a
    variable of the development; the code of the repository is modelled
    line by line on top of those. *)

From stdpp Require Import gmap strings list pretty.
From Stdlib Require Import ZArith QArith.
Set Warnings "-register-all".
Local Close Scope Q_scope.
Local Open Scope Z_scope.

(** ** Python exceptions and results *)

Inductive exn : Type :=
| IndexError
| AttributeError (attr : string)
| KeyError (key : string)
| NameError (name : string)
| UnboundLocalError (name : string)
| TypeError (msg : string)
| YAMLError (msg : string)
| OSError (path : string)
| ExternalError (msg : string).

Inductive result (A : Type) : Type :=
| Ok (a : A)
| Raise (e : exn).
Arguments Ok {A} a.
Arguments Raise {A} e.

#[global] Instance result_ret : MRet result := λ A a, Ok a.
#[global] Instance result_bind : MBind result := λ A B f m,
  match m with
  | Ok a => f a
  | Raise e => Raise e
  end.

#[global] Instance result_fmap : FMap result := λ A B f m,
  match m with
  | Ok a => Ok (f a)
  | Raise e => Raise e
  end.

Definition is_ok {A} (r : result A) : bool :=
  match r with Ok _ => true | Raise _ => false end.

(** [l[idx]] on a Python list: negative indices count from the end, anything
    outside [-len, len) raises IndexError. *)
Definition py_index {A} (l : list A) (idx : Z) : result A :=
  let n := Z.of_nat (length l) in
  let i := if idx <? 0 then idx + n else idx in
  if (0 <=? i) && (i <? n) then
    match l !! Z.to_nat i with
    | Some a => Ok a
    | None => Raise IndexError
    end
  else Raise IndexError.

(** The row of the table an index denotes. *)
Definition py_pos (n : nat) (idx : Z) : nat :=
  Z.to_nat (if idx <? 0 then idx + Z.of_nat n else idx).

Definition in_range (n : nat) (idx : Z) : Prop :=
  - Z.of_nat n <= idx < Z.of_nat n.

(** Sequential evaluation of a fallible function over a list, results in
    input order; the first failure is the one that is raised. *)
Fixpoint map_result {A B} (f : A → result B) (l : list A) : result (list B) :=
  match l with
  | [] => Ok []
  | a :: l' => b ← f a; bs ← map_result f l'; mret (b :: bs)
  end.

(** ** Stateful code that may raise

    A computation takes the current state and gives back a result or an
    exception together with the state it left behind: what a Python
    function did before it raised stays done. *)

Definition St (S A : Type) : Type := S → result A * S.

#[global] Instance St_ret {S} : MRet (St S) := λ A a s, (Ok a, s).
#[global] Instance St_bind {S} : MBind (St S) := λ A B f m s,
  match m s with
  | (Ok a, s') => f a s'
  | (Raise e, s') => (Raise e, s')
  end.

Definition lift {S A} (r : result A) : St S A := λ s, (r, s).

(** [try: m except <the exceptions h accepts>: h e] *)
Definition try_except {S A} (m : St S A) (h : exn → option (St S A))
  : St S A := λ s,
  match m s with
  | (Ok a, s') => (Ok a, s')
  | (Raise e, s') =>
      match h e with
      | Some k => k s'
      | None => (Raise e, s')
      end
  end.

(** [for x in xs: body x]: an exception leaving the body ends the loop. *)
Fixpoint for_each {S A} (body : A → St S unit) (xs : list A) : St S unit :=
  match xs with
  | [] => mret tt
  | x :: xs' => _ ← body x; for_each body xs'
  end.

(** ** torch tensors, as far as the dataset uses them *)

Module Torch.

(** A tensor is its shape and its elements in row-major order. The only
    element values the dataset creates are the floats 0.0 and 1.0, which
    are written as the integers 0 and 1. *)
Record tensor : Type := Tensor { shape : list nat; data : list Z }.

(** [torch.FloatTensor(list_of_numbers)]: one dimension. *)
Definition FloatTensor (xs : list Z) : tensor :=
  {| shape := [length xs]; data := xs |}.

(** [t.squeeze()]: drop every dimension of size 1. *)
Definition squeeze (t : tensor) : tensor :=
  {| shape := filter (λ d, d ≠ 1%nat) (shape t); data := data t |}.

Definition numel (t : tensor) : nat := foldr Nat.mul 1%nat (shape t).

(** [t.shape[0]]: indexing the shape tuple. *)
Definition shape0 (t : tensor) : result nat :=
  match shape t with
  | [] => Raise IndexError
  | n :: _ => Ok n
  end.

(** [t[idx]]: select along the first dimension; a 0-dimensional tensor
    cannot be indexed. *)
Definition index (t : tensor) (idx : Z) : result tensor :=
  match shape t with
  | [] => Raise IndexError
  | n :: rest =>
      let i := if idx <? 0 then idx + Z.of_nat n else idx in
      if (0 <=? i) && (i <? Z.of_nat n) then
        let stride := foldr Nat.mul 1%nat rest in
        Ok {| shape := rest;
              data := take stride (drop (Z.to_nat i * stride) (data t)) |}
      else Raise IndexError
  end.

(** A 0-dimensional tensor holding one number. *)
Definition scalar (x : Z) : tensor := {| shape := []; data := [x] |}.

End Torch.

(** ** health.py *)

Module Health.
Import Torch.

(** *** Images *)

(** What [np.array(image)] gives for a decoded file: a 2-d array for a
    single-channel image, a 3-d array otherwise. *)
Inductive ndarray : Type :=
| Arr2 (px : list (list Z))
| Arr3 (px : list (list (list Z))).

(** An RGB PIL image: rows of (r, g, b) bytes. *)
Definition rgb : Type := list (list (Z * Z * Z)).

(** [np.stack((image, image, image), 2)] followed by [astype(np.uint8)]
    and [Image.fromarray(_, mode="RGB")]. *)
Definition uint8 (p : Z) : Z := p `mod` 256.
Definition stack3 (image : list (list Z)) : rgb :=
  map (map (λ p, (uint8 p, uint8 p, uint8 p))) image.

(** *** The label table *)

(** A pandas data frame: named columns of cells. The cells the loader
    looks at are strings. *)
Definition dataframe : Type := list (string * list string).

Definition columns (df : dataframe) : list string := df.*1.

(** [df[c]] *)
Fixpoint column (df : dataframe) (c : string) : result (list string) :=
  match df with
  | [] => Raise (KeyError c)
  | (c', cells) :: df' => if decide (c' = c) then Ok cells else column df' c
  end.

(** All columns of a frame have one length, the number of rows. *)
Definition frame_rows (df : dataframe) (n : nat) : Prop :=
  Forall (λ col, length col.2 = n) df.

(** [0 if label == "negative" else 1] *)
Definition encode_label (label : string) : Z :=
  if decide (label = "negative") then 0 else 1.

(** Image objects are referred to by their position in the store. *)
Abbreviation loc := nat.

Section WithWorld.
(** Opaque Python objects produced by user callables, and the ambient
    state of the external libraries (random generators of the
    augmentations, standard output, the output directory). *)
Context (pyobj ambient : Type).

Inductive value : Type :=
| VImage (l : loc)
| VTensor (t : tensor)
| VStr (s : string)
| VObj (o : pyobj).

(** Image objects live in a store; [alloc] creates a new object. *)
Record state : Type := State { heap : list rgb; amb : ambient }.

Abbreviation M := (St state).

Definition alloc (img : rgb) : M loc := λ s,
  (Ok (length (heap s)), {| heap := heap s ++ [img]; amb := amb s |}).

Definition deref (l : loc) : M rgb := λ s,
  match heap s !! l with
  | Some img => (Ok img, s)
  | None => (Raise (ExternalError "dangling image reference"), s)
  end.

(** A transform is called on an image object. It may change that object
    in place, may use and change the ambient state, and returns a value
    or raises. *)
Definition transform_t : Type :=
  loc → rgb → ambient → result value * rgb * ambient.
(** A target transform is called on the label value. *)
Definition target_transform_t : Type :=
  value → ambient → result value * ambient.

Definition call_transform (f : transform_t) (l : loc) : M value := λ s,
  match heap s !! l with
  | Some img =>
      let '(r, img', a') := f l img (amb s) in
      (r, {| heap := <[l := img']> (heap s); amb := a' |})
  | None => (Raise (ExternalError "dangling image reference"), s)
  end.

Definition call_target_transform (g : target_transform_t) (v : value)
  : M value := λ s,
  let '(r, a') := g v (amb s) in (r, {| heap := heap s; amb := a' |}).

(** *** The dataset object *)

Inductive labels_t : Type :=
| LTensor (t : tensor)
| LList (l : list string).

Record dataset : Type := Dataset {
  df : dataframe;
  df_contains_label : bool;
  labels : labels_t;
  names : list string;
  transform : option transform_t;
  target_transform : option target_transform_t;
  image_path : string;
  images : option (list loc);
  load_ram : bool
}.

(** The outside world the loader reads: [pd.read_csv], the decoding of
    an image file ([Image.open] and [np.array]) and OpenCV's CLAHE. *)
Variable read_csv : string → result dataframe.
Variable decode : string → result ndarray.
Variable clahe_apply : ndarray → result (list (list Z)).

(** [preproc_image] *)
Definition preproc_image (path : string) : result rgb :=
  image ← decode path;
  image ← clahe_apply image;
  mret (stack3 image).

(** [Parallel(n_jobs=20)(delayed(f)(x) for x in xs)]: results in input
    order, each a new object in the parent process; a failing task
    makes the whole call fail. *)
Fixpoint alloc_all (imgs : list rgb) : M (list loc) :=
  match imgs with
  | [] => mret []
  | img :: imgs' => l ← alloc img; ls ← alloc_all imgs'; mret (l :: ls)
  end.

Definition Parallel (f : string → result rgb) (xs : list string)
  : M (list loc) :=
  imgs ← lift (map_result f xs); alloc_all imgs.

(** [HealthDataset.__init__] *)
Definition __init__ (label_path img_path : string)
    (transform : option transform_t)
    (target_transform : option target_transform_t)
    (load_ram : bool) : M dataset :=
  df ← lift (read_csv label_path);
  let df_contains_label := bool_decide ("label" ∈ columns df) in
  labels ← lift (if df_contains_label
                 then col ← column df "label";
                      mret (LTensor (squeeze (FloatTensor (encode_label <$> col))))
                 else col ← column df "image"; mret (LList col));
  names ← lift (column df "image");
  images ← (if load_ram
            then ls ← Parallel preproc_image ((λ name, img_path +:+ name) <$> names);
                 mret (Some ls)
            else mret None);
  mret {| df := df; df_contains_label := df_contains_label;
          labels := labels; names := names;
          transform := transform; target_transform := target_transform;
          image_path := img_path; images := images;
          load_ram := load_ram |}.

(** [HealthDataset.load_image] *)
Definition load_image (self : dataset) (idx : Z) : M loc :=
  if load_ram self then
    match images self with
    | Some cache =>
        l ← lift (py_index cache idx);
        img ← deref l;
        alloc img
    | None => lift (Raise (AttributeError "images"))
    end
  else
    name ← lift (py_index (names self) idx);
    img ← lift (preproc_image (image_path self +:+ name));
    alloc img.

(** [HealthDataset.__len__] *)
Definition __len__ (self : dataset) : result nat :=
  match labels self with
  | LTensor t => shape0 t
  | LList _ => Raise (AttributeError "shape")
  end.

(** [self.labels[idx]] *)
Definition labels_index (ls : labels_t) (idx : Z) : result value :=
  match ls with
  | LTensor t => VTensor <$> index t idx
  | LList l => VStr <$> py_index l idx
  end.

(** [HealthDataset.__getitem__] *)
Definition __getitem__ (self : dataset) (idx : Z) : M (value * value) :=
  l ← load_image self idx;
  label ← lift (labels_index (labels self) idx);
  image ← match transform self with
          | Some f => call_transform f l
          | None => mret (VImage l)
          end;
  label ← match target_transform self with
          | Some g => call_target_transform g label
          | None => mret label
          end;
  mret (image, label).

(** *** Vocabulary of the statements about the dataset *)

(** What a successful construction has done: the table it read, the
    fields it set and the images it put into the store. *)
Record constructed (lp ip : string) (tr : option transform_t)
    (ttr : option target_transform_t) (lr : bool)
    (s : state) (ds : dataset) (s' : state) (frame : dataframe)
    (nms : list string) : Prop := {
  c_frame : read_csv lp = Ok frame;
  c_column : column frame "image" = Ok nms;
  c_names : names ds = nms;
  c_path : image_path ds = ip;
  c_load_ram : load_ram ds = lr;
  c_transform : transform ds = tr;
  c_target : target_transform ds = ttr;
  c_labelled : ∀ col, column frame "label" = Ok col →
    labels ds = LTensor (squeeze (FloatTensor (encode_label <$> col)));
  c_unlabelled : "label" ∉ columns frame → labels ds = LList nms;
  c_images :
    if lr then
      ∃ imgs, map_result preproc_image ((λ name, ip +:+ name) <$> nms) = Ok imgs
              ∧ images ds = Some (seq (length (heap s)) (length imgs))
              ∧ s' = {| heap := heap s ++ imgs; amb := amb s |}
    else images ds = None ∧ s' = s
}.

(** The operations of a dataset object, and the state a sequence of
    them leaves behind (whether or not a call raised). *)
Inductive op : Type :=
| OpLoadImage (idx : Z)
| OpLen
| OpGetItem (idx : Z).

Definition run_op (self : dataset) (o : op) (s : state) : state :=
  match o with
  | OpLoadImage idx => (load_image self idx s).2
  | OpLen => s
  | OpGetItem idx => (__getitem__ self idx s).2
  end.

Definition run_ops (self : dataset) (os : list op) (s : state) : state :=
  foldl (λ s o, run_op self o s) s os.

(** The label of a row of the table, as [__getitem__] hands it out
    before any target transform: the 0-dimensional tensor of the encoded
    label, or the file name when the table has no labels. *)
Definition row_label (frame : dataframe) (row : nat) : option value :=
  match column frame "label" with
  | Ok col => (λ label, VTensor (scalar (encode_label label))) <$> col !! row
  | Raise _ =>
      match column frame "image" with
      | Ok nms => VStr <$> nms !! row
      | Raise _ => None
      end
  end.

(** The last two steps of [__getitem__], on a loaded image and a
    label. *)
Definition apply_transforms (self : dataset) (l : loc) (lab : value)
  : M (value * value) :=
  image ← match transform self with
          | Some f => call_transform f l
          | None => mret (VImage l)
          end;
  label ← match target_transform self with
          | Some g => call_target_transform g lab
          | None => mret lab
          end;
  mret (image, label).

(** The image a call of [load_image] hands out: the content of the
    returned object, or the exception. *)
Definition image_of (r : result loc * state) : result rgb :=
  match r with
  | (Ok l, s) =>
      match heap s !! l with
      | Some img => Ok img
      | None => Raise (ExternalError "dangling image reference")
      end
  | (Raise e, _) => Raise e
  end.

(** *** The example script under [if __name__ == "__main__"] *)

(** The library calls of the loop body: [print(x.size)],
    [Image.fromarray(np.array(img), mode="RGB")], [x.convert("L")] and
    [x.save(path)]. Each may do anything to the state and may raise. *)
Variable print_size : value → M unit.
Variable fromarray_rgb : value → M value.
Variable convert_L : value → M value.
Variable save : value → string → M unit.
(** [transforms.Compose([RandomEqualize(p=1.0), Resize((320, 320))])] *)
Variable script_transform : transform_t.

Definition label_path : string :=
  "/hkfs/work/workspace/scratch/im9193-H5/data/valid.csv".
Definition img_path : string :=
  "/hkfs/work/workspace/scratch/im9193-H5/data/imgs/".
Definition data_dir : string :=
  "/hkfs/work/workspace/scratch/im9193-H5/tmp/".

(** The statements inside [try:]. *)
Definition loop_body (dataset : dataset) (i : nat) : M unit :=
  item ← __getitem__ dataset (Z.of_nat i);
  let img := item.1 in
  _ ← print_size img;
  PIL_image ← fromarray_rgb img;
  _ ← print_size PIL_image;
  PIL_image ← convert_L PIL_image;
  save PIL_image (data_dir +:+ pretty i +:+ ".png").

(** [try: ... except: continue] *)
Definition loop_iteration (dataset : dataset) (i : nat) : M unit :=
  try_except (loop_body dataset i) (λ _, Some (mret tt)).

(** [for i in range(150): ...] *)
Definition main_loop (dataset : dataset) : M unit :=
  for_each (loop_iteration dataset) (seq 0 150).

Definition main : M unit :=
  dataset ← __init__ label_path img_path (Some script_transform) None false;
  main_loop dataset.

End WithWorld.

Arguments VImage {pyobj} l.
Arguments VTensor {pyobj} t.
Arguments VStr {pyobj} s.
Arguments VObj {pyobj} o.
Arguments State {ambient} heap amb.
Arguments heap {ambient} s.
Arguments amb {ambient} s.
Arguments alloc {ambient} img s.
Arguments deref {ambient} l s.
Arguments alloc_all {ambient} imgs s.
Arguments Parallel {ambient} f xs s.
Arguments call_transform {pyobj ambient} f l s.
Arguments call_target_transform {pyobj ambient} g v s.
Arguments Dataset {pyobj ambient}.
Arguments df {pyobj ambient} d.
Arguments df_contains_label {pyobj ambient} d.
Arguments labels {pyobj ambient} d.
Arguments names {pyobj ambient} d.
Arguments transform {pyobj ambient} d.
Arguments target_transform {pyobj ambient} d.
Arguments image_path {pyobj ambient} d.
Arguments images {pyobj ambient} d.
Arguments load_ram {pyobj ambient} d.
Arguments __init__ {pyobj ambient}.
Arguments load_image {pyobj ambient}.
Arguments __len__ {pyobj ambient}.
Arguments labels_index {pyobj}.
Arguments __getitem__ {pyobj ambient}.
Arguments constructed {pyobj ambient}.
Arguments row_label {pyobj}.
Arguments apply_transforms {pyobj ambient}.
Arguments run_op {pyobj ambient}.
Arguments run_ops {pyobj ambient}.
Arguments image_of {ambient}.
Arguments loop_body {pyobj ambient}.
Arguments loop_iteration {pyobj ambient}.
Arguments main_loop {pyobj ambient}.
Arguments main {pyobj ambient}.
End Health.

(** ** mvit_module.py: reading the model configuration *)

Module Config.

(** A mapping key as [yaml.load] gives it: a string, or another hashable
    value (a number, a boolean, [None], ...). Of the latter the code
    observes only the truth value and equality with other keys; [tag]
    names its class under [==]. *)
Inductive key : Type :=
| KStr (s : string)
| KOther (truthy : bool) (tag : string).

#[global] Instance key_eq_dec : EqDecision key.
Proof. solve_decision. Defined.

(** What [yaml.load] returns: scalars, sequences and mappings, as a finite
    tree (a document whose aliases make a mapping contain itself has no
    counterpart here). The items of a mapping are in insertion order. *)
Inductive yaml : Type :=
| YNull
| YScalar (s : string)
| YSeq (l : list yaml)
| YMap (items : list (key * yaml)).

(** A Python dict keeps one entry per key, in order of first insertion;
    a later value for a key replaces the earlier one. *)
Fixpoint dict_set {K} `{EqDecision K} {V} (d : list (K * V)) (k : K) (v : V)
  : list (K * V) :=
  match d with
  | [] => [(k, v)]
  | (k', v') :: d' =>
      if decide (k' = k) then (k, v) :: d' else (k', v') :: dict_set d' k v
  end.

(** [dict(items)] *)
Definition dict {K} `{EqDecision K} {V} (items : list (K * V)) : list (K * V) :=
  fold_left (λ d kv, dict_set d kv.1 kv.2) items [].

(** The truth value of a key: a string is false when empty. *)
Definition key_truthy (k : key) : bool :=
  match k with
  | KStr s => if decide (s = "") then false else true
  | KOther t _ => t
  end.

(** [parent_key + sep + k if parent_key else k], with [sep] a string:
    adding a string to a key that is not one, or such a key to a string,
    raises TypeError. *)
Definition new_key (parent_key : key) (sep : string) (k : key) : result key :=
  if key_truthy parent_key then
    match parent_key, k with
    | KStr p, KStr s => Ok (KStr (p +:+ sep +:+ s))
    | KStr _, KOther _ _ => Raise (TypeError "can only concatenate str to str")
    | KOther _ _, _ => Raise (TypeError "unsupported operand type(s) for +")
    end
  else Ok k.

(** [isinstance(v, collections.MutableMapping)]. The attribute is looked
    up on the [collections] module at every test; [alias] says whether
    the interpreter that runs the module still has it (it was removed in
    Python 3.10). *)
Definition isinstance_MutableMapping (alias : bool) (v : yaml) : result bool :=
  if alias then Ok (match v with YMap _ => true | _ => false end)
  else Raise (AttributeError "MutableMapping").

(** A loop that extends a list by what each element contributes, stopping
    at the first exception. *)
Section Traverse.
Context {A B : Type}.
Variable f : A → result (list B).

Fixpoint extend_each (l : list A) : result (list B) :=
  match l with
  | [] => Ok []
  | a :: l' => here ← f a; rest ← extend_each l'; mret (here ++ rest)
  end.
End Traverse.

(** [flatten_yaml_as_dict(d, parent_key, sep)]: [d.items()] fails on
    anything but a mapping; per item the new key is computed, then the
    [isinstance] test is made, then the value contributes the items of its
    own flattening or itself. *)
Fixpoint flatten_yaml_as_dict (alias : bool) (d : yaml) (parent_key : key)
    (sep : string) {struct d} : result (list (key * yaml)) :=
  match d with
  | YMap ds =>
      items ← extend_each
                 (λ kv : key * yaml,
                    new_key ← new_key parent_key sep kv.1;
                    nested ← isinstance_MutableMapping alias kv.2;
                    if nested : bool
                    then flatten_yaml_as_dict alias kv.2 new_key sep
                    else mret [(new_key, kv.2)]) ds;
      mret (dict items)
  | _ => Raise (AttributeError "items")
  end.

(** [NestedNamespace]: attributes holding plain values or further
    namespaces. *)
Inductive nsval : Type :=
| NValue (v : yaml)
| NSpace (attrs : list (string * nsval)).

(** [NestedNamespace.__init__]: per item the value is prepared (a dict
    becomes a namespace of its own), then [__setattr__] is called, which
    raises TypeError for a key that is not a string. *)
Fixpoint nested_value (v : yaml) : result nsval :=
  match v with
  | YMap d =>
      attrs ← (fix setattrs (d : list (key * yaml))
                   (acc : list (string * nsval))
                 : result (list (string * nsval)) :=
                 match d with
                 | [] => Ok acc
                 | (k, v') :: d' =>
                     value ← nested_value v';
                     match k with
                     | KStr name => setattrs d' (dict_set acc name value)
                     | KOther _ _ =>
                         Raise (TypeError "attribute name must be string")
                     end
                 end) d [];
      mret (NSpace attrs)
  | _ => Ok (NValue v)
  end.

Definition NestedNamespace (dictionary : list (key * yaml)) : result nsval :=
  nested_value (YMap dictionary).

(** Values a module-level name can be bound to, as far as [load_config]
    can tell them apart. *)
Inductive pyv : Type :=
| PBool (b : bool)
| PLogger
| PObject.

Definition truthy (v : pyv) : bool :=
  match v with PBool b => b | _ => true end.

(** The names bound at module level in mvit_module.py, in order: the
    imports, then the definitions of the file. *)
Definition module_globals : gmap string pyv :=
  list_to_map ((λ x, (x, PObject)) <$>
    ["Any"; "List"; "torch"; "nn"; "LightningModule"; "MaxMetric";
     "Accuracy"; "build_classification_model"; "argparse"; "yaml";
     "collections"; "SimpleNamespace"; "flatten_yaml_as_dict";
     "NestedNamespace"; "load_config"; "MVITLitModule"]).

Section WithFiles.
(** The module namespace in which the function runs, whether the
    interpreter has [collections.MutableMapping], the text of a file
    ([open]) and the YAML parser ([yaml.load], which raises [YAMLError] on
    a text that does not parse). *)
Variable globals : gmap string pyv.
Variable alias : bool.
Variable open_file : string → result string.
Variable yaml_load : string → result yaml.

(** The state is the list of warnings logged so far. *)
Abbreviation L := (St (list string)).

(** Reading a global (or builtin) name. *)
Definition load_name (x : string) : L pyv :=
  lift (match globals !! x with
        | Some v => Ok v
        | None => Raise (NameError x)
        end).

(** [logger.warning(msg)] *)
Definition warning (logger : pyv) (msg : string) : L unit := λ log,
  match logger with
  | PLogger => (Ok tt, log ++ [msg])
  | _ => (Raise (AttributeError "warning"), log)
  end.

(** The body of [except yaml.YAMLError as exc:]. *)
Definition handler (config_file_name msg : string) : L unit :=
  is_master_node ← load_name "is_master_node";
  if truthy is_master_node then
    logger ← load_name "logger";
    _ ← warning logger ("Error while loading config file: " +:+ config_file_name);
    logger ← load_name "logger";
    warning logger ("Error message: " +:+ msg)
  else mret tt.

(** [load_config]. The local [obj_cfg] is bound only when the [try]
    block runs to its end. *)
Definition load_config (config_file_name : string) : L nsval :=
  yaml_file ← lift (open_file config_file_name);
  obj_cfg ← try_except
              (cfg ← lift (yaml_load yaml_file);
               flat_cfg ← lift (flatten_yaml_as_dict alias cfg (KStr "") ".");
               obj_cfg ← lift (NestedNamespace flat_cfg);
               mret (Some obj_cfg))
              (λ exc, match exc with
                      | YAMLError msg =>
                          Some (_ ← handler config_file_name msg; mret None)
                      | _ => None
                      end);
  match obj_cfg with
  | Some cfg => mret cfg
  | None => lift (Raise (UnboundLocalError "obj_cfg"))
  end.

Definition default_config_file : string :=
  "/hkfs/work/workspace/scratch/im9193-H5/AI-HERO-Health_tgp/pre_trained/model_conf.yaml".

End WithFiles.
End Config.

(** ** The Lightning wrappers: effinet_module.py and mvit_module.py *)

Module NN.

(** The kinds of torch modules the wrappers create, and everything else
    a pretrained network is made of. *)
Inductive kind : Type :=
| Linear (in_features out_features : Z)
| SiLU
| Dropout (p : Q)
| Sequential
| Pretrained (name : string).

(** A module: its kind, the [requires_grad] flags of its own parameters
    and its named children in registration order. *)
Inductive module : Type :=
| Module (k : kind) (requires_grad : list bool)
         (children : list (string * module)).

Definition module_kind (m : module) : kind :=
  match m with Module k _ _ => k end.
Definition children (m : module) : list (string * module) :=
  match m with Module _ _ cs => cs end.

(** [nn.Linear(i, o)] has a weight and a bias, both trainable. *)
Definition nn_Linear (i o : Z) : module := Module (Linear i o) [true; true] [].
Definition nn_SiLU : module := Module SiLU [] [].
Definition nn_Dropout (p : Q) : module := Module (Dropout p) [] [].
(** [nn.Sequential(m)]: the positional child is registered as "0". *)
Definition nn_Sequential (m : module) : module :=
  Module Sequential [] [("0", m)].

(** [m.name]: a registered child, or AttributeError. *)
Fixpoint lookup_child (cs : list (string * module)) (name : string)
  : result module :=
  match cs with
  | [] => Raise (AttributeError name)
  | (n, c) :: cs' => if decide (n = name) then Ok c else lookup_child cs' name
  end.
Definition getattr (m : module) (name : string) : result module :=
  lookup_child (children m) name.

(** [m.name = c] and [m.add_module(name, c)]: the entry of that name in
    the ordered dict of children is replaced in place, or appended. *)
Definition setattr (m : module) (name : string) (c : module) : module :=
  match m with
  | Module k g cs => Module k g (Config.dict_set cs name c)
  end.
Definition add_module (m : module) (name : string) (c : module) : module :=
  setattr m name c.

(** [for param in m.parameters(): param.requires_grad = b] *)
Fixpoint set_requires_grad (b : bool) (m : module) : module :=
  match m with
  | Module k g cs =>
      Module k ((λ _, b) <$> g)
        ((fix go (cs : list (string * module)) :=
            match cs with
            | [] => []
            | (n, c) :: cs' => (n, set_requires_grad b c) :: go cs'
            end) cs)
  end.

(** [seq[idx] = c] on an [nn.Sequential]: the child at that position is
    replaced under its existing name; other modules do not support item
    assignment. *)
Definition setitem (m : module) (idx : Z) (c : module) : result module :=
  match m with
  | Module Sequential g cs =>
      key ← py_index cs.*1 idx;
      mret (Module Sequential g (Config.dict_set cs key c))
  | _ => Raise (TypeError "object does not support item assignment")
  end.

(** The structure of a network: the module tree without the
    [requires_grad] flags. *)
Fixpoint structure (m : module) : module :=
  match m with
  | Module k g cs =>
      Module k []
        ((fix go (cs : list (string * module)) :=
            match cs with
            | [] => []
            | (n, c) :: cs' => (n, structure c) :: go cs'
            end) cs)
  end.

End NN.

Module Lightning.

Section Events.
(** Tensors of the training framework (batches, logits, losses, metric
    values) and the floats of the hyperparameters. *)
Context (T num : Type).

(** What a step does to the framework, in order. *)
Inductive event : Type :=
| Log (name : string) (v : T) (on_step on_epoch prog_bar : bool)
| MetricUpdate (metric : string) (preds targets : T)
| SchedulerStep (metrics : T).

Definition W (A : Type) : Type := A * list event.

#[global] Instance W_ret : MRet W := λ A a, (a, []).
#[global] Instance W_bind : MBind W := λ A B f m,
  let '(a, es) := m in let '(b, es') := f a in (b, es ++ es').

Definition emit (e : event) : W unit := (tt, [e]).

(** [torch.optim.Adam(params=self.parameters(), lr=, weight_decay=)] *)
Record Adam : Type := { adam_lr : num; adam_weight_decay : num }.

(** [ReduceLROnPlateau(optimizer, mode, factor=, patience=, min_lr=)] *)
Record ReduceLROnPlateau : Type := {
  optimizer : Adam;
  mode : string;
  factor : num;
  patience : num;
  min_lr : num
}.

Record lr_scheduler_conf : Type := {
  scheduler : ReduceLROnPlateau;
  monitor : string
}.

Record optimizers : Type := {
  conf_optimizer : Adam;
  conf_lr_scheduler : lr_scheduler_conf
}.

(** The result dict of a step. *)
Record step_output : Type := { loss : T; preds : T; targets : T }.

(** The hooks the trainer calls during fitting. *)
Inductive call : Type :=
| TrainingStep (batch : T * T) (batch_idx : Z)
| ValidationStep (batch : T * T) (batch_idx : Z).

End Events.

Arguments Log {T}.
Arguments MetricUpdate {T}.
Arguments SchedulerStep {T}.
Arguments emit {T}.
Arguments TrainingStep {T}.
Arguments ValidationStep {T}.

Arguments adam_lr {num} a.
Arguments adam_weight_decay {num} a.
Arguments optimizer {num} r.
Arguments mode {num} r.
Arguments factor {num} r.
Arguments patience {num} r.
Arguments min_lr {num} r.
Arguments scheduler {num} l.
Arguments monitor {num} l.
Arguments conf_optimizer {num} o.
Arguments conf_lr_scheduler {num} o.
Arguments loss {T} s.
Arguments preds {T} s.
Arguments targets {T} s.

(** The values with which the scheduler was stepped, in order. *)
Definition scheduler_steps {T} (es : list (event T)) : list T :=
  omap (λ e, match e with SchedulerStep v => Some v | _ => None end) es.

(** The losses of the validation batches among the trainer's calls, in
    order, for a given way of computing the loss of a batch. *)
Definition validation_losses {T} (loss_of : T * T → T) (cs : list (call T))
  : list T :=
  omap (λ c, match c with
             | ValidationStep batch _ => Some (loss_of batch)
             | TrainingStep _ _ => None
             end) cs.

End Lightning.

Module EFFILitModule.
Import NN Lightning.

Section WithFramework.
Context (T num : Type).

(** [self.hparams], the arguments of [__init__]. *)
Record hparams : Type := {
  freeze_layers : bool;
  output_size : Z;
  pos_weight : Z;
  lr : num;
  weight_decay : num;
  lr_scheduler_min_lr : num;
  lr_scheduler_factor : num;
  lr_scheduler_patience : num
}.

Record self_t : Type := { hp : hparams; model : module }.

(** [timm.create_model("efficientnetv2_rw_t", pretrained=True)] *)
Variable create_model : module.

(** The new classification head, built up by [add_module]. *)
Definition classifier_head (output_size : Z) : module :=
  let classifier := nn_Sequential (nn_Linear 1024 32) in
  let classifier := add_module classifier "Act SiLU" nn_SiLU in
  let classifier := add_module classifier "Dropout" (nn_Dropout (1 # 2)) in
  add_module classifier "Output" (nn_Linear 32 output_size).

(** [for param in model.<name>.parameters(): param.requires_grad = True] *)
Definition unfreeze (model : module) (name : string) : result module :=
  sub ← getattr model name;
  mret (setattr model name (set_requires_grad true sub)).

(** [EFFILitModule.__init__] *)
Definition __init__ (hparams : hparams) : result self_t :=
  let model := create_model in
  model ← (if freeze_layers hparams then
             let model := set_requires_grad false model in
             model ← unfreeze model "layer_5";
             unfreeze model "conv_1x1_exp"
           else mret model);
  let model := setattr model "classifier" (classifier_head (output_size hparams)) in
  mret {| hp := hparams; model := model |}.

(** The network's forward pass, [squeeze], the loss
    [BCEWithLogitsLoss(pos_weight=...)], [(logits > 0).long()],
    [targets.long()] and the value a torchmetrics object returns for a
    batch. *)
Variable forward_model : module → T → T.
Variable squeeze : T → T.
Variable BCEWithLogitsLoss : option Z → T → T → T.
Variable positive_long : T → T.
Variable long : T → T.
Variable metric_value : string → T → T → T.

Definition forward (self : self_t) (x : T) : T := forward_model (model self) x.

Definition criterion (self : self_t) : T → T → T :=
  BCEWithLogitsLoss (Some (pos_weight (hp self))).

(** [step] *)
Definition step (self : self_t) (batch : T * T) : T * T * T :=
  let '(x, y) := batch in
  let logits := squeeze (forward self x) in
  let loss := criterion self logits y in
  let preds := positive_long logits in
  (loss, preds, y).

(** Calling a metric object updates it and returns the batch value. *)
Definition call_metric (name : string) (preds targets : T) : W T T :=
  _ ← emit (MetricUpdate name preds targets);
  mret (metric_value name preds targets).

(** [training_step] *)
Definition training_step (self : self_t) (batch : T * T) (batch_idx : Z)
  : W T (step_output T) :=
  let '(loss, preds, targets) := step self batch in
  acc ← call_metric "train_acc" preds (long targets);
  _ ← emit (Log "train/acc" acc false true true);
  pre ← call_metric "train_precision" preds (long targets);
  _ ← emit (Log "train/pre" pre false true true);
  rec ← call_metric "train_recall" preds (long targets);
  _ ← emit (Log "train/rec" rec false true true);
  mret {| loss := loss; preds := preds; targets := targets |}.

(** [validation_step] *)
Definition validation_step (self : self_t) (batch : T * T) (batch_idx : Z)
  : W T (step_output T) :=
  let '(loss, preds, targets) := step self batch in
  _ ← emit (Log "val/loss" loss false true false);
  acc ← call_metric "val_acc" preds (long targets);
  _ ← emit (Log "val/acc" acc false true true);
  _ ← emit (SchedulerStep loss);
  mret {| loss := loss; preds := preds; targets := targets |}.

(** [configure_optimizers] *)
Definition configure_optimizers (self : self_t) : optimizers num :=
  let optimizer := {| adam_lr := lr (hp self);
                      adam_weight_decay := weight_decay (hp self) |} in
  let scheduler := {| optimizer := optimizer;
                      mode := "min";
                      factor := lr_scheduler_factor (hp self);
                      patience := lr_scheduler_patience (hp self);
                      min_lr := lr_scheduler_min_lr (hp self) |} in
  {| conf_optimizer := optimizer;
     conf_lr_scheduler := {| scheduler := scheduler; monitor := "val/loss" |} |}.

(** The events of a sequence of hook calls made by the trainer. *)
Definition run_call (self : self_t) (c : call T) : list (event T) :=
  match c with
  | TrainingStep batch i => (training_step self batch i).2
  | ValidationStep batch i => (validation_step self batch i).2
  end.

Definition run (self : self_t) (cs : list (call T)) : list (event T) :=
  cs ≫= run_call self.

End WithFramework.

Arguments hp {num} s.
Arguments model {num} s.
Arguments output_size {num} h.
Arguments freeze_layers {num} h.
Arguments __init__ {num}.
Arguments forward {T num}.
Arguments criterion {T num}.
Arguments step {T num}.
Arguments training_step {T num}.
Arguments validation_step {T num}.
Arguments configure_optimizers {num} self.
Arguments run_call {T num}.
Arguments run {T num}.
End EFFILitModule.

Module MVITLitModule.
Import NN Lightning.

Section WithFramework.
Context (T num : Type).

Record hparams : Type := {
  output_size : Z;
  pos_weight : Z;
  lr : num;
  weight_decay : num;
  lr_scheduler_min_lr : num;
  lr_scheduler_factor : num;
  lr_scheduler_patience : num
}.

Record self_t : Type := { hp : hparams; model : module }.

(** The environment of [load_config] and cvnets'
    [build_classification_model]. *)
Variable globals : gmap string Config.pyv.
Variable alias : bool.
Variable open_file : string → result string.
Variable yaml_load : string → result Config.yaml.
Variable build_classification_model : Config.nsval → result module.

(** [self.model.classifier[-1] = nn.Linear(640, output_size)] *)
Definition replace_last (model : module) (output_size : Z) : result module :=
  classifier ← getattr model "classifier";
  classifier ← setitem classifier (-1) (nn_Linear 640 output_size);
  mret (setattr model "classifier" classifier).

(** [MVITLitModule.__init__] *)
Definition __init__ (hparams : hparams) : St (list string) self_t :=
  cfg ← Config.load_config globals alias open_file yaml_load
          Config.default_config_file;
  model ← lift (build_classification_model cfg);
  model ← lift (replace_last model (output_size hparams));
  mret {| hp := hparams; model := model |}.

Variable forward_model : module → T → T.
Variable squeeze : T → T.
Variable BCEWithLogitsLoss : option Z → T → T → T.
Variable positive_long : T → T.
Variable long : T → T.
Variable metric_value : string → T → T → T.

Definition forward (self : self_t) (x : T) : T := forward_model (model self) x.

Definition criterion (self : self_t) : T → T → T := BCEWithLogitsLoss None.

(** [step] *)
Definition step (self : self_t) (batch : T * T) : T * T * T :=
  let '(x, y) := batch in
  let logits := squeeze (forward self x) in
  let loss := criterion self logits y in
  let preds := positive_long logits in
  (loss, preds, y).

Definition call_metric (name : string) (preds targets : T) : W T T :=
  _ ← emit (MetricUpdate name preds targets);
  mret (metric_value name preds targets).

(** [training_step]; the two scheduler lines are commented out in the
    source. *)
Definition training_step (self : self_t) (batch : T * T) (batch_idx : Z)
  : W T (step_output T) :=
  let '(loss, preds, targets) := step self batch in
  acc ← call_metric "train_acc" preds (long targets);
  _ ← emit (Log "train/loss" loss false true false);
  _ ← emit (Log "train/acc" acc false true true);
  mret {| loss := loss; preds := preds; targets := targets |}.

(** [validation_step] *)
Definition validation_step (self : self_t) (batch : T * T) (batch_idx : Z)
  : W T (step_output T) :=
  let '(loss, preds, targets) := step self batch in
  acc ← call_metric "val_acc" preds (long targets);
  _ ← emit (Log "val/loss" loss false true false);
  _ ← emit (Log "val/acc" acc false true true);
  _ ← emit (SchedulerStep loss);
  mret {| loss := loss; preds := preds; targets := targets |}.

(** [configure_optimizers] *)
Definition configure_optimizers (self : self_t) : optimizers num :=
  let optimizer := {| adam_lr := lr (hp self);
                      adam_weight_decay := weight_decay (hp self) |} in
  let scheduler := {| optimizer := optimizer;
                      mode := "min";
                      factor := lr_scheduler_factor (hp self);
                      patience := lr_scheduler_patience (hp self);
                      min_lr := lr_scheduler_min_lr (hp self) |} in
  {| conf_optimizer := optimizer;
     conf_lr_scheduler := {| scheduler := scheduler; monitor := "val/loss" |} |}.

Definition run_call (self : self_t) (c : call T) : list (event T) :=
  match c with
  | TrainingStep batch i => (training_step self batch i).2
  | ValidationStep batch i => (validation_step self batch i).2
  end.

Definition run (self : self_t) (cs : list (call T)) : list (event T) :=
  cs ≫= run_call self.

End WithFramework.

Arguments hp {num} s.
Arguments model {num} s.
Arguments output_size {num} h.
Arguments __init__ {num}.
Arguments forward {T num}.
Arguments criterion {T num}.
Arguments step {T num}.
Arguments training_step {T num}.
Arguments validation_step {T num}.
Arguments configure_optimizers {num} self.
Arguments run_call {T num}.
Arguments run {T num}.
End MVITLitModule.

(** ** mvit_datamodule.py: the two data modules *)

Module DataModule.
Import Health.

Section WithWorld.
Context (pyobj ambient : Type).
Variable read_csv : string → result dataframe.
Variable decode : string → result ndarray.
Variable clahe_apply : ndarray → result (list (list Z)).

(** [not x] for an attribute that holds [None] or a [HealthDataset]. The
    class defines [__len__] and no [__bool__], so the truth value of a
    dataset is [len(x) != 0], and asking for it calls [__len__]. *)
Definition py_not (x : option (dataset pyobj ambient)) : result bool :=
  match x with
  | None => Ok true
  | Some ds => n ← __len__ ds; mret (bool_decide (n = 0%nat))
  end.

(** [MViTDataModule]: the hyperparameters that [setup] reads, the two
    augmentation pipelines built in [__init__], and the three dataset
    attributes. *)
Record MViTDataModule : Type := {
  train_path : string;
  val_path : string;
  img_dir : string;
  transforms : transform_t pyobj ambient;
  transforms_val : transform_t pyobj ambient;
  data_train : option (dataset pyobj ambient);
  data_val : option (dataset pyobj ambient);
  data_test : option (dataset pyobj ambient)
}.

(** [MViTDataModule.__init__], as far as [setup] depends on it. *)
Definition MViTDataModule_init (train_path val_path img_dir : string)
    (transforms transforms_val : transform_t pyobj ambient) : MViTDataModule :=
  {| train_path := train_path; val_path := val_path; img_dir := img_dir;
     transforms := transforms; transforms_val := transforms_val;
     data_train := None; data_val := None; data_test := None |}.

(** [not self.data_train and not self.data_val and not self.data_test],
    left to right with short circuit. *)
Definition nothing_loaded (self : MViTDataModule) : result bool :=
  py_not (data_train self) ≫= λ a : bool,
  if a then
    py_not (data_val self) ≫= λ b : bool,
    if b then py_not (data_test self) else mret false
  else mret false.

(** [MViTDataModule.setup]. The state is the module object together with
    the image store: an attribute assigned before an exception stays
    assigned. *)
Definition setup : St (MViTDataModule * state ambient) unit := λ '(self, s),
  match nothing_loaded self with
  | Raise e => (@Raise unit e, (self, s))
  | Ok false => (Ok tt, (self, s))
  | Ok true =>
      match __init__ read_csv decode clahe_apply (train_path self) (img_dir self)
              (Some (transforms self)) None true s with
      | (Raise e, s1) => (@Raise unit e, (self, s1))
      | (Ok ds, s1) =>
          let self :=
            {| train_path := train_path self; val_path := val_path self;
               img_dir := img_dir self; transforms := transforms self;
               transforms_val := transforms_val self;
               data_train := Some ds; data_val := data_val self;
               data_test := data_test self |} in
          match __init__ read_csv decode clahe_apply (val_path self) (img_dir self)
                  (Some (transforms_val self)) None true s1 with
          | (Raise e, s2) => (@Raise unit e, (self, s2))
          | (Ok dv, s2) =>
              (Ok tt,
               ({| train_path := train_path self; val_path := val_path self;
                   img_dir := img_dir self; transforms := transforms self;
                   transforms_val := transforms_val self;
                   data_train := data_train self; data_val := Some dv;
                   data_test := data_test self |}, s2))
          end
      end
  end.

(** [MViTDataModuleTesting]. *)
Record MViTDataModuleTesting : Type := {
  test_path : string;
  t_img_dir : string;
  t_transforms : transform_t pyobj ambient;
  t_transforms_val : transform_t pyobj ambient;
  t_data_test : option (dataset pyobj ambient)
}.

(** [MViTDataModuleTesting.setup]: no guard, and [load_ram=False]. *)
Definition setup_testing : St (MViTDataModuleTesting * state ambient) unit :=
  λ '(self, s),
  match __init__ read_csv decode clahe_apply (test_path self) (t_img_dir self)
          (Some (t_transforms_val self)) None false s with
  | (Raise e, s1) => (@Raise unit e, (self, s1))
  | (Ok ds, s1) =>
      (Ok tt,
       ({| test_path := test_path self; t_img_dir := t_img_dir self;
           t_transforms := t_transforms self;
           t_transforms_val := t_transforms_val self;
           t_data_test := Some ds |}, s1))
  end.

End WithWorld.

Arguments py_not {pyobj ambient} x.
Arguments train_path {pyobj ambient} m.
Arguments val_path {pyobj ambient} m.
Arguments img_dir {pyobj ambient} m.
Arguments transforms {pyobj ambient} m.
Arguments transforms_val {pyobj ambient} m.
Arguments data_train {pyobj ambient} m.
Arguments data_val {pyobj ambient} m.
Arguments data_test {pyobj ambient} m.
Arguments MViTDataModule_init {pyobj ambient}.
Arguments nothing_loaded {pyobj ambient} self.
Arguments setup {pyobj ambient}.
Arguments test_path {pyobj ambient} m.
Arguments t_img_dir {pyobj ambient} m.
Arguments t_transforms {pyobj ambient} m.
Arguments t_transforms_val {pyobj ambient} m.
Arguments t_data_test {pyobj ambient} m.
Arguments setup_testing {pyobj ambient}.
End DataModule.

(** ** The remaining hooks of the two wrappers *)

Module Hooks.
Import NN Lightning.

(** The metric objects [__init__] binds as attributes, by name: the
    accumulating metrics hold the batches they were updated with,
    [MaxMetric] the values it was updated with. *)
Inductive metric (T : Type) : Type :=
| Accumulated (updates : list (T * T))
| Maximum (values : list T).
Arguments Accumulated {T} updates.
Arguments Maximum {T} values.

(** The attributes of a fresh [EFFILitModule] and of a fresh
    [MVITLitModule]. Neither binds [test_acc]. *)
Definition effi_metrics {T} : list (string * metric T) :=
  [("train_acc", Accumulated []); ("train_precision", Accumulated []);
   ("train_recall", Accumulated []); ("val_acc", Accumulated []);
   ("val_acc_best", Maximum [])].

Definition mvit_metrics {T} : list (string * metric T) :=
  [("train_acc", Accumulated []); ("val_acc", Accumulated []);
   ("val_acc_best", Maximum [])].

(** [self.<name>] for a metric attribute. *)
Fixpoint get_metric {T} (attrs : list (string * metric T)) (name : string)
  : result (metric T) :=
  match attrs with
  | [] => Raise (AttributeError name)
  | (n, m) :: attrs' => if decide (n = name) then Ok m else get_metric attrs' name
  end.

(** Replacing the state of an attribute that is bound. *)
Fixpoint set_metric {T} (attrs : list (string * metric T)) (name : string)
    (m : metric T) : list (string * metric T) :=
  match attrs with
  | [] => []
  | (n, m') :: attrs' =>
      if decide (n = name) then (n, m) :: attrs'
      else (n, m') :: set_metric attrs' name m
  end.

(** [metric(preds, targets)] and [metric.update(value)]. *)
Definition metric_update {T} (attrs : list (string * metric T)) (name : string)
    (preds targets : T) : list (string * metric T) :=
  match get_metric attrs name with
  | Ok (Accumulated us) => set_metric attrs name (Accumulated (us ++ [(preds, targets)]))
  | _ => attrs
  end.

(** [metric.reset()] *)
Definition metric_reset {T} (attrs : list (string * metric T)) (name : string)
  : result (list (string * metric T)) :=
  m ← get_metric attrs name;
  mret (set_metric attrs name
          match m with Accumulated _ => Accumulated [] | Maximum _ => Maximum [] end).

(** What the metric calls of a step leave in the attributes. *)
Definition absorb {T} (attrs : list (string * metric T)) (es : list (event T))
  : list (string * metric T) :=
  foldl (λ attrs e, match e with
                    | MetricUpdate name p t => metric_update attrs name p t
                    | _ => attrs
                    end) attrs es.

Section WithFramework.
Context (T num : Type).
Variable forward_model : module → T → T.
Variable squeeze : T → T.
Variable BCEWithLogitsLoss : option Z → T → T → T.
Variable positive_long : T → T.
Variable long : T → T.
Variable metric_value : string → T → T → T.
(** [metric.compute()] of an accumulating metric and of [MaxMetric]. *)
Variable compute : string → list (T * T) → T.
Variable compute_max : list T → T.

(** [self.log] in the epoch hooks: [on_step] is left at its default. *)
Inductive epoch_event : Type :=
| EpochLog (name : string) (v : T) (on_step : option bool)
           (on_epoch prog_bar : bool).

(** [test_step], the same text in both wrappers: the step is computed,
    then [self.test_acc] is read. *)
Definition test_step (attrs : list (string * metric T)) (step : T * T * T)
  : result (step_output T) * list (event T) :=
  let '(loss, preds, targets) := step in
  match get_metric attrs "test_acc" with
  | Raise e => (Raise e, [])
  | Ok _ =>
      (Ok {| loss := loss; preds := preds; targets := targets |},
       [MetricUpdate "test_acc" preds targets;
        Log "test/loss" loss false true false;
        Log "test/acc" (metric_value "test_acc" preds targets) false true false])
  end.

Definition effi_test_step (self : EFFILitModule.self_t num)
    (attrs : list (string * metric T)) (batch : T * T) (batch_idx : Z) :=
  test_step attrs
    (EFFILitModule.step forward_model squeeze BCEWithLogitsLoss positive_long
       self batch).

Definition mvit_test_step (self : MVITLitModule.self_t num)
    (attrs : list (string * metric T)) (batch : T * T) (batch_idx : Z) :=
  test_step attrs
    (MVITLitModule.step forward_model squeeze BCEWithLogitsLoss positive_long
       self batch).

(** [EFFILitModule.validation_epoch_end] *)
Definition effi_validation_epoch_end (attrs : list (string * metric T))
  : result (list (string * metric T) * list epoch_event) :=
  val_acc ← get_metric attrs "val_acc";
  match val_acc with
  | Accumulated us =>
      let acc := compute "val_acc" us in
      attrs ← metric_reset attrs "val_acc";
      best ← get_metric attrs "val_acc_best";
      match best with
      | Maximum vs =>
          let attrs := set_metric attrs "val_acc_best" (Maximum (vs ++ [acc])) in
          mret (attrs,
                [EpochLog "val/acc" acc (Some false) true true;
                 EpochLog "val/acc_best" (compute_max (vs ++ [acc])) None true true])
      | Accumulated _ => Raise (TypeError "update")
      end
  | Maximum _ => Raise (TypeError "compute")
  end.

(** [MVITLitModule.validation_epoch_end]: no reset here. *)
Definition mvit_validation_epoch_end (attrs : list (string * metric T))
  : result (list (string * metric T) * list epoch_event) :=
  val_acc ← get_metric attrs "val_acc";
  match val_acc with
  | Accumulated us =>
      let acc := compute "val_acc" us in
      best ← get_metric attrs "val_acc_best";
      match best with
      | Maximum vs =>
          let attrs := set_metric attrs "val_acc_best" (Maximum (vs ++ [acc])) in
          mret (attrs,
                [EpochLog "val/acc_best" (compute_max (vs ++ [acc])) None true true])
      | Accumulated _ => Raise (TypeError "update")
      end
  | Maximum _ => Raise (TypeError "compute")
  end.

(** [EFFILitModule.on_epoch_end]: three resets; [train_recall] is not
    among them. *)
Definition effi_on_epoch_end (attrs : list (string * metric T))
  : result (list (string * metric T)) :=
  attrs ← metric_reset attrs "train_acc";
  attrs ← metric_reset attrs "train_precision";
  metric_reset attrs "val_acc".

(** [MVITLitModule.on_epoch_end] *)
Definition mvit_on_epoch_end (attrs : list (string * metric T))
  : result (list (string * metric T)) :=
  attrs ← metric_reset attrs "train_acc";
  metric_reset attrs "val_acc".

(** One epoch of an [EFFILitModule] as the trainer drives it: the steps,
    then [validation_epoch_end], then [on_epoch_end]. *)
Definition effi_epoch (self : EFFILitModule.self_t num)
    (attrs : list (string * metric T)) (cs : list (call T))
  : result (list (string * metric T)) :=
  let attrs :=
    absorb attrs
      (EFFILitModule.run forward_model squeeze BCEWithLogitsLoss positive_long
         long metric_value self cs) in
  r ← effi_validation_epoch_end attrs;
  effi_on_epoch_end r.1.

Fixpoint effi_epochs (self : EFFILitModule.self_t num)
    (attrs : list (string * metric T)) (epochs : list (list (call T)))
  : result (list (string * metric T)) :=
  match epochs with
  | [] => Ok attrs
  | cs :: epochs' =>
      attrs ← effi_epoch self attrs cs;
      effi_epochs self attrs epochs'
  end.

(** The batches a metric was called with during some steps. *)
Definition updates_of (name : string) (es : list (event T)) : list (T * T) :=
  omap (λ e, match e with
             | MetricUpdate n p t => if decide (n = name) then Some (p, t) else None
             | _ => None
             end) es.

End WithFramework.

Arguments EpochLog {T}.
Arguments test_step {T}.
Arguments effi_test_step {T num}.
Arguments mvit_test_step {T num}.
Arguments effi_validation_epoch_end {T}.
Arguments mvit_validation_epoch_end {T}.
Arguments effi_on_epoch_end {T}.
Arguments mvit_on_epoch_end {T}.
Arguments effi_epoch {T num}.
Arguments effi_epochs {T num}.
Arguments updates_of {T}.
End Hooks.

(** ** Vocabulary of the statements about configurations *)

Module ConfigTerms.
Import Config.

Definition is_mapping (v : yaml) : bool :=
  match v with YMap _ => true | _ => false end.

Definition is_string_key (k : key) : bool :=
  match k with KStr _ => true | KOther _ _ => false end.

(** Every key of every mapping that the flattening visits is a string
    (the values of sequences are not visited). *)
Fixpoint string_keyed (v : yaml) : bool :=
  match v with
  | YMap d =>
      (fix all (d : list (key * yaml)) : bool :=
         match d with
         | [] => true
         | (k, v') :: d' => is_string_key k && string_keyed v' && all d'
         end) d
  | _ => true
  end.

(** What one item of a mapping contributes to the flattened items. *)
Definition flatten_item (alias : bool) (parent_key : key) (sep : string)
    (kv : key * yaml) : result (list (key * yaml)) :=
  new_key ← new_key parent_key sep kv.1;
  nested ← isinstance_MutableMapping alias kv.2;
  if nested : bool
  then flatten_yaml_as_dict alias kv.2 new_key sep
  else mret [(new_key, kv.2)].

(** The mapping [{k1: {k2: ... {kn: v}}}] with string keys. *)
Definition nest (ks : list string) (v : yaml) : yaml :=
  foldr (λ k acc, YMap [(KStr k, acc)]) v ks.

(** The key [k.k1.k2...kn]. *)
Definition dotted (k : string) (ks : list string) : string :=
  foldl (λ acc k', acc +:+ "." +:+ k') k ks.

(** Items under string keys, as items of a dict. *)
Definition string_items (items : list (string * yaml)) : list (key * yaml) :=
  (λ kv, (KStr kv.1, kv.2)) <$> items.

(** A namespace whose attributes are the given items, none nested. *)
Definition flat_namespace (items : list (string * yaml)) : nsval :=
  NSpace ((λ kv, (kv.1, NValue kv.2)) <$> items).

End ConfigTerms.

(** ** Vocabulary of the statements about networks and metrics *)

Module WrapperTerms.
Import NN Lightning Hooks.

(** All [requires_grad] flags of a module tree. *)
Fixpoint all_flags (m : module) : list bool :=
  match m with
  | Module _ g cs =>
      g ++ (fix go (cs : list (string * module)) : list bool :=
              match cs with
              | [] => []
              | (_, c) :: cs' => all_flags c ++ go cs'
              end) cs
  end.

(** Every parameter of the tree has [requires_grad = b]. *)
Definition all_requires_grad (b : bool) (m : module) : Prop :=
  Forall (λ f, f = b) (all_flags m).

(** The metric attributes of an [EFFILitModule] in a given state. *)
Definition effi_attrs {T} (train_acc train_precision train_recall val_acc
    : list (T * T)) (val_acc_best : list T) : list (string * metric T) :=
  [("train_acc", Accumulated train_acc);
   ("train_precision", Accumulated train_precision);
   ("train_recall", Accumulated train_recall);
   ("val_acc", Accumulated val_acc);
   ("val_acc_best", Maximum val_acc_best)].

(** The (predictions, targets) pairs of the validation batches, and of
    the training batches, among the trainer's calls, for a given [step]
    and [long]. *)
Definition validation_pairs {T} (step : T * T → T * T * T) (long : T → T)
    (cs : list (call T)) : list (T * T) :=
  omap (λ c, match c with
             | ValidationStep batch _ =>
                 Some ((step batch).1.2, long (step batch).2)
             | TrainingStep _ _ => None
             end) cs.

Definition training_pairs {T} (step : T * T → T * T * T) (long : T → T)
    (cs : list (call T)) : list (T * T) :=
  omap (λ c, match c with
             | TrainingStep batch _ =>
                 Some ((step batch).1.2, long (step batch).2)
             | ValidationStep _ _ => None
             end) cs.

End WrapperTerms.

(** ** A small concrete world

    Four label tables and two single-channel image files, with a CLAHE
    stand-in that leaves the pixels as they are. Used to run the model on
    concrete inputs. *)

Module Example.
Import Torch Health.

Definition read_csv (path : string) : result dataframe :=
  if decide (path = "train.csv") then
    Ok [("image", ["a.png"; "b.png"]); ("label", ["negative"; "positive"])]
  else if decide (path = "single.csv") then
    Ok [("image", ["a.png"]); ("label", ["positive"])]
  else if decide (path = "test.csv") then
    Ok [("image", ["a.png"; "b.png"])]
  else if decide (path = "broken.csv") then
    Ok [("image", ["a.png"; "missing.png"])]
  else Raise (OSError path).

Definition decode (path : string) : result ndarray :=
  if decide (path = "imgs/a.png") then Ok (Arr2 [[0; 300]])
  else if decide (path = "imgs/b.png") then Ok (Arr2 [[7]])
  else Raise (OSError path).

Definition clahe_apply (a : ndarray) : result (list (list Z)) :=
  match a with
  | Arr2 px => Ok px
  | Arr3 _ => Raise (ExternalError "cv2.error")
  end.

Definition s0 : state unit := State [] tt.

(** Two small pretrained networks, shaped like the ones the wrappers
    load. *)
Definition efficientnet : NN.module :=
  NN.Module (NN.Pretrained "EfficientNet") []
    [("conv_stem", NN.Module (NN.Pretrained "Conv2d") [true] []);
     ("blocks", NN.Module NN.Sequential []
                  [("0", NN.Module (NN.Pretrained "EdgeResidual") [true; true] [])]);
     ("classifier", NN.Module (NN.Linear 1024 1000) [true; true] [])].

Definition mobilevit : NN.module :=
  NN.Module (NN.Pretrained "MobileViT") []
    [("conv_1", NN.Module (NN.Pretrained "ConvLayer") [true] []);
     ("layer_5", NN.Module NN.Sequential []
                   [("0", NN.Module (NN.Pretrained "MobileViTBlock") [true] [])]);
     ("conv_1x1_exp", NN.Module (NN.Pretrained "ConvLayer") [true] []);
     ("classifier", NN.Module NN.Sequential []
                      [("global_pool", NN.Module (NN.Pretrained "GlobalPool") [] []);
                       ("dropout", NN.Module (NN.Dropout (1 # 10)) [] []);
                       ("fc", NN.Module (NN.Linear 640 1000) [true; true] [])])].

(** Hyperparameters, with integers standing for the floats. *)
Definition effi_hparams : EFFILitModule.hparams Z :=
  {| EFFILitModule.freeze_layers := false;
     EFFILitModule.output_size := 1;
     EFFILitModule.pos_weight := 10;
     EFFILitModule.lr := 1;
     EFFILitModule.weight_decay := 5;
     EFFILitModule.lr_scheduler_min_lr := 5;
     EFFILitModule.lr_scheduler_factor := 5;
     EFFILitModule.lr_scheduler_patience := 5 |}.

(** A configuration file that does not parse, and one that does. *)
Definition open_file (path : string) : result string :=
  if decide (path = Config.default_config_file) then Ok "model: ["
  else if decide (path = "model_conf.yaml") then Ok "model: {name: mobilevit}"
  else Raise (OSError path).

Definition yaml_load (text : string) : result Config.yaml :=
  if decide (text = "model: {name: mobilevit}") then
    Ok (Config.YMap
          [(Config.KStr "model",
            Config.YMap [(Config.KStr "name", Config.YScalar "mobilevit")])])
  else Raise (YAMLError "while parsing a flow sequence").

Definition init (label_path : string) (load_ram : bool)
  : result (dataset unit unit) * state unit :=
  __init__ read_csv decode clahe_apply label_path "imgs/" None None load_ram s0.

Definition getitem (self : dataset unit unit) (idx : Z)
  : St (state unit) (value unit * value unit) :=
  __getitem__ decode clahe_apply self idx.

End Example.

(** ** More of the concrete world: data modules and frozen layers *)

Module Sample.
Import Health DataModule.

(** A transform that returns the image object it was given. *)
Definition identity_transform : transform_t unit unit :=
  λ l img a, (Ok (VImage l), img, a).

Definition datamodule (train_path val_path : string) : MViTDataModule unit unit :=
  MViTDataModule_init train_path val_path "imgs/" identity_transform
    identity_transform.

Definition setup
  : St (MViTDataModule unit unit * state unit) unit :=
  DataModule.setup Example.read_csv Example.decode Example.clahe_apply.

Definition testing_module (test_path : string) : MViTDataModuleTesting unit unit :=
  {| test_path := test_path; t_img_dir := "imgs/";
     t_transforms := identity_transform;
     t_transforms_val := identity_transform;
     t_data_test := None |}.

(** Library calls of the example script that succeed and change nothing,
    and a [save] that fails on one path. *)
Definition print_size (v : value unit) : St (state unit) unit :=
  λ s, (Ok tt, s).
Definition fromarray_rgb (v : value unit) : St (state unit) (value unit) :=
  λ s, (Ok v, s).
Definition convert_L (v : value unit) : St (state unit) (value unit) :=
  λ s, (Ok v, s).
Definition save (v : value unit) (path : string) : St (state unit) unit :=
  λ s, (Ok tt, s).

(** A configuration file that parses, whatever its name, and a builder
    that returns the small MobileViT. *)
Definition open_config (path : string) : result string :=
  Ok "model: {name: mobilevit}".

Definition build_classification_model (cfg : Config.nsval) : result NN.module :=
  Ok Example.mobilevit.

Definition mvit_hparams : MVITLitModule.hparams Z :=
  {| MVITLitModule.output_size := 1;
     MVITLitModule.pos_weight := 10;
     MVITLitModule.lr := 1;
     MVITLitModule.weight_decay := 5;
     MVITLitModule.lr_scheduler_min_lr := 5;
     MVITLitModule.lr_scheduler_factor := 5;
     MVITLitModule.lr_scheduler_patience := 5 |}.

Definition frozen_hparams : EFFILitModule.hparams Z :=
  {| EFFILitModule.freeze_layers := true;
     EFFILitModule.output_size := 1;
     EFFILitModule.pos_weight := 10;
     EFFILitModule.lr := 1;
     EFFILitModule.weight_decay := 5;
     EFFILitModule.lr_scheduler_min_lr := 5;
     EFFILitModule.lr_scheduler_factor := 5;
     EFFILitModule.lr_scheduler_patience := 5 |}.

End Sample.

(** * Properties *)

Ltac st_unfold :=
  unfold mbind, mret, St_bind, St_ret, lift, result_bind, result_ret in *.
Ltac st_unfold_goal :=
  unfold mbind, mret, St_bind, St_ret, lift, result_bind, result_ret.

(** ** Results, indexing and sequential maps *)

Section Basics.
Context {A B : Type}.
Implicit Types (l : list A) (f : A → result B).

Lemma py_index_in_range l idx :
  in_range (length l) idx →
  ∃ a, l !! py_pos (length l) idx = Some a ∧ py_index l idx = Ok a.
Proof.
  unfold in_range, py_index, py_pos. intros Hr.
  set (i := if idx <? 0 then idx + Z.of_nat (length l) else idx).
  assert (Hi : 0 <= i < Z.of_nat (length l)).
  { subst i. destruct (Z.ltb_spec idx 0); lia. }
  destruct (l !! Z.to_nat i) as [a|] eqn:Hl.
  - exists a. split; [done|].
    replace ((0 <=? i) && (i <? Z.of_nat (length l))) with true; [done|].
    symmetry. apply andb_true_iff. split; [apply Z.leb_le | apply Z.ltb_lt]; lia.
  - apply lookup_ge_None in Hl. lia.
Qed.

Lemma py_index_out_of_range l idx :
  ¬ in_range (length l) idx → py_index l idx = Raise IndexError.
Proof.
  unfold in_range, py_index. intros Hr.
  set (i := if idx <? 0 then idx + Z.of_nat (length l) else idx).
  destruct ((0 <=? i) && (i <? Z.of_nat (length l))) eqn:Hb; [|done].
  apply andb_true_iff in Hb as [H1%Z.leb_le H2%Z.ltb_lt].
  exfalso. apply Hr. subst i. destruct (Z.ltb_spec idx 0); lia.
Qed.

Lemma py_index_Ok l idx a :
  py_index l idx = Ok a →
  in_range (length l) idx ∧ l !! py_pos (length l) idx = Some a.
Proof.
  intros H. destruct (decide (in_range (length l) idx)) as [Hr|Hr].
  - split; [done|]. destruct (py_index_in_range l idx Hr) as (a' & Hl & Hi).
    congruence.
  - rewrite py_index_out_of_range in H; [discriminate | done].
Qed.

Lemma map_result_Ok f l bs :
  map_result f l = Ok bs → Forall2 (λ a b, f a = Ok b) l bs.
Proof.
  revert bs. induction l as [|a l IH]; intros bs; simpl.
  - intros [= <-]. constructor.
  - destruct (f a) as [b|e] eqn:Hf; simpl; [|discriminate].
    destruct (map_result f l) as [bs'|e]; simpl; [|discriminate].
    intros [= <-]. constructor; [done | by apply IH].
Qed.

Lemma map_result_Raise f l e :
  map_result f l = Raise e → ∃ a, a ∈ l ∧ f a = Raise e.
Proof.
  induction l as [|a l IH]; simpl; [discriminate|].
  destruct (f a) as [b|e'] eqn:Hf; simpl.
  - destruct (map_result f l) as [bs'|e'']; simpl; [discriminate|].
    intros [= <-]. destruct IH as (a' & Hin & Ha'); [done|].
    exists a'. split; [by right | done].
  - intros [= <-]. exists a. split; [by left | done].
Qed.

Lemma map_result_fails f l a e :
  a ∈ l → f a = Raise e → ∃ e', map_result f l = Raise e'.
Proof.
  intros Hin Hf. destruct (map_result f l) as [bs|e'] eqn:Hm; [|by eauto].
  apply map_result_Ok in Hm.
  apply list_elem_of_lookup in Hin as [i Hi].
  destruct (Forall2_lookup_l _ _ _ _ _ Hm Hi) as (b & _ & Hb). congruence.
Qed.

Lemma map_result_total f l :
  (∀ a, a ∈ l → is_ok (f a) = true) → ∃ bs, map_result f l = Ok bs.
Proof.
  intros Hall. destruct (map_result f l) as [bs|e] eqn:Hm; [by eauto|].
  apply map_result_Raise in Hm as (a & Hin & Hf).
  specialize (Hall a Hin). rewrite Hf in Hall. discriminate.
Qed.
End Basics.

(** ** The label table and the tensor built from it *)

Section Frames.
Import Torch Health.

Lemma column_Ok_iff (frame : dataframe) (c : string) :
  c ∈ columns frame ↔ ∃ cells, column frame c = Ok cells.
Proof.
  unfold columns. induction frame as [|[c' cells] frame IH]; simpl.
  - split; [by intros ?%elem_of_nil | by intros [? [=]]].
  - destruct (decide (c' = c)) as [->|Hne].
    + split; [by eauto | intros _; by left].
    + rewrite <- IH. split; [|by right].
      intros [?|?]%elem_of_cons; [congruence | done].
Qed.

Lemma column_length (frame : dataframe) (c : string) cells n :
  frame_rows frame n → column frame c = Ok cells → length cells = n.
Proof.
  unfold frame_rows. induction 1 as [|[c' cells'] frame Hlen _ IH]; simpl;
    [discriminate|].
  destruct (decide (c' = c)); [by intros [= <-] | done].
Qed.

Lemma squeeze_FloatTensor_data xs : data (squeeze (FloatTensor xs)) = xs.
Proof. reflexivity. Qed.

(** The shape after [squeeze]: a single row leaves a 0-dimensional
    tensor, any other number of rows a vector of that length. *)
Lemma squeeze_FloatTensor_shape xs :
  shape (squeeze (FloatTensor xs))
  = if decide (length xs = 1%nat) then [] else [length xs].
Proof.
  unfold squeeze, FloatTensor; simpl. unfold filter; simpl.
  destruct (decide (length xs = 1%nat)) as [->|Hne]; simpl; [done|].
  destruct (decide_rel _ _ _); [congruence | done].
Qed.

Lemma squeeze_FloatTensor_numel xs :
  numel (squeeze (FloatTensor xs)) = length xs.
Proof.
  unfold numel. rewrite squeeze_FloatTensor_shape.
  destruct (decide (length xs = 1%nat)) as [->|Hne]; simpl; lia.
Qed.

(** Indexing a vector picks the element as a 0-dimensional tensor. *)
Lemma index_vector xs idx :
  length xs ≠ 1%nat → in_range (length xs) idx →
  ∃ x, xs !! py_pos (length xs) idx = Some x
       ∧ index (squeeze (FloatTensor xs)) idx = Ok (scalar x).
Proof.
  intros Hne Hr. unfold index. rewrite squeeze_FloatTensor_shape.
  destruct (decide _) as [|_]; [done|]. unfold in_range in Hr. unfold py_pos.
  set (i := if idx <? 0 then idx + Z.of_nat (length xs) else idx).
  assert (Hi : 0 <= i < Z.of_nat (length xs)).
  { subst i. destruct (Z.ltb_spec idx 0); lia. }
  replace ((0 <=? i) && (i <? Z.of_nat (length xs))) with true.
  2:{ symmetry. apply andb_true_iff.
      split; [apply Z.leb_le | apply Z.ltb_lt]; lia. }
  destruct (xs !! Z.to_nat i) as [x|] eqn:Hx.
  2:{ apply lookup_ge_None in Hx. lia. }
  exists x. split; [done|]. simpl. rewrite Nat.mul_1_r.
  unfold scalar. do 2 f_equal.
  pose proof (lookup_lt_Some _ _ _ Hx) as Hlt.
  apply take_drop_middle in Hx. rewrite <- Hx at 1.
  rewrite drop_app_length'; [done|]. rewrite length_take. lia.
Qed.

Lemma index_out_of_range xs idx :
  ¬ in_range (length xs) idx →
  index (squeeze (FloatTensor xs)) idx = Raise IndexError.
Proof.
  intros Hr. unfold index. rewrite squeeze_FloatTensor_shape.
  destruct (decide _); [done|]. unfold in_range in Hr.
  set (i := if idx <? 0 then idx + Z.of_nat (length xs) else idx).
  destruct ((0 <=? i) && (i <? Z.of_nat (length xs))) eqn:Hb; [|done].
  apply andb_true_iff in Hb as [H1%Z.leb_le H2%Z.ltb_lt].
  exfalso. apply Hr. subst i. destruct (Z.ltb_spec idx 0); lia.
Qed.

(** A 0-dimensional tensor cannot be indexed at all. *)
Lemma index_single_row x idx :
  index (squeeze (FloatTensor [x])) idx = Raise IndexError.
Proof. reflexivity. Qed.
End Frames.

(** ** The dataset *)

Section Dataset.
Import Torch Health.
Context {pyobj ambient : Type}.
Variable read_csv : string → result dataframe.
Variable decode : string → result ndarray.
Variable clahe_apply : ndarray → result (list (list Z)).

Local Abbreviation state := (Health.state ambient).
Local Abbreviation dataset := (Health.dataset pyobj ambient).
Local Abbreviation init :=
  (__init__ (pyobj:=pyobj) (ambient:=ambient) read_csv decode clahe_apply).
Local Abbreviation preproc := (preproc_image decode clahe_apply).
Local Abbreviation load :=
  (load_image (pyobj:=pyobj) (ambient:=ambient) decode clahe_apply).
Local Abbreviation getitem :=
  (__getitem__ (pyobj:=pyobj) (ambient:=ambient) decode clahe_apply).

Implicit Types (s : state) (ds : dataset) (idx : Z).

Lemma alloc_all_spec imgs s :
  alloc_all imgs s
  = (Ok (seq (length (heap s)) (length imgs)), State (heap s ++ imgs) (amb s)).
Proof.
  revert s. induction imgs as [|img imgs IH]; intros s; simpl.
  - st_unfold. rewrite app_nil_r. by destruct s.
  - st_unfold. unfold alloc at 1. rewrite IH. simpl.
    rewrite length_app, <- app_assoc. simpl.
    by replace (length (heap s) + 1)%nat with (S (length (heap s))) by lia.
Qed.

Lemma init_Ok lp ip tr ttr lr s ds s' :
  init lp ip tr ttr lr s = (Ok ds, s') →
  ∃ frame nms,
    constructed read_csv decode clahe_apply lp ip tr ttr lr s ds s' frame nms.
Proof.
  unfold __init__. st_unfold.
  destruct (read_csv lp) as [frame|e] eqn:Hcsv; [|discriminate].
  destruct (column frame "image") as [nms|e] eqn:Himg.
  2:{ case_bool_decide as Hlab; [|discriminate].
      destruct (column frame "label"); discriminate. }
  assert (Hlabels : ∃ ls,
    (if bool_decide ("label" ∈ columns frame)
     then match column frame "label" with
          | Ok a => Ok (LTensor (squeeze (FloatTensor (encode_label <$> a))))
          | Raise e => Raise e
          end
     else Ok (LList nms)) = Ok ls
    ∧ (∀ col, column frame "label" = Ok col →
         ls = LTensor (squeeze (FloatTensor (encode_label <$> col))))
    ∧ ("label" ∉ columns frame → ls = LList nms)).
  { case_bool_decide as Hlab.
    - destruct (proj1 (column_Ok_iff _ _) Hlab) as [col Hcol]. rewrite Hcol.
      eexists. split; [done|]. split; [by intros ? [= <-] | done].
    - eexists. split; [done|]. split; [|done].
      intros col Hcol. exfalso. apply Hlab, column_Ok_iff. eauto. }
  destruct Hlabels as (ls & -> & Hl1 & Hl2).
  destruct lr.
  - unfold Parallel. st_unfold.
    destruct (map_result _ _) as [imgs|e] eqn:Hmap; [|discriminate].
    rewrite alloc_all_spec. intros [= <- <-].
    exists frame, nms. split; simpl; try done. by exists imgs.
  - intros [= <- <-]. exists frame, nms. split; simpl; done.
Qed.

(** Construction without preloading needs only the table. *)
Lemma init_lazy_total lp ip tr ttr s frame nms :
  read_csv lp = Ok frame → column frame "image" = Ok nms →
  ∃ ds, init lp ip tr ttr false s = (Ok ds, s).
Proof.
  intros Hcsv Himg. unfold __init__. st_unfold. rewrite Hcsv, Himg.
  case_bool_decide as Hlab; [|by eauto].
  destruct (proj1 (column_Ok_iff _ _) Hlab) as [col ->]. by eauto.
Qed.

(** Construction with preloading succeeds when every listed file
    decodes. *)
Lemma init_eager_total lp ip tr ttr s frame nms :
  read_csv lp = Ok frame → column frame "image" = Ok nms →
  (∀ name, name ∈ nms → is_ok (preproc (ip +:+ name)) = true) →
  ∃ ds s', init lp ip tr ttr true s = (Ok ds, s').
Proof.
  intros Hcsv Himg Hall. unfold __init__. st_unfold. rewrite Hcsv, Himg.
  destruct (map_result_total preproc ((λ name, ip +:+ name) <$> nms))
    as [imgs Himgs].
  { intros p (name & -> & Hin)%list_elem_of_fmap. by apply Hall. }
  unfold Parallel. st_unfold. rewrite Himgs, alloc_all_spec.
  case_bool_decide as Hlab; [|by eauto].
  destruct (proj1 (column_Ok_iff _ _) Hlab) as [col ->]. by eauto.
Qed.

(** *** What the operations do to the store *)

Lemma load_image_effect ds idx s :
  (∃ img, load ds idx s
          = (Ok (length (heap s)), State (heap s ++ [img]) (amb s)))
  ∨ (∃ e, load ds idx s = (Raise e, s)).
Proof.
  unfold load_image. destruct (load_ram ds).
  - destruct (images ds) as [cache|]; [|right; by eauto].
    st_unfold. destruct (py_index cache idx) as [l|e]; [|right; by eauto].
    unfold deref. destruct (heap s !! l) as [img|]; [|right; by eauto].
    left. by exists img.
  - st_unfold. destruct (py_index (names ds) idx) as [name|e];
      [|right; by eauto].
    destruct (preproc _) as [img|e]; [|right; by eauto].
    left. by exists img.
Qed.

Lemma load_image_prefix ds idx s :
  heap s `prefix_of` heap (load ds idx s).2.
Proof.
  destruct (load_image_effect ds idx s) as [[img ->]|[e ->]]; simpl.
  - by apply prefix_app_r.
  - done.
Qed.

Lemma getitem_prefix ds idx s :
  heap s `prefix_of` heap (getitem ds idx s).2.
Proof.
  unfold __getitem__. st_unfold.
  destruct (load_image_effect ds idx s) as [[img ->]|[e ->]]; [|done].
  destruct (labels_index (pyobj:=pyobj) (labels ds) idx) as [lab|e]; simpl;
    [|by apply prefix_app_r].
  assert (Hafter : ∀ (v : value pyobj) s1,
    heap s `prefix_of` heap s1 →
    heap s `prefix_of`
      heap (match (match target_transform ds with
                   | Some g => call_target_transform g lab
                   | None => λ s, (Ok lab, s)
                   end) s1 with
            | (Ok a, s') => (Ok (v, a), s')
            | (Raise e, s') => (Raise e, s')
            end).2).
  { intros v s1 Hs1. destruct (target_transform ds) as [g|]; [|done].
    unfold call_target_transform. destruct (g lab (amb s1)) as [[?|?] ?]; done. }
  destruct (transform ds) as [f|].
  - unfold call_transform; simpl.
    rewrite lookup_app_r, Nat.sub_diag by done; simpl.
    destruct (f _ img (amb s)) as [[[v|e] img'] a'].
    + apply Hafter; simpl. rewrite insert_app_r_alt, Nat.sub_diag by done.
      by apply prefix_app_r.
    + simpl. rewrite insert_app_r_alt, Nat.sub_diag by done.
      by apply prefix_app_r.
  - apply Hafter; simpl. by apply prefix_app_r.
Qed.

Lemma run_ops_prefix ds os s :
  heap s `prefix_of` heap (run_ops decode clahe_apply ds os s).
Proof.
  unfold run_ops. revert s. induction os as [|o os IH]; intros s; simpl;
    [done|].
  etrans; [|apply IH]. destruct o; simpl;
    [apply load_image_prefix | done | apply getitem_prefix].
Qed.

(** **** Claim C1 *)

(** C1. When the table has a 'label' column, construction turns it into
    a tensor whose elements, in row order, are 0 for the label string
    "negative" and 1 for any other label string, one element per row of
    the table. *)
Theorem labels_encode_rows lp ip tr ttr lr s ds s' frame col n :
  read_csv lp = Ok frame →
  column frame "label" = Ok col →
  frame_rows frame n →
  init lp ip tr ttr lr s = (Ok ds, s') →
  ∃ t, labels ds = LTensor t
       ∧ numel t = n
       ∧ length (data t) = n
       ∧ data t = encode_label <$> col
       ∧ ∀ i label, col !! i = Some label →
           data t !! i = Some (if decide (label = "negative") then 0 else 1).
Proof.
  intros Hcsv Hcol Hrows (frame' & nms & C)%init_Ok.
  assert (frame' = frame) as -> by (destruct C; congruence).
  pose proof (column_length _ _ _ _ Hrows Hcol) as Hlen.
  eexists. split; [by eapply c_labelled|].
  rewrite squeeze_FloatTensor_numel, squeeze_FloatTensor_data, length_fmap.
  repeat split; try done.
  intros i label Hi. by rewrite list_lookup_fmap, Hi.
Qed.

(** **** Claim C2 *)

(** C2. After construction with [load_ram=True] the cache is a list with
    one entry per row of the table, the i-th entry being the
    preprocessed image of the i-th file name, and no sequence of dataset
    operations changes the cached images. *)
Theorem cache_aligned_and_stable lp ip tr ttr s ds s' :
  init lp ip tr ttr true s = (Ok ds, s') →
  ∃ cache,
    images ds = Some cache
    ∧ length cache = length (names ds)
    ∧ (∀ frame n, read_csv lp = Ok frame → frame_rows frame n →
         length cache = n)
    ∧ (∀ i name, names ds !! i = Some name →
         ∃ l img, cache !! i = Some l
                  ∧ preproc (ip +:+ name) = Ok img
                  ∧ heap s' !! l = Some img)
    ∧ (∀ os i l, cache !! i = Some l →
         heap (run_ops decode clahe_apply ds os s') !! l = heap s' !! l).
Proof.
  intros (frame & nms & C)%init_Ok.
  destruct C as [Hcsv Hcol Hnames _ _ _ _ _ _ (imgs & Hmap & Himages & ->)].
  apply map_result_Ok in Hmap.
  pose proof (Forall2_length _ _ _ Hmap) as Hlen. rewrite length_fmap in Hlen.
  eexists. split; [done|]. rewrite length_seq, Hnames.
  split; [done|]. split; [|split].
  - intros frame' n Hcsv' Hrows.
    assert (frame' = frame) as -> by congruence.
    rewrite <- Hlen. by eapply column_length.
  - intros i name Hi.
    destruct (Forall2_lookup_l _ _ _ i (ip +:+ name) Hmap) as (img & Himg & Hpre).
    { by rewrite list_lookup_fmap, Hi. }
    exists (length (heap s) + i)%nat, img. split; [|split; [done|]].
    + apply lookup_seq. apply lookup_lt_Some in Himg. done.
    + simpl. rewrite lookup_app_r by lia.
      by replace (length (heap s) + i - length (heap s))%nat with i by lia.
  - intros os i l [-> Hi]%lookup_seq.
    destruct (run_ops_prefix ds os (State (heap s ++ imgs) (amb s)))
      as [k ->]; simpl.
    apply lookup_app_l. rewrite length_app. lia.
Qed.

(** **** Claim C5 *)

Lemma preproc_image_decode_fails path e :
  decode path = Raise e → preproc path = Raise e.
Proof. unfold preproc_image. st_unfold. by intros ->. Qed.

(** C5. An image is read from the path obtained by appending the file
    name to the image directory. If a listed file fails to decode or to
    preprocess, construction with [load_ram=True] raises the exception of
    such a file and builds nothing, and [load_image] of a dataset built
    with [load_ram=False] raises the exception of the file it is asked
    for. *)
Theorem image_errors_propagate lp ip tr ttr s frame nms name e :
  read_csv lp = Ok frame →
  column frame "image" = Ok nms →
  name ∈ nms →
  preproc (ip +:+ name) = Raise e →
  (∃ name' e', name' ∈ nms
               ∧ preproc (ip +:+ name') = Raise e'
               ∧ init lp ip tr ttr true s = (Raise e', s))
  ∧ (∀ ds s0 s1 idx st,
       init lp ip tr ttr false s0 = (Ok ds, s1) →
       py_index (names ds) idx = Ok name →
       load ds idx st = (Raise e, st)).
Proof.
  intros Hcsv Himg Hin Hpre. split.
  - destruct (map_result_fails preproc ((λ name, ip +:+ name) <$> nms)
                (ip +:+ name) e) as [e' Hmap]; [|done|].
    { apply list_elem_of_fmap. by exists name. }
    destruct (map_result_Raise _ _ _ Hmap) as (p & Hp & Hpe).
    apply list_elem_of_fmap in Hp as (name' & -> & Hin').
    exists name', e'. split; [done|]. split; [done|].
    unfold __init__. st_unfold. rewrite Hcsv, Himg.
    unfold Parallel. st_unfold. rewrite Hmap.
    case_bool_decide as Hlab; [|done].
    by destruct (proj1 (column_Ok_iff _ _) Hlab) as [col ->].
  - intros ds s0 s1 idx st (frame' & nms' & C)%init_Ok Hidx.
    destruct C as [_ _ _ Hpath Hram _ _ _ _ _].
    unfold load_image. rewrite Hram. st_unfold. by rewrite Hidx, Hpath, Hpre.
Qed.

(** **** Claim C9 *)

(** C9. Over the same files, a dataset built with [load_ram=True] and
    one built with [load_ram=False] hand out the same image for every
    index, and raise the same exception for an index out of range. The
    cached dataset may have been used before: its state is any state
    reached from construction by dataset operations. *)
Theorem load_image_cache_equiv lp ip tr1 ttr1 tr2 ttr2 s1 ds1 s1' s2 ds2 s2'
    os idx st :
  init lp ip tr1 ttr1 true s1 = (Ok ds1, s1') →
  init lp ip tr2 ttr2 false s2 = (Ok ds2, s2') →
  image_of (load ds1 idx (run_ops decode clahe_apply ds1 os s1'))
  = image_of (load ds2 idx st).
Proof.
  intros (frame & nms & C1)%init_Ok (frame' & nms' & C2)%init_Ok.
  destruct C1 as [Hcsv Hcol Hn1 _ Hram1 _ _ _ _ (imgs & Hmap & Himages & ->)].
  destruct C2 as [Hcsv' Hcol' Hn2 Hp2 Hram2 _ _ _ _ _].
  assert (frame' = frame) as -> by congruence.
  assert (nms' = nms) as -> by congruence.
  apply map_result_Ok in Hmap.
  pose proof (Forall2_length _ _ _ Hmap) as Hlen. rewrite length_fmap in Hlen.
  destruct (run_ops_prefix ds1 os (State (heap s1 ++ imgs) (amb s1)))
    as [k Hk]; simpl in Hk.
  set (sa := run_ops decode clahe_apply ds1 os _) in *.
  unfold load_image. rewrite Hram1, Hram2, Himages, Hn2, Hp2. st_unfold.
  destruct (decide (in_range (length nms) idx)) as [Hr|Hr].
  - destruct (py_index_in_range nms idx Hr) as (name & Hname & ->).
    destruct (py_index_in_range (seq (length (heap s1)) (length imgs)) idx)
      as (l & Hl & ->); [by rewrite length_seq, <- Hlen|].
    rewrite length_seq, <- Hlen in Hl. apply lookup_seq in Hl as [-> Hlt].
    destruct (Forall2_lookup_l _ _ _ (py_pos (length nms) idx) (ip +:+ name) Hmap)
      as (img & Himg & Hpre).
    { by rewrite list_lookup_fmap, Hname. }
    rewrite Hpre. unfold deref.
    assert (heap sa !! (length (heap s1) + py_pos (length nms) idx)%nat
            = Some img) as ->.
    { rewrite Hk, <- app_assoc, lookup_app_r by lia.
      rewrite lookup_app_l by (apply lookup_lt_Some in Himg; lia).
      rewrite <- Himg. f_equal. lia. }
    simpl. by rewrite !lookup_app_r, !Nat.sub_diag by done.
  - rewrite !py_index_out_of_range; [done | done |].
    by rewrite length_seq, <- Hlen.
Qed.

(** **** Claim C7: the behaviour of [__getitem__] *)

Lemma getitem_steps ds idx s l s1 lab :
  load ds idx s = (Ok l, s1) →
  labels_index (pyobj:=pyobj) (labels ds) idx = Ok lab →
  getitem ds idx s = apply_transforms ds l lab s1.
Proof.
  intros Hload Hlab. unfold __getitem__, apply_transforms. st_unfold.
  by rewrite Hload, Hlab.
Qed.

(** An index outside the table fails in [load_image], at the list
    indexing, before anything is allocated. *)
Lemma getitem_out_of_range lp ip tr ttr lr s0 ds s1 idx st :
  init lp ip tr ttr lr s0 = (Ok ds, s1) →
  ¬ in_range (length (names ds)) idx →
  getitem ds idx st = (Raise IndexError, st).
Proof.
  intros (frame & nms & C)%init_Ok Hr.
  destruct C as [_ _ Hn _ Hram _ _ _ _ Himgs].
  unfold __getitem__, load_image. rewrite Hram. st_unfold. destruct lr.
  - destruct Himgs as (imgs & Hmap & -> & _).
    apply map_result_Ok, Forall2_length in Hmap. rewrite length_fmap in Hmap.
    rewrite py_index_out_of_range; [done|].
    by rewrite length_seq, <- Hmap, <- Hn.
  - by rewrite py_index_out_of_range.
Qed.

Lemma load_image_Ok_in_range lp ip tr ttr lr s0 ds s1 idx st l st' :
  init lp ip tr ttr lr s0 = (Ok ds, s1) →
  load ds idx st = (Ok l, st') →
  in_range (length (names ds)) idx.
Proof.
  intros (frame & nms & C)%init_Ok Hload.
  destruct C as [_ _ Hn _ Hram _ _ _ _ Himgs].
  destruct (decide (in_range (length (names ds)) idx)) as [|Hr]; [done|].
  exfalso. revert Hload. unfold load_image. rewrite Hram. st_unfold.
  destruct lr.
  - destruct Himgs as (imgs & Hmap & -> & _).
    apply map_result_Ok, Forall2_length in Hmap. rewrite length_fmap in Hmap.
    rewrite py_index_out_of_range; [done|].
    by rewrite length_seq, <- Hmap, <- Hn.
  - by rewrite py_index_out_of_range.
Qed.

(** With the cache loaded, every in-range index loads. *)
Lemma load_image_cached_total lp ip tr ttr s0 ds s1 os idx :
  init lp ip tr ttr true s0 = (Ok ds, s1) →
  in_range (length (names ds)) idx →
  let st := run_ops decode clahe_apply ds os s1 in
  ∃ img, load ds idx st
         = (Ok (length (heap st)), State (heap st ++ [img]) (amb st)).
Proof.
  intros Hinit Hr st.
  destruct (load_image_effect ds idx st) as [|[e He]]; [done|]. exfalso.
  pose proof Hinit as (frame & nms & C)%init_Ok.
  destruct C as [_ _ Hn _ Hram _ _ _ _ (imgs & Hmap & Himages & ->)].
  apply map_result_Ok, Forall2_length in Hmap. rewrite length_fmap in Hmap.
  destruct (run_ops_prefix ds os (State (heap s0 ++ imgs) (amb s0)))
    as [k Hk]; simpl in Hk. fold st in Hk.
  revert He. unfold load_image. rewrite Hram, Himages. st_unfold.
  destruct (py_index_in_range (seq (length (heap s0)) (length imgs)) idx)
    as (l & Hl & ->); [by rewrite length_seq, <- Hmap, <- Hn|].
  apply lookup_seq in Hl as [-> Hlt]. rewrite length_seq in Hlt.
  unfold deref. rewrite Hk, <- app_assoc, lookup_app_r by lia.
  destruct (lookup_lt_is_Some_2 (imgs ++ k)
              (length (heap s0) + py_pos (length (seq (length (heap s0)) (length imgs))) idx
               - length (heap s0))) as [img ->]; [|done].
  rewrite length_app, ?length_seq. lia.
Qed.

(** For a table that is not a single labelled row, [__getitem__] at an
    in-range index whose image loads continues with the label of that
    row. *)
Lemma getitem_in_range lp ip tr ttr lr s0 ds s1 frame n idx st l st1 :
  init lp ip tr ttr lr s0 = (Ok ds, s1) →
  read_csv lp = Ok frame →
  frame_rows frame n →
  ("label" ∈ columns frame → n ≠ 1%nat) →
  in_range n idx →
  load ds idx st = (Ok l, st1) →
  ∃ lab, row_label (pyobj:=pyobj) frame (py_pos n idx) = Some lab
         ∧ getitem ds idx st = apply_transforms ds l lab st1.
Proof.
  intros (frame' & nms & C)%init_Ok Hcsv Hrows Hne Hr Hload.
  assert (frame' = frame) as -> by (destruct C; congruence).
  destruct C as [_ Himg Hn _ _ _ _ Hlab Hunlab _].
  pose proof (column_length _ _ _ _ Hrows Himg) as Hlen.
  unfold row_label. destruct (column frame "label") as [col|e] eqn:Hcol.
  - pose proof (column_length _ _ _ _ Hrows Hcol) as Hlenc.
    destruct (index_vector (encode_label <$> col) idx) as (x & Hx & Hix).
    { rewrite length_fmap, Hlenc. apply Hne, column_Ok_iff. by eauto. }
    { by rewrite length_fmap, Hlenc. }
    rewrite length_fmap, list_lookup_fmap, Hlenc in Hx.
    destruct (col !! py_pos n idx) as [label|]; [|done]. injection Hx as <-.
    eexists. split; [done|]. apply getitem_steps; [done|].
    rewrite (Hlab col eq_refl). simpl. by rewrite Hix.
  - rewrite Himg. subst nms.
    destruct (py_index_in_range (names ds) idx) as (name & Hname & Hix);
      [by rewrite Hlen|].
    rewrite Hlen in Hname. rewrite Hname. eexists. split; [done|].
    apply getitem_steps; [done|]. rewrite Hunlab.
    + simpl. by rewrite Hix.
    + intros [cells Hc]%column_Ok_iff. congruence.
Qed.

(** A table of a single labelled row cannot be indexed at all: after
    [squeeze] its label tensor has no dimension left. *)
Lemma single_labelled_row_unindexable lp ip tr ttr lr s0 ds s1 frame label idx st :
  init lp ip tr ttr lr s0 = (Ok ds, s1) →
  read_csv lp = Ok frame →
  column frame "label" = Ok [label] →
  labels_index (pyobj:=pyobj) (labels ds) idx = Raise IndexError
  ∧ __len__ ds = Raise IndexError
  ∧ ∀ r st', getitem ds idx st = (r, st') → is_ok r = false.
Proof.
  intros (frame' & nms & C)%init_Ok Hcsv Hcol.
  assert (frame' = frame) as -> by (destruct C; congruence).
  destruct C as [_ _ _ _ _ _ _ Hlab _ _].
  assert (Hix : labels_index (pyobj:=pyobj) (labels ds) idx = Raise IndexError)
    by (by rewrite (Hlab _ Hcol)).
  split; [done|]. split; [unfold __len__; by rewrite (Hlab _ Hcol)|].
  intros r st'. unfold __getitem__. st_unfold.
  destruct (load ds idx st) as [[l|e] st1]; [|by intros [= <- _]].
  rewrite Hix. by intros [= <- _].
Qed.

(** **** Claim C10 *)

(** C10. When the table has no 'label' column, the labels field is the
    list of image file names; [__len__] raises AttributeError for the
    missing [shape] on every call; and the label component of whatever
    [__getitem__] returns is the file name of the indexed row (handed
    to the target transform when one is set), which [__getitem__] does
    return whenever the image loads and no transform is set. *)
Theorem unlabelled_dataset lp ip tr ttr lr s ds s' frame :
  read_csv lp = Ok frame →
  "label" ∉ columns frame →
  init lp ip tr ttr lr s = (Ok ds, s') →
  column frame "image" = Ok (names ds)
  ∧ labels ds = LList (names ds)
  ∧ __len__ ds = Raise (AttributeError "shape")
  ∧ (∀ idx st image label st',
       getitem ds idx st = (Ok (image, label), st') →
       ∃ name, names ds !! py_pos (length (names ds)) idx = Some name
               ∧ match target_transform ds with
                 | None => label = VStr name
                 | Some g => ∃ a, (g (VStr name) a).1 = Ok label
                 end)
  ∧ (∀ idx st l st',
       load ds idx st = (Ok l, st') →
       transform ds = None → target_transform ds = None →
       ∃ name, names ds !! py_pos (length (names ds)) idx = Some name
               ∧ getitem ds idx st = (Ok (VImage l, VStr name), st')).
Proof.
  intros Hcsv Hno Hinit. pose proof Hinit as (frame' & nms & C)%init_Ok.
  assert (frame' = frame) as -> by (destruct C; congruence).
  assert (Hlabels : labels ds = LList (names ds)).
  { destruct C as [_ _ Hn _ _ _ _ _ Hunlab _]. rewrite Hn. by apply Hunlab. }
  split; [destruct C; congruence|]. split; [done|].
  split; [unfold __len__; by rewrite Hlabels|].
  assert (Hload_range : ∀ idx st l st',
    load ds idx st = (Ok l, st') → in_range (length (names ds)) idx).
  { intros idx st l st' Hload. by eapply load_image_Ok_in_range. }
  split.
  - intros idx st image label st' Hg.
    destruct (load ds idx st) as [[l|e] st1] eqn:Hload.
    2:{ unfold __getitem__ in Hg. st_unfold. by rewrite Hload in Hg. }
    pose proof (Hload_range _ _ _ _ Hload) as Hr.
    destruct (py_index_in_range (names ds) idx Hr) as (name & Hname & Hix).
    exists name. split; [done|].
    erewrite getitem_steps in Hg; [|done|by rewrite Hlabels; simpl; rewrite Hix].
    unfold apply_transforms in Hg. st_unfold.
    destruct (transform ds) as [f|]; destruct (target_transform ds) as [g|];
      unfold call_transform, call_target_transform in Hg; simpl in Hg;
      repeat match type of Hg with
             | context [match ?x with _ => _ end] => destruct x eqn:?
             end; simplify_eq; try done;
      match goal with
      | H : context [g (VStr name) ?a] |- _ =>
          exists a; destruct (g (VStr name) a) as [? ?]; simpl in *; congruence
      end.
  - intros idx st l st' Hload Htr Httr.
    destruct (py_index_in_range (names ds) idx) as (name & Hname & Hix);
      [by eapply Hload_range|].
    exists name. split; [done|].
    erewrite getitem_steps; [|done|by rewrite Hlabels; simpl; rewrite Hix].
    unfold apply_transforms. by rewrite Htr, Httr.
Qed.
End Dataset.

(** ** The example script *)

Section Script.
Import Torch Health.
Context {pyobj ambient : Type}.
Variable decode : string → result ndarray.
Variable clahe_apply : ndarray → result (list (list Z)).
Variable print_size : value pyobj → St (state ambient) unit.
Variable fromarray_rgb : value pyobj → St (state ambient) (value pyobj).
Variable convert_L : value pyobj → St (state ambient) (value pyobj).
Variable save : value pyobj → string → St (state ambient) unit.

Local Abbreviation body :=
  (loop_body decode clahe_apply print_size fromarray_rgb convert_L save).
Local Abbreviation iteration :=
  (loop_iteration decode clahe_apply print_size fromarray_rgb convert_L save).

Lemma loop_iteration_swallows (ds : dataset pyobj ambient) i s :
  iteration ds i s = (Ok tt, (body ds i s).2).
Proof.
  unfold loop_iteration, try_except.
  by destruct (body ds i s) as [[[]|e] s'].
Qed.

Lemma for_each_iterations (ds : dataset pyobj ambient) (ixs : list nat) s :
  for_each (iteration ds) ixs s
  = (Ok tt, foldl (λ s i, (body ds i s).2) s ixs).
Proof.
  revert s. induction ixs as [|i ixs IH]; intros s; simpl; [done|].
  st_unfold. by rewrite loop_iteration_swallows, IH.
Qed.

(** C6. Whatever happens inside the [try] block (loading, converting,
    printing or saving may raise any exception), each iteration ends
    normally, adding nothing to what the block itself did, and the loop
    runs the block for every index 0..149 in order and ends normally. *)
Theorem main_loop_visits_every_index (ds : dataset pyobj ambient) s :
  (∀ i s, iteration ds i s = (Ok tt, (body ds i s).2))
  ∧ main_loop decode clahe_apply print_size fromarray_rgb convert_L save ds s
    = (Ok tt, foldl (λ s i, (body ds i s).2) s (seq 0 150)).
Proof.
  split; [apply loop_iteration_swallows|].
  unfold main_loop. apply for_each_iterations.
Qed.

(** Without the handler, the first failing index would end the loop. *)
Lemma for_each_stops_at_failure (ds : dataset pyobj ambient) i ixs s e s' :
  body ds i s = (Raise e, s') →
  for_each (body ds) (i :: ixs) s = (Raise e, s').
Proof. intros H. simpl. st_unfold. by rewrite H. Qed.
End Script.


(** ** Reading the configuration *)

Section ConfigFacts.
Import Config.
Variable alias : bool.
Variable open_file : string → result string.
Variable yaml_load : string → result yaml.

Lemma is_master_node_unbound : module_globals !! "is_master_node" = None.
Proof. by vm_compute. Qed.

Lemma logger_unbound : module_globals !! "logger" = None.
Proof. by vm_compute. Qed.

(** C3, on the code as it is. When the text of the file does not parse,
    the handler reads the name [is_master_node], which the module never
    binds: [load_config] raises NameError for it, nothing has been logged,
    and the function does not return. *)
Theorem load_config_parse_error file text msg log :
  open_file file = Ok text →
  yaml_load text = Raise (YAMLError msg) →
  load_config module_globals alias open_file yaml_load file log
  = (Raise (NameError "is_master_node"), log).
Proof.
  intros Hopen Hload. unfold load_config, try_except, handler, load_name.
  st_unfold. by rewrite Hopen, Hload, is_master_node_unbound.
Qed.

(** Whatever the module namespace binds, a parse error is never re-raised
    and the function never returns a configuration. *)
Lemma load_config_parse_error_never_returns globals file text msg log r log' :
  open_file file = Ok text →
  yaml_load text = Raise (YAMLError msg) →
  load_config globals alias open_file yaml_load file log = (r, log') →
  ∃ e, r = Raise e ∧ ∀ m, e ≠ YAMLError m.
Proof.
  intros Hopen Hload. unfold load_config, try_except, handler, load_name, warning.
  st_unfold. rewrite Hopen, Hload.
  destruct (globals !! "is_master_node") as [v|]; simpl.
  2:{ intros [= <- _]. by eexists. }
  destruct (truthy v); simpl.
  2:{ intros [= <- _]. by eexists. }
  destruct (globals !! "logger") as [[]|]; simpl; intros [= <- _]; by eexists.
Qed.

(** With both names bound as the handler expects, the two warnings are
    logged; the function then fails at [return obj_cfg]. *)
Lemma load_config_parse_error_logged globals file text msg log :
  open_file file = Ok text →
  yaml_load text = Raise (YAMLError msg) →
  globals !! "is_master_node" = Some (PBool true) →
  globals !! "logger" = Some PLogger →
  load_config globals alias open_file yaml_load file log
  = (Raise (UnboundLocalError "obj_cfg"),
     log ++ ["Error while loading config file: " +:+ file]
         ++ ["Error message: " +:+ msg]).
Proof.
  intros Hopen Hload Hm Hl.
  unfold load_config, try_except, handler, load_name, warning.
  st_unfold. rewrite Hopen, Hload, Hm. simpl. rewrite Hl. simpl.
  by rewrite <- app_assoc.
Qed.

(** A text that parses, flattens and converts gives that namespace, with
    nothing logged. *)
Lemma load_config_parsed globals file text cfg flat ns log :
  open_file file = Ok text →
  yaml_load text = Ok cfg →
  flatten_yaml_as_dict alias cfg (KStr "") "." = Ok flat →
  NestedNamespace flat = Ok ns →
  load_config globals alias open_file yaml_load file log = (Ok ns, log).
Proof.
  intros Hopen Hload Hflat Hns. unfold load_config, try_except. st_unfold.
  by rewrite Hopen, Hload, Hflat, Hns.
Qed.
End ConfigFacts.


(** ** The model wrappers *)

Section ModuleTrees.
Import Config NN.

Lemma lookup_dict_set_eq cs k v : lookup_child (dict_set cs k v) k = Ok v.
Proof.
  induction cs as [|[k' v'] cs IH]; cbn [lookup_child dict_set];
    repeat (case_decide; cbn [lookup_child]); congruence.
Qed.

Lemma lookup_dict_set_ne cs k v k' :
  k' ≠ k → lookup_child (dict_set cs k v) k' = lookup_child cs k'.
Proof.
  intros Hne. induction cs as [|[k0 v0] cs IH]; cbn [lookup_child dict_set];
    repeat (case_decide; cbn [lookup_child]); congruence.
Qed.

(** Setting an existing key keeps the order of the keys; a new key goes to
    the end. *)
Lemma dict_set_keys {K} `{EqDecision K} {V} (cs : list (K * V)) k v :
  (dict_set cs k v).*1 = if decide (k ∈ cs.*1) then cs.*1 else cs.*1 ++ [k].
Proof.
  induction cs as [|[k' v'] cs IH]; cbn [dict_set fmap list_fmap fst].
  - rewrite decide_False; [done | apply not_elem_of_nil].
  - destruct (decide (k' = k)) as [->|Hne]; cbn [fmap list_fmap fst].
    + rewrite decide_True; [done | by left].
    + rewrite IH. destruct (decide (k ∈ cs.*1)) as [Hin|Hin].
      * rewrite decide_True; [done | by right].
      * rewrite decide_False; [done|].
        intros [?|?]%elem_of_cons; [congruence | done].
Qed.

Lemma dict_set_last {V} (head : list (string * V)) k x v :
  k ∉ head.*1 → dict_set (head ++ [(k, x)]) k v = head ++ [(k, v)].
Proof.
  induction head as [|[k' v'] head IH]; cbn [dict_set app]; intros Hk.
  - by rewrite decide_True.
  - rewrite decide_False.
    2:{ intros ->. apply Hk. by left. }
    rewrite IH; [done|]. intros ?. apply Hk. by right.
Qed.

Lemma py_index_last {A} (l : list A) (x : A) : py_index (l ++ [x]) (-1) = Ok x.
Proof.
  unfold py_index. rewrite length_app. simpl.
  replace (-1 <? 0) with true by done.
  set (i := -1 + Z.of_nat (length l + 1)).
  assert (Hi : i = Z.of_nat (length l)) by lia. rewrite Hi.
  replace ((0 <=? Z.of_nat (length l))
           && (Z.of_nat (length l) <? Z.of_nat (length l + 1))) with true.
  2:{ symmetry. apply andb_true_iff.
      split; [apply Z.leb_le | apply Z.ltb_lt]; lia. }
  rewrite Nat2Z.id, lookup_app_r, Nat.sub_diag by done. done.
Qed.

Lemma getattr_setattr_eq m name c : getattr (setattr m name c) name = Ok c.
Proof. destruct m. apply lookup_dict_set_eq. Qed.

Lemma getattr_setattr_ne m name c name' :
  name' ≠ name → getattr (setattr m name c) name' = getattr m name'.
Proof. destruct m. apply lookup_dict_set_ne. Qed.

Lemma module_kind_setattr m name c :
  module_kind (setattr m name c) = module_kind m.
Proof. by destruct m. Qed.

(** Freezing or unfreezing parameters does not touch the structure. *)
Lemma structure_set_requires_grad (b : bool) (m : module) :
  structure (set_requires_grad b m) = structure m.
Proof.
  revert m. fix IHm 1. intros [k g cs]. simpl. f_equal.
  induction cs as [|[n c] cs IH]; simpl; [done|].
  by rewrite IHm, IH.
Qed.

Lemma getattr_set_requires_grad b m name :
  getattr (set_requires_grad b m) name = set_requires_grad b <$> getattr m name.
Proof.
  destruct m as [k g cs]. unfold getattr. simpl.
  induction cs as [|[n c] cs IH]; simpl; [done|].
  destruct (decide (n = name)); [done | apply IH].
Qed.

Lemma module_kind_set_requires_grad b m :
  module_kind (set_requires_grad b m) = module_kind m.
Proof. by destruct m. Qed.

Lemma structure_getattr_set_requires_grad b m name :
  structure <$> getattr (set_requires_grad b m) name
  = structure <$> getattr m name.
Proof.
  rewrite getattr_set_requires_grad. destruct (getattr m name); simpl; [|done].
  by rewrite structure_set_requires_grad.
Qed.
End ModuleTrees.

Section HeadSwap.
Import Config NN.
Context {num : Type}.

(** The classification head the EfficientNet wrapper installs. *)
Lemma classifier_head_stack out :
  EFFILitModule.classifier_head out
  = Module Sequential []
      [("0", Module (Linear 1024 32) [true; true] []);
       ("Act SiLU", Module SiLU [] []);
       ("Dropout", Module (Dropout (1 # 2)) [] []);
       ("Output", Module (Linear 32 out) [true; true] [])].
Proof. reflexivity. Qed.

Lemma unfreeze_structure m name m' name' :
  EFFILitModule.unfreeze m name = Ok m' →
  module_kind m' = module_kind m
  ∧ structure <$> getattr m' name' = structure <$> getattr m name'.
Proof.
  unfold EFFILitModule.unfreeze. st_unfold.
  destruct (getattr m name) as [sub|e] eqn:Hsub; [|discriminate].
  intros [= <-]. split; [apply module_kind_setattr|].
  destruct (decide (name' = name)) as [->|Hne].
  - rewrite getattr_setattr_eq, Hsub. simpl.
    by rewrite structure_set_requires_grad.
  - by rewrite getattr_setattr_ne.
Qed.

Lemma effi_init_head (create_model : module) (hp : EFFILitModule.hparams num) self :
  EFFILitModule.__init__ create_model hp = Ok self →
  getattr (EFFILitModule.model self) "classifier"
  = Ok (EFFILitModule.classifier_head (EFFILitModule.output_size hp))
  ∧ module_kind (EFFILitModule.model self) = module_kind create_model
  ∧ (∀ name, name ≠ "classifier" →
       structure <$> getattr (EFFILitModule.model self) name
       = structure <$> getattr create_model name)
  ∧ (EFFILitModule.freeze_layers hp = false →
       ∀ name, name ≠ "classifier" →
         getattr (EFFILitModule.model self) name = getattr create_model name).
Proof.
  unfold EFFILitModule.__init__. st_unfold.
  destruct (EFFILitModule.freeze_layers hp) eqn:Hfreeze.
  - destruct (EFFILitModule.unfreeze _ "layer_5") as [m1|e] eqn:H1; [|discriminate].
    destruct (EFFILitModule.unfreeze m1 "conv_1x1_exp") as [m2|e] eqn:H2;
      [|discriminate].
    intros [= <-]. simpl.
    split; [apply getattr_setattr_eq|]. split; [|split; [|done]].
    + rewrite module_kind_setattr.
      destruct (unfreeze_structure _ _ _ "" H2) as [-> _].
      destruct (unfreeze_structure _ _ _ "" H1) as [-> _].
      apply module_kind_set_requires_grad.
    + intros name Hne. rewrite getattr_setattr_ne by done.
      destruct (unfreeze_structure _ _ _ name H2) as [_ ->].
      destruct (unfreeze_structure _ _ _ name H1) as [_ ->].
      apply structure_getattr_set_requires_grad.
  - intros [= <-]. simpl.
    split; [apply getattr_setattr_eq|]. split; [apply module_kind_setattr|].
    split; intros; by rewrite getattr_setattr_ne.
Qed.

Lemma effi_init_total (create_model : module) (hp : EFFILitModule.hparams num) :
  EFFILitModule.freeze_layers hp = false →
  EFFILitModule.__init__ create_model hp
  = Ok {| EFFILitModule.hp := hp;
          EFFILitModule.model :=
            setattr create_model "classifier"
              (EFFILitModule.classifier_head (EFFILitModule.output_size hp)) |}.
Proof. unfold EFFILitModule.__init__. st_unfold. by intros ->. Qed.

Lemma mvit_replace_last net g head last_name last out :
  getattr net "classifier"
  = Ok (Module Sequential g (head ++ [(last_name, last)])) →
  last_name ∉ head.*1 →
  ∃ net',
    MVITLitModule.replace_last net out = Ok net'
    ∧ getattr net' "classifier"
      = Ok (Module Sequential g (head ++ [(last_name, nn_Linear 640 out)]))
    ∧ module_kind net' = module_kind net
    ∧ (children net').*1 = (children net).*1
    ∧ ∀ name, name ≠ "classifier" → getattr net' name = getattr net name.
Proof.
  intros Hcls Hfresh. unfold MVITLitModule.replace_last, setitem. st_unfold.
  rewrite Hcls, fmap_app. simpl. rewrite py_index_last.
  rewrite dict_set_last by done.
  eexists. split; [done|]. split; [apply getattr_setattr_eq|].
  split; [apply module_kind_setattr|]. split.
  - destruct net as [k g' cs]. simpl. rewrite dict_set_keys.
    rewrite decide_True; [done|]. unfold getattr in Hcls. simpl in Hcls.
    clear -Hcls. induction cs as [|[n c] cs IH]; simpl in *; [discriminate|].
    destruct (decide (n = "classifier")) as [->|]; [by left | right; by apply IH].
  - intros name Hne. by apply getattr_setattr_ne.
Qed.

Lemma py_index_last_inv {A} (l : list A) (x : A) :
  py_index l (-1) = Ok x → ∃ l', l = l' ++ [x].
Proof.
  intros [Hr Hx]%py_index_Ok. destruct l as [|a l] using rev_ind.
  - unfold in_range in Hr. simpl in Hr. lia.
  - exists l. unfold py_pos in Hx. rewrite length_app in Hx. simpl in Hx.
    replace (Z.to_nat (-1 + Z.of_nat (length l + 1))) with (length l) in Hx
      by lia.
    rewrite lookup_app_r, Nat.sub_diag in Hx by done. by injection Hx as ->.
Qed.

Lemma getattr_Ok_key m name c :
  getattr m name = Ok c → name ∈ (children m).*1.
Proof.
  destruct m as [k g cs]. unfold getattr. simpl.
  induction cs as [|[n c'] cs IH]; simpl; [discriminate|].
  destruct (decide (n = name)) as [->|]; [by left | right; by apply IH].
Qed.

(** What a successful [self.model.classifier[-1] = ...] has done. *)
Lemma mvit_replace_last_inv net out net' :
  MVITLitModule.replace_last net out = Ok net' →
  ∃ g head last_name last,
    getattr net "classifier"
    = Ok (Module Sequential g (head ++ [(last_name, last)]))
    ∧ module_kind net' = module_kind net
    ∧ (children net').*1 = (children net).*1
    ∧ (∀ name, name ≠ "classifier" → getattr net' name = getattr net name)
    ∧ (last_name ∉ head.*1 →
       getattr net' "classifier"
       = Ok (Module Sequential g (head ++ [(last_name, nn_Linear 640 out)]))).
Proof.
  unfold MVITLitModule.replace_last. st_unfold.
  destruct (getattr net "classifier") as [[k g cs]|e] eqn:Hcls; [|discriminate].
  unfold setitem. destruct k; try discriminate. st_unfold.
  destruct (py_index cs.*1 (-1)) as [key|e] eqn:Hkey; [|discriminate].
  intros [= <-]. apply py_index_last_inv in Hkey as [keys Hkeys].
  assert (cs = [] ∨ ∃ head last_name last, cs = head ++ [(last_name, last)])
    as [->|(head & last_name & last & ->)].
  { destruct cs as [|[n c] cs' _] using rev_ind; [by left | right; eauto]. }
  { by destruct keys. }
  rewrite fmap_app in Hkeys. simpl in Hkeys.
  apply app_inj_tail in Hkeys as [_ <-].
  exists g, head, last_name, last. split; [done|].
  split; [apply module_kind_setattr|]. split; [|split].
  - destruct net as [k g' cs']. simpl. rewrite dict_set_keys.
    rewrite decide_True; [done|]. by apply (getattr_Ok_key _ _ _ Hcls).
  - intros name Hne. by apply getattr_setattr_ne.
  - intros Hfresh. rewrite getattr_setattr_eq. by rewrite dict_set_last.
Qed.

(** C8. The EfficientNet wrapper sets the classifier of the pretrained
    network to Linear(1024,32), SiLU, Dropout(0.5), Linear(32,output_size);
    the MobileViT wrapper builds the network from the loaded
    configuration and replaces the last layer of its classifier by
    Linear(640,output_size), keeping the layers before it. In both, the
    constructed wrapper holds a network in which every other submodule of
    the pretrained network keeps its structure (and, unless layers are
    frozen, is the same submodule). *)
Theorem head_swap :
  (∀ (create_model : module) (hp : EFFILitModule.hparams num) self,
     EFFILitModule.__init__ create_model hp = Ok self →
     getattr (EFFILitModule.model self) "classifier"
     = Ok (Module Sequential []
             [("0", Module (Linear 1024 32) [true; true] []);
              ("Act SiLU", Module SiLU [] []);
              ("Dropout", Module (Dropout (1 # 2)) [] []);
              ("Output",
               Module (Linear 32 (EFFILitModule.output_size hp)) [true; true] [])])
     ∧ module_kind (EFFILitModule.model self) = module_kind create_model
     ∧ (∀ name, name ≠ "classifier" →
          structure <$> getattr (EFFILitModule.model self) name
          = structure <$> getattr create_model name)
     ∧ (EFFILitModule.freeze_layers hp = false →
          ∀ name, name ≠ "classifier" →
            getattr (EFFILitModule.model self) name = getattr create_model name))
  ∧ (∀ globals alias open_file yaml_load build
       (hp : MVITLitModule.hparams num) log self log',
       MVITLitModule.__init__ globals alias open_file yaml_load build hp log
       = (Ok self, log') →
       ∃ cfg net g head last_name last,
         load_config globals alias open_file yaml_load default_config_file log
         = (Ok cfg, log')
         ∧ build cfg = Ok net
         ∧ getattr net "classifier"
           = Ok (Module Sequential g (head ++ [(last_name, last)]))
         ∧ MVITLitModule.hp self = hp
         ∧ module_kind (MVITLitModule.model self) = module_kind net
         ∧ (children (MVITLitModule.model self)).*1 = (children net).*1
         ∧ (∀ name, name ≠ "classifier" →
              getattr (MVITLitModule.model self) name = getattr net name)
         ∧ (last_name ∉ head.*1 →
            getattr (MVITLitModule.model self) "classifier"
            = Ok (Module Sequential g
                    (head ++ [(last_name,
                               Module (Linear 640 (MVITLitModule.output_size hp))
                                 [true; true] [])])))).
Proof.
  split.
  - intros create_model hp self Hinit.
    rewrite <- classifier_head_stack. by apply effi_init_head.
  - intros globals alias open_file yaml_load build hp log self log'.
    unfold MVITLitModule.__init__. st_unfold.
    destruct (load_config _ _ _ _ _ log) as [[cfg|e] log1] eqn:Hcfg;
      [|discriminate].
    destruct (build cfg) as [net|e] eqn:Hbuild; [|discriminate].
    destruct (MVITLitModule.replace_last net _) as [net'|e] eqn:Hrep;
      [|discriminate].
    intros [= <- <-].
    destruct (mvit_replace_last_inv _ _ _ Hrep)
      as (g & head & last_name & last & Hcls & Hkind & Hnames & Hsame & Hlast).
    exists cfg, net, g, head, last_name, last. by repeat split.
Qed.

(** [MVITLitModule.__init__] installs exactly that network. *)
Lemma mvit_init_model globals alias open_file yaml_load build
    (hp : MVITLitModule.hparams num) log cfg net net' :
  load_config globals alias open_file yaml_load default_config_file log
  = (Ok cfg, log) →
  build cfg = Ok net →
  MVITLitModule.replace_last net (MVITLitModule.output_size hp) = Ok net' →
  MVITLitModule.__init__ globals alias open_file yaml_load build hp log
  = (Ok {| MVITLitModule.hp := hp; MVITLitModule.model := net' |}, log).
Proof.
  intros Hcfg Hbuild Hrep. unfold MVITLitModule.__init__. st_unfold.
  by rewrite Hcfg, Hbuild, Hrep.
Qed.
End HeadSwap.

(** ** The learning-rate schedule *)

Section Schedule.
Import NN Lightning.
Context {T num : Type}.
Variable forward_model : module → T → T.
Variable squeeze : T → T.
Variable BCEWithLogitsLoss : option Z → T → T → T.
Variable positive_long : T → T.
Variable long : T → T.
Variable metric_value : string → T → T → T.

Local Abbreviation effi_step :=
  (EFFILitModule.step (num:=num) forward_model squeeze BCEWithLogitsLoss positive_long).
Local Abbreviation effi_training_step :=
  (EFFILitModule.training_step (num:=num) forward_model squeeze
     BCEWithLogitsLoss positive_long long metric_value).
Local Abbreviation effi_validation_step :=
  (EFFILitModule.validation_step (num:=num) forward_model squeeze
     BCEWithLogitsLoss positive_long long metric_value).
Local Abbreviation effi_run :=
  (EFFILitModule.run (num:=num) forward_model squeeze BCEWithLogitsLoss
     positive_long long metric_value).
Local Abbreviation mvit_step :=
  (MVITLitModule.step (num:=num) forward_model squeeze BCEWithLogitsLoss positive_long).
Local Abbreviation mvit_training_step :=
  (MVITLitModule.training_step (num:=num) forward_model squeeze
     BCEWithLogitsLoss positive_long long metric_value).
Local Abbreviation mvit_validation_step :=
  (MVITLitModule.validation_step (num:=num) forward_model squeeze
     BCEWithLogitsLoss positive_long long metric_value).
Local Abbreviation mvit_run :=
  (MVITLitModule.run (num:=num) forward_model squeeze BCEWithLogitsLoss
     positive_long long metric_value).

Lemma scheduler_steps_app (es1 es2 : list (event T)) :
  scheduler_steps (es1 ++ es2) = scheduler_steps es1 ++ scheduler_steps es2.
Proof. apply omap_app. Qed.

Lemma effi_training_step_no_scheduler self batch i :
  scheduler_steps (effi_training_step self batch i).2 = [].
Proof.
  unfold EFFILitModule.training_step.
  by destruct (effi_step self batch) as [[l p] t].
Qed.

Lemma effi_validation_step_scheduler self batch i :
  scheduler_steps (effi_validation_step self batch i).2
  = [(effi_step self batch).1.1]
  ∧ loss (effi_validation_step self batch i).1 = (effi_step self batch).1.1.
Proof.
  unfold EFFILitModule.validation_step.
  by destruct (effi_step self batch) as [[l p] t].
Qed.

Lemma mvit_training_step_no_scheduler self batch i :
  scheduler_steps (mvit_training_step self batch i).2 = [].
Proof.
  unfold MVITLitModule.training_step.
  by destruct (mvit_step self batch) as [[l p] t].
Qed.

Lemma mvit_validation_step_scheduler self batch i :
  scheduler_steps (mvit_validation_step self batch i).2
  = [(mvit_step self batch).1.1]
  ∧ loss (mvit_validation_step self batch i).1 = (mvit_step self batch).1.1.
Proof.
  unfold MVITLitModule.validation_step.
  by destruct (mvit_step self batch) as [[l p] t].
Qed.

Lemma effi_run_scheduler self cs :
  scheduler_steps (effi_run self cs)
  = validation_losses (λ batch, (effi_step self batch).1.1) cs.
Proof.
  unfold EFFILitModule.run, validation_losses.
  induction cs as [|c cs IH]; [done|].
  cbn [mbind list_bind omap list_omap]. rewrite scheduler_steps_app, IH.
  destruct c as [batch i|batch i]; cbn [EFFILitModule.run_call].
  - by rewrite effi_training_step_no_scheduler.
  - by rewrite (proj1 (effi_validation_step_scheduler _ _ _)).
Qed.

Lemma mvit_run_scheduler self cs :
  scheduler_steps (mvit_run self cs)
  = validation_losses (λ batch, (mvit_step self batch).1.1) cs.
Proof.
  unfold MVITLitModule.run, validation_losses.
  induction cs as [|c cs IH]; [done|].
  cbn [mbind list_bind omap list_omap]. rewrite scheduler_steps_app, IH.
  destruct c as [batch i|batch i]; cbn [MVITLitModule.run_call].
  - by rewrite mvit_training_step_no_scheduler.
  - by rewrite (proj1 (mvit_validation_step_scheduler _ _ _)).
Qed.

(** C4. In both wrappers [configure_optimizers] returns a
    ReduceLROnPlateau scheduler in mode "min" monitoring "val/loss"; over
    any sequence of training and validation steps the scheduler is stepped
    exactly with the losses that [validation_step] computes, once per
    validation batch and in order, and a training step never steps it. *)
Theorem schedule_driven_by_validation_loss :
  (∀ self : EFFILitModule.self_t num,
     let conf := conf_lr_scheduler (EFFILitModule.configure_optimizers self) in
     mode (scheduler conf) = "min" ∧ monitor conf = "val/loss")
  ∧ (∀ self : MVITLitModule.self_t num,
       let conf := conf_lr_scheduler (MVITLitModule.configure_optimizers self) in
       mode (scheduler conf) = "min" ∧ monitor conf = "val/loss")
  ∧ (∀ self batch i,
       scheduler_steps (effi_training_step self batch i).2 = []
       ∧ scheduler_steps (effi_validation_step self batch i).2
         = [loss (effi_validation_step self batch i).1])
  ∧ (∀ self batch i,
       scheduler_steps (mvit_training_step self batch i).2 = []
       ∧ scheduler_steps (mvit_validation_step self batch i).2
         = [loss (mvit_validation_step self batch i).1])
  ∧ (∀ self cs,
       scheduler_steps (effi_run self cs)
       = validation_losses (λ batch, (effi_step self batch).1.1) cs)
  ∧ (∀ self cs,
       scheduler_steps (mvit_run self cs)
       = validation_losses (λ batch, (mvit_step self batch).1.1) cs).
Proof.
  split; [done|]. split; [done|]. split; [|split; [|split]].
  - intros self batch i. split; [apply effi_training_step_no_scheduler|].
    destruct (effi_validation_step_scheduler self batch i) as [-> ->]. done.
  - intros self batch i. split; [apply mvit_training_step_no_scheduler|].
    destruct (mvit_validation_step_scheduler self batch i) as [-> ->]. done.
  - apply effi_run_scheduler.
  - apply mvit_run_scheduler.
Qed.
End Schedule.

(** ** The statements at concrete inputs *)

Section Concrete.
Import Torch Health.

Lemma labels_encode_rows_witness :
  ∃ ds s', Example.init "train.csv" true = (Ok ds, s')
    ∧ ∃ t, labels ds = LTensor t
           ∧ numel t = 2%nat
           ∧ length (data t) = 2%nat
           ∧ data t = encode_label <$> ["negative"; "positive"]
           ∧ ∀ i label, ["negative"; "positive"] !! i = Some label →
               data t !! i
               = Some (if decide (label = "negative") then 0 else 1).
Proof.
  eexists _, _. split; [vm_compute; reflexivity|].
  eapply (labels_encode_rows Example.read_csv Example.decode
            Example.clahe_apply "train.csv" "imgs/" None None true Example.s0).
  - reflexivity.
  - reflexivity.
  - unfold frame_rows. repeat constructor.
  - vm_compute. reflexivity.
Defined.

Lemma cache_aligned_and_stable_witness :
  ∃ ds s', Example.init "train.csv" true = (Ok ds, s')
    ∧ ∃ cache,
        images ds = Some cache
        ∧ length cache = length (names ds)
        ∧ (∀ frame n, Example.read_csv "train.csv" = Ok frame →
             frame_rows frame n → length cache = n)
        ∧ (∀ i name, names ds !! i = Some name →
             ∃ l img, cache !! i = Some l
               ∧ preproc_image Example.decode Example.clahe_apply
                   ("imgs/" +:+ name) = Ok img
               ∧ heap s' !! l = Some img)
        ∧ (∀ os i l, cache !! i = Some l →
             heap (run_ops Example.decode Example.clahe_apply ds os s') !! l
             = heap s' !! l).
Proof.
  eexists _, _. split; [vm_compute; reflexivity|].
  apply (cache_aligned_and_stable Example.read_csv Example.decode
           Example.clahe_apply "train.csv" "imgs/" None None Example.s0).
  vm_compute. reflexivity.
Defined.

Lemma image_errors_propagate_witness :
  (∃ name' e', name' ∈ ["a.png"; "missing.png"]
     ∧ preproc_image Example.decode Example.clahe_apply ("imgs/" +:+ name')
       = Raise e'
     ∧ Example.init "broken.csv" true = (Raise e', Example.s0))
  ∧ (∀ ds s0 s1 idx st,
       __init__ Example.read_csv Example.decode Example.clahe_apply
         "broken.csv" "imgs/" None None false s0 = (Ok ds, s1) →
       py_index (names ds) idx = Ok "missing.png" →
       load_image (pyobj:=unit) (ambient:=unit) Example.decode
         Example.clahe_apply ds idx st
       = (Raise (OSError "imgs/missing.png"), st)).
Proof.
  apply (image_errors_propagate (pyobj:=unit) (ambient:=unit)
           Example.read_csv Example.decode Example.clahe_apply
           "broken.csv" "imgs/" None None Example.s0
           [("image", ["a.png"; "missing.png"])] ["a.png"; "missing.png"]
           "missing.png" (OSError "imgs/missing.png")).
  - reflexivity.
  - reflexivity.
  - repeat constructor.
  - reflexivity.
Defined.

Lemma load_image_cache_equiv_witness :
  ∃ ds1 s1 ds2 s2,
    Example.init "train.csv" true = (Ok ds1, s1)
    ∧ Example.init "train.csv" false = (Ok ds2, s2)
    ∧ image_of (load_image Example.decode Example.clahe_apply ds1 (-1)
                  (run_ops Example.decode Example.clahe_apply ds1
                     [OpGetItem 0; OpLoadImage 1] s1))
      = image_of (load_image Example.decode Example.clahe_apply ds2 (-1) s2).
Proof.
  eexists _, _, _, _. split; [vm_compute; reflexivity|].
  split; [vm_compute; reflexivity|].
  eapply (load_image_cache_equiv Example.read_csv Example.decode
            Example.clahe_apply "train.csv" "imgs/" None None None None
            Example.s0 _ _ Example.s0).
  - vm_compute. reflexivity.
  - vm_compute. reflexivity.
Defined.

Lemma unlabelled_dataset_witness :
  ∃ ds s', Example.init "test.csv" true = (Ok ds, s')
    ∧ labels ds = LList ["a.png"; "b.png"]
    ∧ __len__ ds = Raise (AttributeError "shape")
    ∧ (Example.getitem ds 1 s').1 = Ok (VImage 2%nat, VStr "b.png").
Proof.
  eexists _, _. split; [vm_compute; reflexivity|].
  lazymatch goal with
  | |- context [Example.getitem ?ds 1 ?s'] =>
      destruct (unlabelled_dataset (pyobj:=unit) (ambient:=unit)
                  Example.read_csv Example.decode Example.clahe_apply
                  "test.csv" "imgs/" None None true Example.s0 ds s'
                  [("image", ["a.png"; "b.png"])])
        as (_ & Hlabels & Hlen & _ & _)
  end.
  - reflexivity.
  - simpl. intros [H|H%elem_of_nil]%elem_of_cons; [discriminate H | exact H].
  - vm_compute. reflexivity.
  - split; [exact Hlabels|]. split; [exact Hlen|]. vm_compute. reflexivity.
Defined.

(** C7, at a table of one labelled row. Construction succeeds, index 0 is
    the index of the only row, and [__getitem__] raises IndexError at
    [self.labels[idx]]: [squeeze] has turned the one-element label vector
    into a 0-dimensional tensor. [__len__] fails the same way, while the
    image itself is loaded. *)
Theorem getitem_single_labelled_row :
  ∃ ds s', Example.init "single.csv" true = (Ok ds, s')
    ∧ names ds = ["a.png"]
    ∧ in_range (length (names ds)) 0
    ∧ is_ok (load_image Example.decode Example.clahe_apply ds 0 s').1 = true
    ∧ labels ds = LTensor (scalar 1)
    ∧ (Example.getitem ds 0 s').1 = Raise IndexError
    ∧ __len__ ds = Raise IndexError.
Proof.
  eexists _, _. split; [vm_compute; reflexivity|].
  repeat split; try reflexivity; vm_compute; congruence.
Qed.

(** The same table without the label column is indexed without error. *)
Example getitem_single_unlabelled_row :
  ∀ ds s',
    __init__ (λ _, Ok [("image", ["a.png"])]) Example.decode
      Example.clahe_apply "any.csv" "imgs/" None None true Example.s0
    = (Ok ds, s') →
    (Example.getitem ds 0 s').1 = Ok (VImage 1%nat, VStr "a.png").
Proof. intros ds s' [= <- <-]. reflexivity. Qed.

Lemma load_config_parse_error_witness :
  Config.load_config Config.module_globals true Example.open_file
    Example.yaml_load Config.default_config_file []
  = (Raise (NameError "is_master_node"), []).
Proof.
  apply (load_config_parse_error true Example.open_file Example.yaml_load
           Config.default_config_file "model: ["
           "while parsing a flow sequence" []).
  - reflexivity.
  - reflexivity.
Defined.

Example load_config_example :
  Config.load_config Config.module_globals true Example.open_file
    Example.yaml_load "model_conf.yaml" []
  = (Ok (Config.NSpace [("model.name", Config.NValue (Config.YScalar "mobilevit"))]),
     []).
Proof. reflexivity. Qed.

Lemma head_swap_witness :
  (∃ self,
     EFFILitModule.__init__ (num:=Z) Example.efficientnet Example.effi_hparams
     = Ok self
     ∧ NN.getattr (EFFILitModule.model self) "classifier"
       = Ok (EFFILitModule.classifier_head 1)
     ∧ NN.getattr (EFFILitModule.model self) "conv_stem"
       = NN.getattr Example.efficientnet "conv_stem")
  ∧ (∃ self,
       MVITLitModule.__init__ Config.module_globals true Sample.open_config
         Example.yaml_load Sample.build_classification_model
         Sample.mvit_hparams []
       = (Ok self, [])
       ∧ NN.getattr (MVITLitModule.model self) "classifier"
         = Ok (NN.Module NN.Sequential []
                 [("global_pool", NN.Module (NN.Pretrained "GlobalPool") [] []);
                  ("dropout", NN.Module (NN.Dropout (1 # 10)) [] []);
                  ("fc", NN.Module (NN.Linear 640 1) [true; true] [])])
       ∧ NN.getattr (MVITLitModule.model self) "layer_5"
         = NN.getattr Example.mobilevit "layer_5").
Proof.
  destruct (head_swap (num:=Z)) as [Heffi Hmvit]. split.
  - eexists. split; [reflexivity|].
    edestruct (Heffi Example.efficientnet Example.effi_hparams)
      as (Hhead & _ & _ & Hsame); [reflexivity|].
    split; [exact Hhead|]. apply Hsame; [reflexivity | discriminate].
  - eexists. split; [vm_compute; reflexivity|].
    edestruct (Hmvit Config.module_globals true Sample.open_config
                 Example.yaml_load Sample.build_classification_model
                 Sample.mvit_hparams [])
      as (cfg & net & g & head & last_name & last & _ & Hbuild & Hcls & _ & _
          & _ & Hsame & Hlast); [vm_compute; reflexivity|].
    injection Hbuild as <-.
    injection Hcls as <- Hlayers.
    apply (app_inj_tail
             [("global_pool", NN.Module (NN.Pretrained "GlobalPool") [] []);
              ("dropout", NN.Module (NN.Dropout (1 # 10)) [] [])]) in Hlayers
      as [<- [= <- <-]].
    split.
    + apply Hlast. simpl.
      intros [H|[H|H%elem_of_nil]%elem_of_cons]%elem_of_cons;
        [discriminate H | discriminate H | exact H].
    + apply Hsame. discriminate.
Defined.
End Concrete.


(** * Further properties of the code *)

(** ** The dataset: images, indices, construction errors *)

Section DatasetMore.
Import Torch Health.
Context {pyobj ambient : Type}.
Variable read_csv : string → result dataframe.
Variable decode : string → result ndarray.
Variable clahe_apply : ndarray → result (list (list Z)).

Local Abbreviation state := (Health.state ambient).
Local Abbreviation dataset := (Health.dataset pyobj ambient).
Local Abbreviation init :=
  (__init__ (pyobj:=pyobj) (ambient:=ambient) read_csv decode clahe_apply).
Local Abbreviation preproc := (preproc_image decode clahe_apply).
Local Abbreviation load :=
  (load_image (pyobj:=pyobj) (ambient:=ambient) decode clahe_apply).
Local Abbreviation getitem :=
  (__getitem__ (pyobj:=pyobj) (ambient:=ambient) decode clahe_apply).

Implicit Types (s : state) (ds : dataset) (idx : Z).

Lemma stack3_gray_bytes (px : list (list Z)) :
  Forall (Forall (λ p : Z * Z * Z,
            p.1.1 = p.1.2 ∧ p.1.2 = p.2 ∧ 0 <= p.2 < 256)) (stack3 px).
Proof.
  unfold stack3. apply Forall_fmap, Forall_true. intros row.
  apply Forall_fmap, Forall_true. intros p. simpl. unfold uint8.
  repeat split; apply Z.mod_pos_bound; lia.
Qed.

(** X1. Whatever the file and whatever CLAHE returns, a preprocessed image
    has the height and the row widths of the CLAHE output, and each of
    its pixels has three equal channels holding a byte. *)
Theorem preproc_image_gray_bytes path img :
  preproc path = Ok img →
  ∃ arr px,
    decode path = Ok arr ∧ clahe_apply arr = Ok px
    ∧ length img = length px
    ∧ Forall2 (λ row prow, length row = length prow) img px
    ∧ Forall (Forall (λ p : Z * Z * Z,
                p.1.1 = p.1.2 ∧ p.1.2 = p.2 ∧ 0 <= p.2 < 256)) img.
Proof.
  unfold preproc_image. st_unfold.
  destruct (decode path) as [arr|e] eqn:Hdec; [|discriminate].
  destruct (clahe_apply arr) as [px|e] eqn:Hcl; [|discriminate].
  intros [= <-]. exists arr, px. split; [done|]. split; [done|].
  split; [unfold stack3; by rewrite length_map|].
  split; [|apply stack3_gray_bytes].
  unfold stack3. apply Forall2_fmap_l, Forall_Forall2_diag, Forall_true.
  intros row. cbv beta. apply length_map.
Qed.

(** X2. For every dataset that was constructed, with or without the
    cache, an index outside [-n, n) makes both [load_image] and
    [__getitem__] raise IndexError before anything is decoded, copied or
    transformed: the state is the one before the call. *)
Theorem out_of_range_index_error lp ip tr ttr lr s0 ds s1 idx st :
  init lp ip tr ttr lr s0 = (Ok ds, s1) →
  ¬ in_range (length (names ds)) idx →
  load ds idx st = (Raise IndexError, st)
  ∧ getitem ds idx st = (Raise IndexError, st).
Proof.
  intros Hinit Hr. split; [|by eapply getitem_out_of_range].
  pose proof (getitem_out_of_range read_csv decode clahe_apply
                _ _ _ _ _ _ _ _ idx st Hinit Hr) as Hg.
  destruct (load_image_effect decode clahe_apply ds idx st)
    as [[img Hl]|[e Hl]].
  - exfalso. eapply Hr, load_image_Ok_in_range; done.
  - rewrite Hl. unfold __getitem__ in Hg. st_unfold. rewrite Hl in Hg.
    congruence.
Qed.

Lemma py_index_negative {A} (l : list A) idx :
  - Z.of_nat (length l) <= idx < 0 →
  py_index l idx = py_index l (idx + Z.of_nat (length l)).
Proof.
  intros Hr. unfold py_index.
  replace (idx <? 0) with true by (symmetry; apply Z.ltb_lt; lia).
  by replace (idx + Z.of_nat (length l) <? 0) with false
    by (symmetry; apply Z.ltb_ge; lia).
Qed.

Lemma index_negative (t : tensor) n rest idx :
  shape t = n :: rest → - Z.of_nat n <= idx < 0 →
  index t idx = index t (idx + Z.of_nat n).
Proof.
  intros Hs Hr. unfold index. rewrite Hs.
  replace (idx <? 0) with true by (symmetry; apply Z.ltb_lt; lia).
  by replace (idx + Z.of_nat n <? 0) with false
    by (symmetry; apply Z.ltb_ge; lia).
Qed.

(** X3. Negative indices count from the end: on a dataset of [n] rows,
    [dataset[idx]] with [-n <= idx < 0] does exactly what
    [dataset[idx + n]] does, for the image and for the label, with or
    without the cache. *)
Theorem negative_index_wraps lp ip tr ttr lr s0 ds s1 frame n idx st :
  init lp ip tr ttr lr s0 = (Ok ds, s1) →
  read_csv lp = Ok frame →
  frame_rows frame n →
  - Z.of_nat n <= idx < 0 →
  load ds idx st = load ds (idx + Z.of_nat n) st
  ∧ getitem ds idx st = getitem ds (idx + Z.of_nat n) st.
Proof.
  intros (frame' & nms & C)%init_Ok Hcsv Hrows Hr.
  assert (frame' = frame) as -> by (destruct C; congruence).
  destruct C as [_ Himg Hn _ Hram _ _ Hlab Hunlab Himgs].
  pose proof (column_length _ _ _ _ Hrows Himg) as Hlen.
  assert (Hload : load ds idx st = load ds (idx + Z.of_nat n) st).
  { unfold load_image. rewrite Hram. destruct lr.
    - destruct Himgs as (imgs & Hmap & -> & _).
      apply map_result_Ok, Forall2_length in Hmap.
      rewrite length_fmap in Hmap.
      rewrite (py_index_negative (seq _ _)); rewrite length_seq, <- Hmap, Hlen;
        [done | lia].
    - rewrite Hn, py_index_negative; rewrite Hlen; [done | lia]. }
  split; [done|]. unfold __getitem__. st_unfold. rewrite Hload.
  assert (labels_index (pyobj:=pyobj) (labels ds) idx
          = labels_index (labels ds) (idx + Z.of_nat n)) as ->; [|done].
  destruct (column frame "label") as [col|e] eqn:Hcol.
  - rewrite (Hlab col eq_refl). simpl.
    pose proof (column_length _ _ _ _ Hrows Hcol) as Hlenc.
    destruct (shape (squeeze (FloatTensor (encode_label <$> col))))
      as [|m rest] eqn:Hs.
    + unfold index. by rewrite Hs.
    + rewrite squeeze_FloatTensor_shape, length_fmap, Hlenc in Hs.
      destruct (decide (n = 1%nat)); [discriminate|]. injection Hs as <- <-.
      erewrite index_negative; [done| |done].
      rewrite squeeze_FloatTensor_shape, length_fmap, Hlenc.
      by rewrite decide_False.
  - rewrite Hunlab.
    2:{ intros [cells Hc]%column_Ok_iff. congruence. }
    simpl. rewrite py_index_negative; rewrite Hlen; [done | lia].
Qed.

Lemma len_labelled lp ip tr ttr lr s0 ds s1 frame n :
  init lp ip tr ttr lr s0 = (Ok ds, s1) →
  read_csv lp = Ok frame →
  "label" ∈ columns frame →
  frame_rows frame n →
  n ≠ 1%nat →
  __len__ ds = Ok n.
Proof.
  intros (frame' & nms & C)%init_Ok Hcsv [col Hcol]%column_Ok_iff Hrows Hne.
  assert (frame' = frame) as -> by (destruct C; congruence).
  destruct C as [_ _ _ _ _ _ _ Hlab _ _].
  pose proof (column_length _ _ _ _ Hrows Hcol) as Hlen.
  unfold __len__. rewrite (Hlab col Hcol). unfold shape0.
  rewrite squeeze_FloatTensor_shape, length_fmap, Hlen.
  by rewrite decide_False.
Qed.

Lemma len_unlabelled lp ip tr ttr lr s0 ds s1 frame :
  init lp ip tr ttr lr s0 = (Ok ds, s1) →
  read_csv lp = Ok frame →
  "label" ∉ columns frame →
  __len__ ds = Raise (AttributeError "shape").
Proof.
  intros (frame' & nms & C)%init_Ok Hcsv Hno.
  assert (frame' = frame) as -> by (destruct C; congruence).
  destruct C as [_ _ _ _ _ _ _ _ Hunlab _].
  unfold __len__. by rewrite (Hunlab Hno).
Qed.

(** X4. For a labelled table with any number of rows other than one,
    [__len__] is the number of rows, and the label at every in-range
    index is a 0-dimensional tensor holding 0 or 1. *)
Theorem labelled_len_and_binary_labels lp ip tr ttr lr s0 ds s1 frame n :
  init lp ip tr ttr lr s0 = (Ok ds, s1) →
  read_csv lp = Ok frame →
  "label" ∈ columns frame →
  frame_rows frame n →
  n ≠ 1%nat →
  __len__ ds = Ok n
  ∧ ∀ idx, in_range n idx →
      ∃ b, (b = 0 ∨ b = 1)
           ∧ labels_index (pyobj:=pyobj) (labels ds) idx = Ok (VTensor (scalar b)).
Proof.
  intros Hinit. pose proof Hinit as (frame' & nms & C)%init_Ok.
  intros Hcsv [col Hcol]%column_Ok_iff Hrows Hne.
  assert (frame' = frame) as -> by (destruct C; congruence).
  destruct C as [_ _ _ _ _ _ _ Hlab _ _].
  pose proof (column_length _ _ _ _ Hrows Hcol) as Hlen.
  rewrite (Hlab col Hcol). split.
  - eapply len_labelled; [done | done | | done | done].
    apply column_Ok_iff. by eauto.
  - intros idx Hr.
    destruct (index_vector (encode_label <$> col) idx) as (x & Hx & Hix).
    { by rewrite length_fmap, Hlen. } { by rewrite length_fmap, Hlen. }
    exists x. split; [|simpl; by rewrite Hix].
    rewrite list_lookup_fmap in Hx.
    destruct (col !! _) as [label|]; [|done]. injection Hx as <-.
    unfold encode_label. destruct (decide _); auto.
Qed.

Lemma init_missing_image_column lp ip tr ttr lr s frame :
  read_csv lp = Ok frame →
  "image" ∉ columns frame →
  init lp ip tr ttr lr s = (Raise (KeyError "image"), s).
Proof.
  intros Hcsv Hno. unfold __init__. st_unfold. rewrite Hcsv.
  assert (Himg : column frame "image" = Raise (KeyError "image")).
  { clear -Hno. unfold columns in Hno.
    induction frame as [|[c cells] frame IH]; simpl; [done|].
    destruct (decide (c = "image")) as [->|Hne].
    - exfalso. apply Hno. by left.
    - apply IH. intros ?. apply Hno. by right. }
  rewrite Himg. case_bool_decide as Hlab; [|done].
  by destruct (proj1 (column_Ok_iff _ _) Hlab) as [col ->].
Qed.

(** X5. A table without an 'image' column cannot be loaded: construction
    raises KeyError for 'image', with or without a 'label' column and for
    either value of [load_ram], and has touched nothing; a table with the
    column is accepted by the lazy construction. *)
Theorem init_requires_image_column lp ip tr ttr lr s frame :
  read_csv lp = Ok frame →
  ("image" ∉ columns frame →
     init lp ip tr ttr lr s = (Raise (KeyError "image"), s))
  ∧ ("image" ∈ columns frame →
     is_ok (init lp ip tr ttr false s).1 = true).
Proof.
  intros Hcsv. split.
  - by apply init_missing_image_column.
  - intros [nms Himg]%column_Ok_iff.
    by destruct (init_lazy_total read_csv decode clahe_apply lp ip tr ttr s
                   frame nms Hcsv Himg) as [ds ->].
Qed.

(** X6. Construction with [load_ram=False] looks at no image file: it
    succeeds on any table with an 'image' column and leaves the state as
    it was, whether or not the files exist. A file is decoded only when
    its row is asked for, and each request decodes it again. *)
Theorem lazy_construction_defers_decoding lp ip tr ttr s frame nms :
  read_csv lp = Ok frame →
  column frame "image" = Ok nms →
  ∃ ds,
    init lp ip tr ttr false s = (Ok ds, s)
    ∧ names ds = nms ∧ images ds = None
    ∧ ∀ idx name st, py_index nms idx = Ok name →
        load ds idx st
        = match preproc (ip +:+ name) with
          | Ok img => (Ok (length (heap st)), State (heap st ++ [img]) (amb st))
          | Raise e => (Raise e, st)
          end.
Proof.
  intros Hcsv Himg.
  destruct (init_lazy_total read_csv decode clahe_apply lp ip tr ttr s frame nms)
    as [ds Hinit]; [done..|].
  exists ds. split; [done|].
  apply init_Ok in Hinit as (frame' & nms' & C).
  destruct C as [Hcsv' Himg' Hn Hp Hram _ _ _ _ [Hnone _]].
  assert (frame' = frame) as -> by congruence.
  assert (nms' = nms) as -> by congruence.
  split; [done|]. split; [done|].
  intros idx name st Hix. unfold load_image. rewrite Hram, Hn, Hp. st_unfold.
  rewrite Hix. by destruct (preproc (ip +:+ name)).
Qed.

(** X7. [load_image] never hands out a cached object. On a dataset built
    with [load_ram=True], in any state reached by dataset operations, a
    successful call returns an object that did not exist before the call,
    is none of the cached ones, and leaves every cached image as it was
    at construction. *)
Theorem load_image_returns_fresh_copy lp ip tr ttr s0 ds s1 os idx l st st' :
  init lp ip tr ttr true s0 = (Ok ds, s1) →
  st = run_ops decode clahe_apply ds os s1 →
  load ds idx st = (Ok l, st') →
  ∃ cache,
    images ds = Some cache
    ∧ (heap st) !! l = None
    ∧ (l ∉ cache)
    ∧ length (heap st') = S (length (heap st))
    ∧ ∀ l', l' ∈ cache → (heap st') !! l' = (heap s1) !! l'.
Proof.
  intros Hinit Hst Hload.
  pose proof Hinit as (frame & nms & C)%init_Ok.
  destruct C as [_ _ _ _ _ _ _ _ _ (imgs & Hmap & Himages & ->)].
  destruct (run_ops_prefix decode clahe_apply ds os
              (State (heap s0 ++ imgs) (amb s0))) as [k Hk]; simpl in Hk.
  rewrite <- Hst in Hk.
  destruct (load_image_effect decode clahe_apply ds idx st)
    as [[img Hl]|[e Hl]]; rewrite Hl in Hload; [|discriminate].
  injection Hload as <- <-. eexists. split; [done|]. simpl.
  split; [by apply lookup_ge_None|]. split; [|split].
  - intros [i [Heq Hi]%lookup_seq]%list_elem_of_lookup.
    rewrite Hk, !length_app in Heq. lia.
  - rewrite length_app. simpl. lia.
  - intros l' [i [-> Hi]%lookup_seq]%list_elem_of_lookup.
    rewrite Hk, <- !app_assoc. rewrite !(lookup_app_r (heap s0)) by lia.
    rewrite !lookup_app_l; first done; lia.
Qed.
End DatasetMore.

(** ** The example script as a whole *)

Section ScriptMore.
Import Torch Health.
Context {pyobj ambient : Type}.
Variable read_csv : string → result dataframe.
Variable decode : string → result ndarray.
Variable clahe_apply : ndarray → result (list (list Z)).
Variable print_size : value pyobj → St (state ambient) unit.
Variable fromarray_rgb : value pyobj → St (state ambient) (value pyobj).
Variable convert_L : value pyobj → St (state ambient) (value pyobj).
Variable save : value pyobj → string → St (state ambient) unit.
Variable script_transform : transform_t pyobj ambient.

Local Abbreviation script :=
  (main read_csv decode clahe_apply print_size fromarray_rgb convert_L save
     script_transform).

(** X8. The script as a whole ends normally exactly when the label table
    can be read and has an 'image' column. The dataset is built outside
    the [try]: an error of [read_csv] leaves the script as it is, and a
    table without 'image' column as KeyError. With the table loaded, no
    missing or broken image file and no failing conversion or save makes
    the script fail. *)
Theorem main_fails_only_on_the_table s :
  (∀ e, read_csv label_path = Raise e → script s = (Raise e, s))
  ∧ (∀ frame, read_csv label_path = Ok frame → "image" ∉ columns frame →
       script s = (Raise (KeyError "image"), s))
  ∧ (∀ frame, read_csv label_path = Ok frame → "image" ∈ columns frame →
       (script s).1 = Ok tt).
Proof.
  unfold main. split; [|split].
  - intros e He. unfold __init__. st_unfold. by rewrite He.
  - intros frame Hcsv Hno. st_unfold.
    by rewrite (init_missing_image_column read_csv decode clahe_apply
                  _ _ _ _ _ _ frame Hcsv Hno).
  - intros frame Hcsv [nms Himg]%column_Ok_iff. st_unfold.
    destruct (init_lazy_total read_csv decode clahe_apply label_path img_path
                (Some script_transform) None s frame nms Hcsv Himg) as [ds ->].
    unfold main_loop. by rewrite for_each_iterations.
Qed.




End ScriptMore.

(** ** The flattened configuration *)

Section ConfigMore.
Import Config ConfigTerms.

Lemma dict_set_fresh {K} `{EqDecision K} {V} (d : list (K * V)) k v :
  k ∉ d.*1 → dict_set d k v = d ++ [(k, v)].
Proof.
  induction d as [|[k' v'] d IH]; cbn [dict_set app]; intros Hk; [done|].
  rewrite decide_False.
  2:{ intros ->. apply Hk. by left. }
  rewrite IH; [done|]. intros ?. apply Hk. by right.
Qed.

Lemma dict_set_NoDup {K} `{EqDecision K} {V} (d : list (K * V)) k v :
  NoDup d.*1 → NoDup (dict_set d k v).*1.
Proof.
  intros Hd. rewrite dict_set_keys. destruct (decide (k ∈ d.*1)); [done|].
  apply NoDup_app. split; [done|]. split; [|apply NoDup_singleton].
  intros x Hx ->%list_elem_of_singleton. done.
Qed.

Lemma dict_set_values {K} `{EqDecision K} {V} (P : V → Prop)
    (d : list (K * V)) k v :
  Forall P d.*2 → P v → Forall P (dict_set d k v).*2.
Proof.
  intros Hd Hv. induction d as [|[k' v'] d IH]; cbn [dict_set].
  - by repeat constructor.
  - apply Forall_cons in Hd as [Hv' Hd]. case_decide.
    + by constructor.
    + constructor; [done | by apply IH].
Qed.

Lemma dict_set_keys_Forall {K} `{EqDecision K} {V} (P : K → Prop)
    (d : list (K * V)) k v :
  Forall P d.*1 → P k → Forall P (dict_set d k v).*1.
Proof.
  intros Hd Hk. rewrite dict_set_keys. case_decide; [done|].
  apply Forall_app. split; [done | by constructor].
Qed.

Lemma fold_dict_set_invariant {K} `{EqDecision K} {V} (P : K → Prop)
    (Q : V → Prop) (items acc : list (K * V)) :
  NoDup acc.*1 → Forall P acc.*1 → Forall Q acc.*2 →
  Forall P items.*1 → Forall Q items.*2 →
  let d := fold_left (λ d kv, dict_set d kv.1 kv.2) items acc in
  NoDup d.*1 ∧ Forall P d.*1 ∧ Forall Q d.*2.
Proof.
  revert acc. induction items as [|[k v] items IH];
    intros acc Hnd HaccP HaccQ HitemsP HitemsQ; simpl; [done|].
  apply Forall_cons in HitemsP as [Hk HitemsP].
  apply Forall_cons in HitemsQ as [Hv HitemsQ].
  apply IH; [by apply dict_set_NoDup | by apply dict_set_keys_Forall
            | by apply dict_set_values | done | done].
Qed.

Lemma dict_invariant {K} `{EqDecision K} {V} (P : K → Prop) (Q : V → Prop)
    (items : list (K * V)) :
  Forall P items.*1 → Forall Q items.*2 →
  NoDup (dict items).*1 ∧ Forall P (dict items).*1 ∧ Forall Q (dict items).*2.
Proof.
  intros. apply (fold_dict_set_invariant P Q items []);
    [apply NoDup_nil_2 | constructor | constructor | done | done].
Qed.

Lemma fold_dict_set_fresh {K} `{EqDecision K} {V} (items acc : list (K * V)) :
  NoDup (acc ++ items).*1 →
  fold_left (λ d kv, dict_set d kv.1 kv.2) items acc = acc ++ items.
Proof.
  revert acc. induction items as [|[k v] items IH]; intros acc Hnd; simpl.
  - by rewrite app_nil_r.
  - rewrite dict_set_fresh.
    + rewrite IH; rewrite <- app_assoc; done.
    + rewrite fmap_app in Hnd. apply NoDup_app in Hnd as (_ & Hdisj & _).
      intros Hk. apply (Hdisj k Hk). by left.
Qed.

(** Building a dict from items with distinct keys keeps the items. *)
Lemma dict_distinct {K} `{EqDecision K} {V} (items : list (K * V)) :
  NoDup items.*1 → dict items = items.
Proof. intros. by apply (fold_dict_set_fresh items []). Qed.

(** The loop of [flatten_yaml_as_dict], item by item. *)
Lemma flatten_mapping alias ds parent_key sep :
  flatten_yaml_as_dict alias (YMap ds) parent_key sep
  = (items ← extend_each (flatten_item alias parent_key sep) ds;
     mret (dict items)).
Proof. reflexivity. Qed.

Lemma extend_each_app {A B} (f : A → result (list B)) l1 l2 :
  extend_each f (l1 ++ l2)
  = (a ← extend_each f l1; b ← extend_each f l2; mret (a ++ b)).
Proof.
  induction l1 as [|x l1 IH]; simpl; st_unfold.
  - by destruct (extend_each f l2).
  - destruct (f x) as [here|e]; [|done]. rewrite IH. st_unfold.
    destruct (extend_each f l1) as [a|e]; [|done].
    destruct (extend_each f l2) as [b|e]; [|done]. by rewrite app_assoc.
Qed.

Lemma extend_each_Forall {A B} (f : A → result (list B)) (P : B → Prop) l out :
  (∀ a here, a ∈ l → f a = Ok here → Forall P here) →
  extend_each f l = Ok out → Forall P out.
Proof.
  revert out. induction l as [|a l IH]; intros out Hf; simpl; st_unfold.
  - intros [= <-]. constructor.
  - destruct (f a) as [here|e] eqn:Ha; [|discriminate].
    destruct (extend_each f l) as [rest|e]; [|discriminate].
    intros [= <-]. apply Forall_app. split.
    + apply (Hf a); [by left | done].
    + apply IH; [|done]. intros a' here' Hin. apply Hf. by right.
Qed.

Lemma string_keyed_mapping ds :
  string_keyed (YMap ds)
  = forallb (λ kv, is_string_key kv.1 && string_keyed kv.2) ds.
Proof.
  induction ds as [|[k v] ds IH]; [done|].
  change (string_keyed (YMap ((k, v) :: ds)))
    with (is_string_key k && string_keyed v && string_keyed (YMap ds)).
  by rewrite IH.
Qed.

(** A flattening that returns has one entry per key and no value that is
    a mapping. *)
Lemma flatten_unique_plain alias d parent_key sep flat :
  flatten_yaml_as_dict alias d parent_key sep = Ok flat →
  NoDup flat.*1 ∧ Forall (λ w, is_mapping w = false) flat.*2.
Proof.
  revert d parent_key flat. fix IHd 1.
  intros [|x|l|ds] parent_key flat; [clear IHd; discriminate..|].
  rewrite flatten_mapping. st_unfold_goal.
  destruct (extend_each _ ds) as [items|e] eqn:Hitems; [|clear IHd; discriminate].
  intros [= <-].
  assert (Hvals : Forall (λ w, is_mapping w = false) items.*2).
  { clear -Hitems IHd. revert items Hitems.
    induction ds as [|[k v] ds IH]; intros items; simpl; st_unfold_goal.
    - intros [= <-]. constructor.
    - unfold flatten_item at 1. st_unfold_goal. simpl.
      destruct (new_key parent_key sep k) as [nk|e]; [|discriminate].
      destruct (isinstance_MutableMapping alias v) as [[]|e] eqn:Hv;
        [| |discriminate].
      + destruct (flatten_yaml_as_dict alias v nk sep) as [here|e] eqn:Hhere;
          [|discriminate].
        destruct (extend_each _ ds) as [rest|e]; [|discriminate].
        intros [= <-]. rewrite fmap_app. apply Forall_app. split.
        * by apply (IHd v nk here).
        * by apply IH.
      + destruct (extend_each _ ds) as [rest|e]; [|discriminate].
        intros [= <-]. simpl. constructor; [|by apply IH].
        clear IHd IH. unfold isinstance_MutableMapping in Hv.
        destruct alias; [|discriminate]. by destruct v. }
  clear IHd.
  destruct (dict_invariant (λ _ : key, True)
              (λ w, is_mapping w = false) items) as (Hnd & _ & Hplain);
    [by apply Forall_true | exact Hvals | done].
Qed.

(** With string keys throughout and [collections.MutableMapping] at hand,
    flattening under a string prefix returns, with string keys only. *)
Lemma flatten_string_keyed d sep :
  is_mapping d = true → string_keyed d = true →
  ∀ p, ∃ flat,
    flatten_yaml_as_dict true d (KStr p) sep = Ok flat
    ∧ Forall (λ k, is_string_key k = true) flat.*1.
Proof.
  revert d. fix IHd 1.
  intros [|x|l|ds]; [clear IHd; discriminate..|]. intros _ Hkeys p.
  rewrite string_keyed_mapping in Hkeys. rewrite flatten_mapping.
  assert (Hitems : ∃ items,
    extend_each (flatten_item true (KStr p) sep) ds = Ok items
    ∧ Forall (λ k, is_string_key k = true) items.*1).
  { induction ds as [|[k v] ds IH]; simpl.
    - clear IHd. exists []. by split; [|constructor].
    - simpl in Hkeys. apply andb_prop in Hkeys as [Hkv Hrest].
      apply andb_prop in Hkv as [Hk Hv]. destruct k as [name|]; [|done].
      destruct (IH Hrest) as (rest & -> & Hrestkeys).
      unfold flatten_item. st_unfold_goal. simpl.
      assert (∃ nk, new_key (KStr p) sep (KStr name) = Ok (KStr nk)) as [nk ->].
      { clear IHd. unfold new_key. destruct (key_truthy (KStr p)); by eexists. }
      pose proof (IHd v) as IHv. clear IHd. destruct v as [|x|l|ds'].
      1-3: eexists; split; [done|]; by constructor.
      destruct (IHv eq_refl Hv nk) as (here & -> & Hherekeys).
      eexists. split; [done|]. rewrite fmap_app. by apply Forall_app. }
  clear IHd. destruct Hitems as (items & -> & Hitemkeys). st_unfold_goal.
  eexists. split; [done|].
  destruct (dict_invariant (λ k, is_string_key k = true) (λ _ : yaml, True) items)
    as (_ & Hk & _); [done | by apply Forall_true | done].
Qed.

(** The exceptions of the flattening: TypeError from building a key,
    AttributeError from [d.items()] or [collections.MutableMapping]. *)
Lemma flatten_raises alias d parent_key sep e :
  flatten_yaml_as_dict alias d parent_key sep = Raise e →
  (∃ msg, e = TypeError msg) ∨ (∃ msg, e = AttributeError msg).
Proof.
  revert d parent_key. fix IHd 1.
  intros [|x|l|ds] parent_key;
    [clear IHd; intros [= <-]; right; by eexists..|].
  rewrite flatten_mapping. st_unfold_goal.
  destruct (extend_each _ ds) as [items|e'] eqn:Hitems;
    [clear IHd; discriminate|].
  intros [= ->]. revert Hitems.
  induction ds as [|[k v] ds IH]; simpl; st_unfold;
    [clear IHd; discriminate|].
  unfold flatten_item at 1. st_unfold_goal. simpl.
  destruct (new_key parent_key sep k) as [nk|e'] eqn:Hnk.
  2:{ clear IHd IH. intros [= ->]. left. unfold new_key in Hnk.
      destruct (key_truthy parent_key), parent_key, k; simplify_eq;
        by eexists. }
  destruct (isinstance_MutableMapping alias v) as [[]|e'] eqn:Hv.
  3:{ clear IHd IH. intros [= ->]. right.
      unfold isinstance_MutableMapping in Hv.
      destruct alias; simplify_eq. by eexists. }
  - destruct (flatten_yaml_as_dict alias v nk sep) as [here|e'] eqn:Hhere.
    + destruct (extend_each _ ds) as [rest|e']; [discriminate|].
      intros [= ->]. by apply IH.
    + intros [= ->]. by apply (IHd v nk).
  - destruct (extend_each _ ds) as [rest|e']; [discriminate|].
    intros [= ->]. by apply IH.
Qed.

(** X10. The dict that [flatten_yaml_as_dict] returns, when it returns,
    has one entry per key and no value that is a mapping, whatever the
    nesting, the types of the keys, the parent key and the interpreter.
    It does return, with string keys only, on an interpreter that has
    [collections.MutableMapping] (Python up to 3.9) for a tree-shaped
    mapping in which every visited key is a string, under a string
    parent key. *)
Theorem flatten_yaml_as_dict_flat alias d parent_key sep :
  (∀ flat, flatten_yaml_as_dict alias d parent_key sep = Ok flat →
     NoDup flat.*1 ∧ Forall (λ w, is_mapping w = false) flat.*2)
  ∧ (alias = true → is_mapping d = true → string_keyed d = true →
     is_string_key parent_key = true →
     ∃ flat, flatten_yaml_as_dict alias d parent_key sep = Ok flat
       ∧ Forall (λ k, is_string_key k = true) flat.*1).
Proof.
  split; [intros flat; apply flatten_unique_plain|].
  intros -> Hd Hkeys Hp. destruct parent_key as [p|]; [|done].
  by apply flatten_string_keyed.
Qed.

(** [NestedNamespace] on a dict without nested mappings: it returns
    exactly when all keys are strings, and then holds the items as they
    are. *)
Lemma NestedNamespace_flat (flat : list (key * yaml)) ns :
  NoDup flat.*1 → Forall (λ w, is_mapping w = false) flat.*2 →
  NestedNamespace flat = Ok ns →
  ∃ items, flat = string_items items ∧ ns = flat_namespace items.
Proof.
  intros Hnd Hflat. unfold NestedNamespace, flat_namespace. simpl. st_unfold.
  assert (Hgen : ∀ (acc : list (string * nsval)) attrs,
    NoDup ((KStr <$> acc.*1) ++ flat.*1) →
    (fix setattrs (d : list (key * yaml)) (acc : list (string * nsval))
       : result (list (string * nsval)) :=
       match d with
       | [] => Ok acc
       | (k, v') :: d' =>
           match nested_value v' with
           | Ok value =>
               match k with
               | KStr name => setattrs d' (dict_set acc name value)
               | KOther _ _ => Raise (TypeError "attribute name must be string")
               end
           | Raise e => Raise e
           end
       end) flat acc = Ok attrs →
    ∃ items, flat = string_items items
      ∧ attrs = acc ++ ((λ kv, (kv.1, NValue kv.2)) <$> items)).
  { clear Hnd. induction flat as [|[k v] flat IH]; intros acc attrs Hacc.
    - intros [= <-]. exists []. by rewrite app_nil_r.
    - simpl in Hflat. apply Forall_cons in Hflat as [Hv Hflat].
      assert (nested_value v = Ok (NValue v)) as -> by (by destruct v).
      destruct k as [name|]; [|discriminate].
      assert (Hk : name ∉ acc.*1).
      { apply NoDup_app in Hacc as (_ & Hdisj & _). intros Hk.
        apply (Hdisj (KStr name)); [by apply list_elem_of_fmap_2 | by left]. }
      rewrite dict_set_fresh by done. intros Hrest.
      apply IH in Hrest as (items & -> & ->); [|done|].
      + exists ((name, v) :: items). split; [done|].
        by rewrite <- app_assoc.
      + rewrite !fmap_app. simpl. rewrite <- app_assoc. done. }
  destruct (_ flat []) as [attrs|e] eqn:Hattrs; [|discriminate].
  intros [= <-]. apply Hgen in Hattrs as (items & -> & ->); [|done].
  by exists items.
Qed.

Lemma NestedNamespace_raises (flat : list (key * yaml)) e :
  Forall (λ w, is_mapping w = false) flat.*2 →
  NestedNamespace flat = Raise e →
  e = TypeError "attribute name must be string".
Proof.
  unfold NestedNamespace. simpl. st_unfold. intros Hflat.
  generalize (@nil (string * nsval)).
  induction flat as [|[k v] flat IH]; intros acc; [discriminate|].
  simpl in Hflat. apply Forall_cons in Hflat as [Hv Hflat].
  assert (nested_value v = Ok (NValue v)) as -> by (by destruct v).
  destruct k as [name|]; [by apply IH | congruence].
Qed.

Lemma string_items_keys items : (string_items items).*1 = KStr <$> items.*1.
Proof.
  unfold string_items. rewrite <- !list_fmap_compose. done.
Qed.

Lemma string_items_values items : (string_items items).*2 = items.*2.
Proof.
  unfold string_items. rewrite <- !list_fmap_compose. done.
Qed.

(** X11. The object [load_config] returns is never nested, in spite of
    the class name: its attributes are exactly the dotted keys of the
    flattened configuration, in order, each holding a plain value. *)
Theorem load_config_namespace_is_flat globals alias open_file yaml_load file
    log ns log' :
  load_config globals alias open_file yaml_load file log = (Ok ns, log') →
  ∃ text cfg (flat : list (string * yaml)),
    open_file file = Ok text ∧ yaml_load text = Ok cfg
    ∧ flatten_yaml_as_dict alias cfg (KStr "") "." = Ok (string_items flat)
    ∧ ns = flat_namespace flat
    ∧ NoDup flat.*1
    ∧ Forall (λ w, is_mapping w = false) flat.*2
    ∧ log' = log.
Proof.
  unfold load_config, try_except, handler, load_name, warning. st_unfold.
  destruct (open_file file) as [text|e] eqn:Hopen; [|discriminate].
  destruct (yaml_load text) as [cfg|e] eqn:Hload.
  - destruct (flatten_yaml_as_dict alias cfg (KStr "") ".") as [flat|e] eqn:Hflat.
    + destruct (flatten_unique_plain _ _ _ _ _ Hflat) as [Hnd Hvals].
      destruct (NestedNamespace flat) as [ns'|e] eqn:Hns.
      * intros [= <- <-].
        destruct (NestedNamespace_flat _ _ Hnd Hvals Hns) as (items & -> & ->).
        exists text, cfg, items. rewrite string_items_keys in Hnd.
        rewrite string_items_values in Hvals.
        repeat split; try done. by apply NoDup_fmap_1 in Hnd.
      * by rewrite (NestedNamespace_raises _ _ Hvals Hns).
    + by destruct (flatten_raises _ _ _ _ _ Hflat) as [[msg ->]|[msg ->]].
  - intros Hr. exfalso. destruct e; try discriminate.
    destruct (globals !! "is_master_node") as [v|]; simpl in Hr;
      [|discriminate].
    destruct (truthy v); simpl in Hr; [|discriminate].
    destruct (globals !! "logger") as [[]|]; simpl in Hr; discriminate.
Qed.

Lemma new_key_under parent sep k :
  parent ≠ "" →
  new_key (KStr parent) sep (KStr k) = Ok (KStr (parent +:+ sep +:+ k))
  ∧ parent +:+ sep +:+ k ≠ "".
Proof.
  intros Hp. unfold new_key, key_truthy. rewrite decide_False by done.
  split; [done|]. destruct parent; [done | discriminate].
Qed.

Lemma flatten_item_plain parent_key sep k v nk :
  new_key parent_key sep k = Ok nk → is_mapping v = false →
  flatten_item true parent_key sep (k, v) = Ok [(nk, v)].
Proof.
  intros Hnk Hv. unfold flatten_item. st_unfold. simpl. rewrite Hnk.
  by destruct v.
Qed.

Lemma flatten_nest parent ks v :
  parent ≠ "" → is_mapping v = false →
  ∀ k, flatten_item true (KStr parent) "." (KStr k, nest ks v)
       = Ok [(KStr (dotted (parent +:+ "." +:+ k) ks), v)].
Proof.
  revert parent. induction ks as [|k' ks IH]; intros parent Hp Hv k;
    destruct (new_key_under parent "." k Hp) as [Hnk Hne].
  - by apply flatten_item_plain.
  - unfold flatten_item. st_unfold. cbn [fst snd]. rewrite Hnk.
    cbn [nest foldr isinstance_MutableMapping]. fold (nest ks v).
    rewrite flatten_mapping. cbn [extend_each]. st_unfold.
    by rewrite IH.
Qed.

(** X12. On an interpreter that has [collections.MutableMapping], a
    value reached through the string keys k, k1, ..., kn of nested
    mappings is stored under the single key "k.k1.....kn". *)
Theorem flatten_yaml_as_dict_dotted_key alias k ks v :
  alias = true → k ≠ "" → is_mapping v = false →
  flatten_yaml_as_dict alias (nest (k :: ks) v) (KStr "") "."
  = Ok [(KStr (dotted k ks), v)].
Proof.
  intros -> Hk Hv. cbn [nest foldr]. fold (nest ks v).
  rewrite flatten_mapping. cbn [extend_each]. st_unfold.
  destruct ks as [|k' ks].
  - cbn [nest foldr].
    by rewrite (flatten_item_plain (KStr "") "." (KStr k) v (KStr k)).
  - unfold flatten_item. st_unfold.
    cbn [fst snd nest foldr isinstance_MutableMapping].
    change (new_key (KStr "") "." (KStr k)) with (Ok (KStr k)).
    cbv beta iota. fold (nest ks v). rewrite flatten_mapping. cbn [extend_each]. st_unfold.
    by rewrite flatten_nest.
Qed.

(** X13. Only a YAML parse error reaches the handler. An error of
    [open], any other exception of the parser, and a file that parses to
    something that is not a mapping (an empty file parses to [None]) leave
    [load_config] as they are raised, with nothing logged. *)
Theorem load_config_other_errors_propagate globals alias open_file yaml_load
    file log :
  (∀ e, open_file file = Raise e →
     load_config globals alias open_file yaml_load file log = (Raise e, log))
  ∧ (∀ text e, open_file file = Ok text → yaml_load text = Raise e →
       (∀ msg, e ≠ YAMLError msg) →
       load_config globals alias open_file yaml_load file log = (Raise e, log))
  ∧ (∀ text cfg, open_file file = Ok text → yaml_load text = Ok cfg →
       is_mapping cfg = false →
       load_config globals alias open_file yaml_load file log
       = (Raise (AttributeError "items"), log)).
Proof.
  unfold load_config, try_except. st_unfold. split; [|split].
  - by intros e ->.
  - intros text e -> -> Hne. destruct e; try done. by destruct (Hne msg).
  - intros text cfg -> -> Hcfg. by destruct cfg.
Qed.

(** X14. On an interpreter that has [collections.MutableMapping], a
    configuration without nested mappings is its own flattening, whatever
    the types of its keys (which, as keys of one dict, are distinct). *)
Theorem flatten_yaml_as_dict_flat_identity alias (items : list (key * yaml)) sep :
  alias = true →
  NoDup items.*1 →
  Forall (λ w, is_mapping w = false) items.*2 →
  flatten_yaml_as_dict alias (YMap items) (KStr "") sep = Ok items.
Proof.
  intros -> Hnd Hflat. rewrite flatten_mapping.
  assert (extend_each (flatten_item true (KStr "") sep) items = Ok items) as ->.
  { clear Hnd. induction items as [|[k v] items IH]; simpl; [done|].
    simpl in Hflat. apply Forall_cons in Hflat as [Hv Hflat].
    rewrite (flatten_item_plain (KStr "") sep k v k) by done.
    rewrite IH by done. done. }
  st_unfold. by rewrite dict_distinct.
Qed.

(** X15. On an interpreter that has [collections.MutableMapping], a key
    whose value is an empty mapping leaves no trace in the flattened
    configuration, provided the key can be joined to the parent key: the
    result, or the exception, is that of the configuration without the
    key. *)
Theorem flatten_drops_empty_mappings alias d1 k d2 parent_key sep :
  alias = true →
  is_ok (new_key parent_key sep k) = true →
  flatten_yaml_as_dict alias (YMap (d1 ++ (k, YMap []) :: d2)) parent_key sep
  = flatten_yaml_as_dict alias (YMap (d1 ++ d2)) parent_key sep.
Proof.
  intros -> Hk. rewrite !flatten_mapping, !extend_each_app.
  assert (flatten_item true parent_key sep (k, YMap []) = Ok []) as Hempty.
  { unfold flatten_item. st_unfold. simpl.
    by destruct (new_key parent_key sep k). }
  cbn [extend_each]. rewrite Hempty. st_unfold.
  destruct (extend_each _ d1) as [a|e]; [|done].
  by destruct (extend_each _ d2).
Qed.

(** X26. On an interpreter without [collections.MutableMapping] (Python
    3.10 and later) only the empty mapping is flattened: with a first
    item whose key can be joined to the parent key, the [isinstance] test
    raises AttributeError, and [load_config] raises it for every file
    that parses to a mapping with an item, with nothing logged. *)
Theorem flatten_without_MutableMapping parent_key sep :
  flatten_yaml_as_dict false (YMap []) parent_key sep = Ok []
  ∧ (∀ k v d,
       is_ok (new_key parent_key sep k) = true →
       flatten_yaml_as_dict false (YMap ((k, v) :: d)) parent_key sep
       = Raise (AttributeError "MutableMapping"))
  ∧ (∀ globals open_file yaml_load file log text k v d,
       open_file file = Ok text →
       yaml_load text = Ok (YMap ((k, v) :: d)) →
       load_config globals false open_file yaml_load file log
       = (Raise (AttributeError "MutableMapping"), log)).
Proof.
  split; [done|]. split.
  - intros k v d Hk. rewrite flatten_mapping. cbn [extend_each].
    unfold flatten_item. st_unfold. simpl.
    by destruct (new_key parent_key sep k).
  - intros globals open_file yaml_load file log text k v d Hopen Hload.
    unfold load_config, try_except. st_unfold. by rewrite Hopen, Hload.
Qed.
End ConfigMore.

(** ** Freezing layers and failing head swaps *)

Section WrappersMore.
Import Config NN WrapperTerms.
Context {num : Type}.

Lemma all_flags_set_requires_grad b m :
  all_requires_grad b (set_requires_grad b m).
Proof.
  unfold all_requires_grad. revert m. fix IHm 1. intros [k g cs]. simpl.
  apply Forall_app. split.
  - clear IHm. apply Forall_fmap, Forall_true. done.
  - induction cs as [|[n c] cs IH]; simpl; [constructor|].
    apply Forall_app. split; [apply IHm | apply IH].
Qed.

Lemma getattr_Raise m name e :
  getattr m name = Raise e → e = AttributeError name ∧ name ∉ (children m).*1.
Proof.
  destruct m as [k g cs]. unfold getattr. simpl.
  induction cs as [|[n c] cs IH]; simpl.
  - intros [= <-]. split; [done | apply not_elem_of_nil].
  - destruct (decide (n = name)) as [->|Hne]; [discriminate|].
    intros [-> Hnot]%IH. split; [done|].
    intros [?|?]%elem_of_cons; [congruence | done].
Qed.

Lemma getattr_missing m name :
  name ∉ (children m).*1 → getattr m name = Raise (AttributeError name).
Proof.
  intros Hno. destruct (getattr m name) as [c|e] eqn:Hg.
  - exfalso. apply Hno. destruct m as [k g cs]. unfold getattr in Hg.
    simpl in *. clear Hno. induction cs as [|[n c'] cs IH]; simpl in *;
      [discriminate|].
    destruct (decide (n = name)) as [->|]; [by left | right; by apply IH].
  - by apply getattr_Raise in Hg as [-> _].
Qed.

(** X16. With [freeze_layers=True] on a network that has the submodules
    [layer_5] and [conv_1x1_exp], construction succeeds and leaves exactly
    three trainable parts: those two submodules and the new classifier.
    Every parameter of every other submodule has [requires_grad=False]. *)
Theorem effi_freeze_layers (create_model : module)
    (hp : EFFILitModule.hparams num) l5 cv :
  EFFILitModule.freeze_layers hp = true →
  getattr create_model "layer_5" = Ok l5 →
  getattr create_model "conv_1x1_exp" = Ok cv →
  ∃ self,
    EFFILitModule.__init__ create_model hp = Ok self
    ∧ (∀ name sub, name ∈ ["layer_5"; "conv_1x1_exp"; "classifier"] →
         getattr (EFFILitModule.model self) name = Ok sub →
         all_requires_grad true sub)
    ∧ (∀ name sub, name ∉ ["layer_5"; "conv_1x1_exp"; "classifier"] →
         getattr (EFFILitModule.model self) name = Ok sub →
         all_requires_grad false sub).
Proof.
  intros Hfreeze H5 Hcv. unfold EFFILitModule.__init__, EFFILitModule.unfreeze.
  st_unfold. rewrite Hfreeze.
  rewrite (getattr_set_requires_grad false create_model "layer_5"), H5. simpl.
  rewrite getattr_setattr_ne by done.
  rewrite (getattr_set_requires_grad false create_model "conv_1x1_exp"), Hcv.
  simpl. eexists. split; [done|]. simpl. split.
  - intros name sub Hin Hsub.
    apply elem_of_cons in Hin as [->|Hin].
    { rewrite !getattr_setattr_ne, getattr_setattr_eq in Hsub by done.
      injection Hsub as <-. apply all_flags_set_requires_grad. }
    apply elem_of_cons in Hin as [->|Hin].
    { rewrite getattr_setattr_ne, getattr_setattr_eq in Hsub by done.
      injection Hsub as <-. apply all_flags_set_requires_grad. }
    apply list_elem_of_singleton in Hin as ->.
    rewrite getattr_setattr_eq in Hsub. injection Hsub as <-.
    unfold all_requires_grad. simpl. by repeat constructor.
  - intros name sub Hout Hsub.
    rewrite !getattr_setattr_ne in Hsub.
    2-4: intros ->; apply Hout; by repeat constructor.
    rewrite getattr_set_requires_grad in Hsub.
    destruct (getattr create_model name) as [c|e]; [|discriminate].
    injection Hsub as <-. apply all_flags_set_requires_grad.
Qed.

(** X17. With [freeze_layers=True], construction fails with
    AttributeError when the network has no submodule [layer_5], and when
    it has [layer_5] but no [conv_1x1_exp]: the wrapper cannot be built
    on such a network. Without [freeze_layers] the same network is
    accepted. *)
Theorem effi_freeze_layers_missing (create_model : module)
    (hp : EFFILitModule.hparams num) :
  EFFILitModule.freeze_layers hp = true →
  ("layer_5" ∉ (children create_model).*1 →
     EFFILitModule.__init__ create_model hp = Raise (AttributeError "layer_5"))
  ∧ ("layer_5" ∈ (children create_model).*1 →
     "conv_1x1_exp" ∉ (children create_model).*1 →
     EFFILitModule.__init__ create_model hp
     = Raise (AttributeError "conv_1x1_exp")).
Proof.
  intros Hfreeze. unfold EFFILitModule.__init__, EFFILitModule.unfreeze.
  st_unfold. rewrite Hfreeze. split.
  - intros Hno. rewrite getattr_set_requires_grad, getattr_missing by done.
    done.
  - intros Hin Hno. rewrite (getattr_set_requires_grad _ _ "layer_5").
    destruct (getattr create_model "layer_5") as [l5|e] eqn:H5.
    2:{ apply getattr_Raise in H5 as [_ ?]. done. }
    simpl. rewrite getattr_setattr_ne by done.
    rewrite getattr_set_requires_grad, getattr_missing by done. done.
Qed.

(** X18. The MobileViT head swap fails, and no network is returned, when
    the built network has no [classifier] (AttributeError), when its
    classifier is a single layer such as the Linear of an EfficientNet
    (TypeError: no item assignment) and when it is an empty Sequential
    (IndexError). *)
Theorem mvit_replace_last_errors net out :
  ("classifier" ∉ (children net).*1 →
     MVITLitModule.replace_last net out = Raise (AttributeError "classifier"))
  ∧ (∀ k g cs, getattr net "classifier" = Ok (Module k g cs) →
       (∃ i o, k = Linear i o) ∨ k = SiLU ∨ (∃ p, k = Dropout p) →
       MVITLitModule.replace_last net out
       = Raise (TypeError "object does not support item assignment"))
  ∧ (∀ g, getattr net "classifier" = Ok (Module Sequential g []) →
       MVITLitModule.replace_last net out = Raise IndexError).
Proof.
  unfold MVITLitModule.replace_last. st_unfold. split; [|split].
  - intros Hno. by rewrite getattr_missing.
  - by intros k g cs -> [(i & o & ->)|[->|(p & ->)]].
  - by intros g ->.
Qed.
End WrappersMore.

(** ** Test steps and the metrics across epochs *)

Section HooksMore.
Import NN Lightning Hooks WrapperTerms.
Context {T num : Type}.
Variable forward_model : module → T → T.
Variable squeeze : T → T.
Variable BCEWithLogitsLoss : option Z → T → T → T.
Variable positive_long : T → T.
Variable long : T → T.
Variable metric_value : string → T → T → T.
Variable compute : string → list (T * T) → T.
Variable compute_max : list T → T.

Local Abbreviation effi_step :=
  (EFFILitModule.step (num:=num) forward_model squeeze BCEWithLogitsLoss positive_long).
Local Abbreviation effi_run :=
  (EFFILitModule.run (num:=num) forward_model squeeze BCEWithLogitsLoss
     positive_long long metric_value).
Local Abbreviation epochs_of :=
  (effi_epochs (num:=num) forward_model squeeze BCEWithLogitsLoss positive_long
     long metric_value compute compute_max).

Lemma set_metric_keys (attrs : list (string * metric T)) name m :
  (set_metric attrs name m).*1 = attrs.*1.
Proof.
  induction attrs as [|[n m'] attrs IH]; cbn [set_metric]; [done|].
  case_decide; [done|]. cbn [fmap list_fmap fst]. by rewrite IH.
Qed.

Lemma absorb_keys (attrs : list (string * metric T)) es :
  (absorb attrs es).*1 = attrs.*1.
Proof.
  unfold absorb. revert attrs. induction es as [|e es IH]; intros attrs;
    simpl; [done|].
  rewrite IH. destruct e as [? ? ? ? ?|n x y|?]; try done.
  unfold metric_update.
  destruct (get_metric attrs n) as [[us|vs]|err]; try done.
  apply set_metric_keys.
Qed.

Lemma get_metric_missing (attrs : list (string * metric T)) name :
  name ∉ attrs.*1 → get_metric attrs name = Raise (AttributeError name).
Proof.
  induction attrs as [|[n m] attrs IH]; cbn [get_metric]; [done|].
  intros Hno. rewrite decide_False.
  - apply IH. intros ?. apply Hno. by right.
  - intros ->. apply Hno. by left.
Qed.

(** X19. [test_step] cannot succeed in either wrapper: neither [__init__]
    binds [test_acc], and no step or epoch hook adds an attribute, so
    after any history of metric calls the step raises AttributeError for
    [test_acc] and logs nothing. *)
Theorem test_step_always_raises es :
  (∀ (self : EFFILitModule.self_t num) batch i,
     effi_test_step forward_model squeeze BCEWithLogitsLoss positive_long
       metric_value self (absorb effi_metrics es) batch i
     = (Raise (AttributeError "test_acc"), []))
  ∧ (∀ (self : MVITLitModule.self_t num) batch i,
       mvit_test_step forward_model squeeze BCEWithLogitsLoss positive_long
         metric_value self (absorb mvit_metrics es) batch i
       = (Raise (AttributeError "test_acc"), [])).
Proof.
  split; intros self batch i; unfold effi_test_step, mvit_test_step, test_step.
  - destruct (EFFILitModule.step _ _ _ _ _ _) as [[l p] t].
    rewrite get_metric_missing; [done|]. rewrite absorb_keys. simpl.
    intros Hin. repeat (apply elem_of_cons in Hin as [Hin|Hin]; [discriminate|]).
    by apply elem_of_nil in Hin.
  - destruct (MVITLitModule.step _ _ _ _ _ _) as [[l p] t].
    rewrite get_metric_missing; [done|]. rewrite absorb_keys. simpl.
    intros Hin. repeat (apply elem_of_cons in Hin as [Hin|Hin]; [discriminate|]).
    by apply elem_of_nil in Hin.
Qed.

Lemma updates_of_app name (es1 es2 : list (event T)) :
  updates_of name (es1 ++ es2) = updates_of name es1 ++ updates_of name es2.
Proof. apply omap_app. Qed.

(** A metric call reaches the accumulating metric of that name and
    nothing else. *)
Lemma metric_update_effi_attrs a p r v b n (x y : T) :
  metric_update (effi_attrs a p r v b) n x y
  = effi_attrs (a ++ updates_of "train_acc" [MetricUpdate n x y])
      (p ++ updates_of "train_precision" [MetricUpdate n x y])
      (r ++ updates_of "train_recall" [MetricUpdate n x y])
      (v ++ updates_of "val_acc" [MetricUpdate n x y]) b.
Proof.
  unfold metric_update, effi_attrs, updates_of. cbn [omap list_omap].
  repeat (first [ progress cbn [get_metric set_metric]
                | case_decide; simplify_eq ]);
    by rewrite ?app_nil_r.
Qed.

Lemma absorb_effi_attrs a p r v b (es : list (event T)) :
  absorb (effi_attrs a p r v b) es
  = effi_attrs (a ++ updates_of "train_acc" es)
      (p ++ updates_of "train_precision" es)
      (r ++ updates_of "train_recall" es)
      (v ++ updates_of "val_acc" es) b.
Proof.
  unfold absorb. revert a p r v. induction es as [|e es IH]; intros a p r v.
  - simpl. by rewrite !app_nil_r.
  - cbn [foldl]. change (e :: es) with ([e] ++ es).
    rewrite !updates_of_app, !app_assoc.
    destruct e as [n x ? ? ?|n x y|x].
    + rewrite IH. cbn. by rewrite !app_nil_r.
    + by rewrite metric_update_effi_attrs, IH.
    + rewrite IH. cbn. by rewrite !app_nil_r.
Qed.

Lemma effi_run_app self (cs1 cs2 : list (call T)) :
  effi_run self (cs1 ++ cs2) = effi_run self cs1 ++ effi_run self cs2.
Proof. unfold EFFILitModule.run. apply bind_app. Qed.

Lemma effi_run_val_acc self cs :
  updates_of "val_acc" (effi_run self cs)
  = validation_pairs (effi_step self) long cs.
Proof.
  unfold validation_pairs. induction cs as [|c cs IH]; [done|].
  change (c :: cs) with ([c] ++ cs) at 1. rewrite effi_run_app, updates_of_app, IH.
  cbn [omap list_omap]. unfold EFFILitModule.run. cbn [mbind list_bind].
  rewrite app_nil_r.
  destruct c as [batch i|batch i]; cbn [EFFILitModule.run_call];
    unfold EFFILitModule.training_step, EFFILitModule.validation_step;
    by destruct (effi_step self batch) as [[l q] t].
Qed.

Lemma effi_run_train_recall self cs :
  updates_of "train_recall" (effi_run self cs)
  = training_pairs (effi_step self) long cs.
Proof.
  unfold training_pairs. induction cs as [|c cs IH]; [done|].
  change (c :: cs) with ([c] ++ cs) at 1. rewrite effi_run_app, updates_of_app, IH.
  cbn [omap list_omap]. unfold EFFILitModule.run. cbn [mbind list_bind].
  rewrite app_nil_r.
  destruct c as [batch i|batch i]; cbn [EFFILitModule.run_call];
    unfold EFFILitModule.training_step, EFFILitModule.validation_step;
    by destruct (effi_step self batch) as [[l q] t].
Qed.

Lemma effi_epochs_attrs self r b (epochs : list (list (call T))) :
  epochs_of self (effi_attrs [] [] r [] b) epochs
  = Ok (effi_attrs [] []
          (r ++ training_pairs (effi_step self) long (concat epochs)) []
          (b ++ ((λ cs, compute "val_acc"
                          (validation_pairs (effi_step self) long cs))
                 <$> epochs))).
Proof.
  revert r b. induction epochs as [|cs epochs IH]; intros r b.
  - simpl. by rewrite !app_nil_r.
  - cbn [effi_epochs]. unfold effi_epoch. rewrite absorb_effi_attrs.
    rewrite effi_run_val_acc, effi_run_train_recall. simpl.
    fold (effi_attrs (T:=T) [] []
            (r ++ training_pairs (effi_step self) long cs) []
            (b ++ [compute "val_acc" (validation_pairs (effi_step self) long cs)])).
    rewrite IH. unfold training_pairs. rewrite omap_app.
    by rewrite <- !app_assoc.
Qed.

(** X20. Over any number of epochs of an [EFFILitModule] (steps, then
    [validation_epoch_end], then [on_epoch_end]), the best-accuracy
    metric is updated once per epoch, with the accuracy computed from the
    predictions and targets of that epoch's validation batches alone:
    [validation_epoch_end] resets [val_acc] after reading it. *)
Theorem effi_val_acc_per_epoch self (epochs : list (list (call T))) :
  ∃ attrs,
    epochs_of self effi_metrics epochs = Ok attrs
    ∧ get_metric attrs "val_acc_best"
      = Ok (Maximum ((λ cs, compute "val_acc"
                              (validation_pairs (effi_step self) long cs))
                     <$> epochs))
    ∧ get_metric attrs "val_acc" = Ok (Accumulated []).
Proof.
  eexists. split; [apply (effi_epochs_attrs self [] [])|]. done.
Qed.

(** X21. [EFFILitModule.on_epoch_end] resets [train_acc],
    [train_precision] and [val_acc] but not [train_recall]: after any
    number of epochs the first two are empty, while [train_recall] still
    holds the predictions and targets of every training batch of every
    epoch. *)
Theorem effi_train_recall_never_reset self (epochs : list (list (call T))) :
  ∃ attrs,
    epochs_of self effi_metrics epochs = Ok attrs
    ∧ get_metric attrs "train_acc" = Ok (Accumulated [])
    ∧ get_metric attrs "train_precision" = Ok (Accumulated [])
    ∧ get_metric attrs "train_recall"
      = Ok (Accumulated (training_pairs (effi_step self) long (concat epochs))).
Proof.
  eexists. split; [apply (effi_epochs_attrs self [] [])|]. done.
Qed.
End HooksMore.

(** ** The data modules *)

Section DataModuleMore.
Import Torch Health DataModule.
Context {pyobj ambient : Type}.
Variable read_csv : string → result dataframe.
Variable decode : string → result ndarray.
Variable clahe_apply : ndarray → result (list (list Z)).

Local Abbreviation init :=
  (__init__ (pyobj:=pyobj) (ambient:=ambient) read_csv decode clahe_apply).
Local Abbreviation run_setup :=
  (setup (pyobj:=pyobj) (ambient:=ambient) read_csv decode clahe_apply).
Local Abbreviation run_setup_testing :=
  (setup_testing (pyobj:=pyobj) (ambient:=ambient) read_csv decode clahe_apply).

(** The module object with its training set loaded. *)
Local Abbreviation with_train self ds :=
  {| train_path := train_path self; val_path := val_path self;
     img_dir := img_dir self; transforms := transforms self;
     transforms_val := transforms_val self;
     data_train := Some ds; data_val := data_val self;
     data_test := data_test self |}.

Lemma setup_fresh (self : MViTDataModule pyobj ambient) s :
  data_train self = None → data_val self = None → data_test self = None →
  run_setup (self, s)
  = match init (train_path self) (img_dir self) (Some (transforms self)) None
            true s with
    | (Raise e, s1) => (Raise e, (self, s1))
    | (Ok ds, s1) =>
        match init (val_path self) (img_dir self) (Some (transforms_val self))
                None true s1 with
        | (Raise e, s2) => (Raise e, (with_train self ds, s2))
        | (Ok dv, s2) =>
            (Ok tt,
             ({| train_path := train_path self; val_path := val_path self;
                 img_dir := img_dir self; transforms := transforms self;
                 transforms_val := transforms_val self;
                 data_train := Some ds; data_val := Some dv;
                 data_test := data_test self |}, s2))
        end
    end.
Proof.
  intros H1 H2 H3. unfold setup, nothing_loaded. rewrite H1, H2, H3. simpl.
  destruct (init _ _ _ _ _ s) as [[ds|e] s1]; [|done].
  by destruct (init _ _ _ _ _ s1) as [[dv|e] s2].
Qed.

Lemma setup_loaded (self : MViTDataModule pyobj ambient) s ds n :
  data_train self = Some ds → __len__ ds = Ok n → n ≠ 0%nat →
  run_setup (self, s) = (Ok tt, (self, s)).
Proof.
  intros H1 Hlen Hn. unfold setup, nothing_loaded, py_not. rewrite H1, Hlen.
  st_unfold. by rewrite bool_decide_eq_false_2.
Qed.

(** X22. [setup] loads once. When a first call on a fresh module has
    succeeded and the training table is labelled with at least two rows,
    a second call changes nothing: no table is read again, no image is
    decoded again, and the module keeps the same two datasets. *)
Theorem setup_idempotent (self self' : MViTDataModule pyobj ambient) s s' frame n :
  data_train self = None → data_val self = None → data_test self = None →
  read_csv (train_path self) = Ok frame →
  "label" ∈ columns frame →
  frame_rows frame n →
  (2 <= n)%nat →
  run_setup (self, s) = (Ok tt, (self', s')) →
  is_Some (data_train self') ∧ is_Some (data_val self')
  ∧ run_setup (self', s') = (Ok tt, (self', s')).
Proof.
  intros H1 H2 H3 Hcsv Hlab Hrows Hn. rewrite setup_fresh by done.
  destruct (init (train_path self) _ _ _ _ s) as [[ds|e] s1] eqn:Htrain;
    [|discriminate].
  destruct (init (val_path self) _ _ _ _ s1) as [[dv|e] s2] eqn:Hval;
    [|discriminate].
  intros [= <- <-]. split; [by eexists|]. split; [by eexists|].
  assert (Hlen : __len__ ds = Ok n).
  { eapply (len_labelled read_csv decode clahe_apply); [done..|lia]. }
  eapply setup_loaded; [done | done | lia].
Qed.


(** X24. The guard of [setup] asks a loaded training set for its truth
    value, which is its [__len__]. After a successful first call, a second
    call therefore raises when the training table has no 'label' column
    (AttributeError for [shape]) and when it is a single labelled row
    (IndexError), leaving the module as it was. *)
Theorem setup_again_raises (self self' : MViTDataModule pyobj ambient)
    s s' frame :
  data_train self = None → data_val self = None → data_test self = None →
  read_csv (train_path self) = Ok frame →
  run_setup (self, s) = (Ok tt, (self', s')) →
  ("label" ∉ columns frame →
     run_setup (self', s') = (Raise (AttributeError "shape"), (self', s')))
  ∧ (∀ label, column frame "label" = Ok [label] →
       run_setup (self', s') = (Raise IndexError, (self', s'))).
Proof.
  intros H1 H2 H3 Hcsv. rewrite setup_fresh by done.
  destruct (init (train_path self) _ _ _ _ s) as [[ds|e] s1] eqn:Htrain;
    [|discriminate].
  destruct (init (val_path self) _ _ _ _ s1) as [[dv|e] s2] eqn:Hval;
    [|discriminate].
  intros [= <- <-]. split.
  - intros Hno.
    pose proof (len_unlabelled read_csv decode clahe_apply
                  _ _ _ _ _ _ _ _ frame Htrain Hcsv Hno) as Hlen.
    unfold setup, nothing_loaded, py_not. simpl. by rewrite Hlen.
  - intros label Hcol.
    destruct (single_labelled_row_unindexable read_csv decode clahe_apply
                _ _ _ _ _ _ _ _ frame label 0 s Htrain Hcsv Hcol)
      as (_ & Hlen & _).
    unfold setup, nothing_loaded, py_not. simpl. by rewrite Hlen.
Qed.

(** X25. [MViTDataModuleTesting.setup] reads the table and nothing else:
    on any table with an 'image' column it succeeds without decoding an
    image, whether or not the files exist, and calling it again gives the
    same module in the same state. *)
Theorem setup_testing_reads_only_the_table
    (self : MViTDataModuleTesting pyobj ambient) s frame :
  read_csv (test_path self) = Ok frame →
  "image" ∈ columns frame →
  ∃ self',
    run_setup_testing (self, s) = (Ok tt, (self', s))
    ∧ (∃ ds, t_data_test self' = Some ds ∧ load_ram ds = false
             ∧ images ds = None)
    ∧ run_setup_testing (self', s) = (Ok tt, (self', s)).
Proof.
  intros Hcsv [nms Himg]%column_Ok_iff. unfold setup_testing.
  destruct (init_lazy_total read_csv decode clahe_apply (test_path self)
              (t_img_dir self) (Some (t_transforms_val self)) None s frame nms
              Hcsv Himg) as [ds Hds].
  rewrite Hds. eexists. split; [done|]. simpl. rewrite Hds.
  split; [|done]. exists ds. split; [done|].
  apply init_Ok in Hds as (frame' & nms' & C).
  by destruct C as [_ _ _ _ Hram _ _ _ _ [Hnone _]].
Qed.
End DataModuleMore.

(** ** The further statements at concrete inputs *)

Section ConcreteMore.
Import Torch Health DataModule Config ConfigTerms NN WrapperTerms.

Lemma preproc_image_gray_bytes_witness :
  ∃ arr px,
    Example.decode "imgs/a.png" = Ok arr ∧ Example.clahe_apply arr = Ok px
    ∧ length [[(0, 0, 0); (44, 44, 44)]] = length px
    ∧ Forall2 (λ row prow, length row = length prow)
        [[(0, 0, 0); (44, 44, 44)]] px
    ∧ Forall (Forall (λ p : Z * Z * Z,
                p.1.1 = p.1.2 ∧ p.1.2 = p.2 ∧ 0 <= p.2 < 256))
        [[(0, 0, 0); (44, 44, 44)]].
Proof.
  apply (preproc_image_gray_bytes Example.decode Example.clahe_apply
           "imgs/a.png" [[(0, 0, 0); (44, 44, 44)]]).
  reflexivity.
Defined.

Lemma out_of_range_index_error_witness :
  ∃ ds s1,
    Example.init "train.csv" true = (Ok ds, s1)
    ∧ load_image Example.decode Example.clahe_apply ds 2 s1
      = (Raise IndexError, s1)
    ∧ Example.getitem ds 2 s1 = (Raise IndexError, s1).
Proof.
  eexists _, _. split; [vm_compute; reflexivity|].
  eapply (out_of_range_index_error Example.read_csv Example.decode
            Example.clahe_apply "train.csv" "imgs/" None None true Example.s0).
  - vm_compute. reflexivity.
  - unfold in_range. simpl. lia.
Defined.

Lemma negative_index_wraps_witness :
  ∃ ds s1,
    Example.init "train.csv" true = (Ok ds, s1)
    ∧ load_image Example.decode Example.clahe_apply ds (-1) s1
      = load_image Example.decode Example.clahe_apply ds (-1 + Z.of_nat 2) s1
    ∧ Example.getitem ds (-1) s1 = Example.getitem ds (-1 + Z.of_nat 2) s1.
Proof.
  eexists _, _. split; [vm_compute; reflexivity|].
  eapply (negative_index_wraps Example.read_csv Example.decode
            Example.clahe_apply "train.csv" "imgs/" None None true Example.s0).
  - vm_compute. reflexivity.
  - reflexivity.
  - unfold frame_rows. repeat constructor.
  - lia.
Defined.

Lemma labelled_len_and_binary_labels_witness :
  ∃ ds s1,
    Example.init "train.csv" true = (Ok ds, s1)
    ∧ __len__ ds = Ok 2%nat
    ∧ ∀ idx, in_range 2 idx →
        ∃ b, (b = 0 ∨ b = 1)
             ∧ labels_index (pyobj:=unit) (labels ds) idx
               = Ok (VTensor (scalar b)).
Proof.
  eexists _, _. split; [vm_compute; reflexivity|].
  eapply (labelled_len_and_binary_labels Example.read_csv Example.decode
            Example.clahe_apply "train.csv" "imgs/" None None true Example.s0).
  - vm_compute. reflexivity.
  - reflexivity.
  - simpl. by repeat constructor.
  - unfold frame_rows. repeat constructor.
  - lia.
Defined.

Lemma init_requires_image_column_witness :
  ("image" ∉ columns [("label", ["negative"])] →
     __init__ (pyobj:=unit) (λ _, Ok [("label", ["negative"])]) Example.decode
       Example.clahe_apply "labels_only.csv" "imgs/" None None true Example.s0
     = (Raise (KeyError "image"), Example.s0))
  ∧ ("image" ∈ columns [("label", ["negative"])] →
     is_ok (__init__ (pyobj:=unit) (λ _, Ok [("label", ["negative"])])
              Example.decode Example.clahe_apply "labels_only.csv" "imgs/"
              None None false Example.s0).1 = true).
Proof.
  apply (init_requires_image_column (pyobj:=unit) (ambient:=unit)
           (λ _, Ok [("label", ["negative"])]) Example.decode
           Example.clahe_apply "labels_only.csv" "imgs/" None None true
           Example.s0 [("label", ["negative"])]).
  reflexivity.
Defined.

Lemma lazy_construction_defers_decoding_witness :
  ∃ ds,
    Example.init "broken.csv" false = (Ok ds, Example.s0)
    ∧ names ds = ["a.png"; "missing.png"] ∧ images ds = None
    ∧ ∀ idx name st, py_index ["a.png"; "missing.png"] idx = Ok name →
        load_image (pyobj:=unit) Example.decode Example.clahe_apply ds idx st
        = match preproc_image Example.decode Example.clahe_apply
                  ("imgs/" +:+ name) with
          | Ok img => (Ok (length (heap st)), State (heap st ++ [img]) (amb st))
          | Raise e => (Raise e, st)
          end.
Proof.
  apply (lazy_construction_defers_decoding (pyobj:=unit) (ambient:=unit)
           Example.read_csv Example.decode Example.clahe_apply
           "broken.csv" "imgs/" None None Example.s0
           [("image", ["a.png"; "missing.png"])] ["a.png"; "missing.png"]).
  - reflexivity.
  - reflexivity.
Defined.

Lemma load_image_returns_fresh_copy_witness :
  ∃ ds s1 st',
    Example.init "train.csv" true = (Ok ds, s1)
    ∧ load_image Example.decode Example.clahe_apply ds 0 s1 = (Ok 2%nat, st')
    ∧ ∃ cache,
        images ds = Some cache
        ∧ (heap s1) !! 2%nat = None
        ∧ (2%nat ∉ cache)
        ∧ length (heap st') = S (length (heap s1))
        ∧ ∀ l', l' ∈ cache → (heap st') !! l' = (heap s1) !! l'.
Proof.
  eexists _, _, _. split; [vm_compute; reflexivity|].
  split; [vm_compute; reflexivity|].
  eapply (load_image_returns_fresh_copy Example.read_csv Example.decode
            Example.clahe_apply "train.csv" "imgs/" None None Example.s0
            _ _ [] 0).
  - vm_compute. reflexivity.
  - reflexivity.
  - vm_compute. reflexivity.
Defined.


Lemma flatten_yaml_as_dict_flat_witness :
  ∃ flat,
    flatten_yaml_as_dict true
      (YMap [(KStr "model", YMap [(KStr "name", YScalar "mobilevit")])])
      (KStr "") "." = Ok flat
    ∧ NoDup flat.*1
    ∧ Forall (λ w, is_mapping w = false) flat.*2
    ∧ Forall (λ k, is_string_key k = true) flat.*1.
Proof.
  destruct (flatten_yaml_as_dict_flat true
              (YMap [(KStr "model", YMap [(KStr "name", YScalar "mobilevit")])])
              (KStr "") ".") as [Hflat Htotal].
  destruct Htotal as (flat & Heq & Hkeys); [reflexivity..|].
  exists flat. destruct (Hflat flat Heq) as [Hnd Hplain]. by repeat split.
Defined.

Lemma load_config_namespace_is_flat_witness :
  ∃ text cfg (flat : list (string * yaml)),
    Example.open_file "model_conf.yaml" = Ok text
    ∧ Example.yaml_load text = Ok cfg
    ∧ flatten_yaml_as_dict true cfg (KStr "") "." = Ok (string_items flat)
    ∧ NSpace [("model.name", NValue (YScalar "mobilevit"))] = flat_namespace flat
    ∧ NoDup flat.*1
    ∧ Forall (λ w, is_mapping w = false) flat.*2
    ∧ [] = @nil string.
Proof.
  apply (load_config_namespace_is_flat module_globals true Example.open_file
           Example.yaml_load "model_conf.yaml" []).
  reflexivity.
Defined.

Lemma flatten_yaml_as_dict_dotted_key_witness :
  flatten_yaml_as_dict true
    (nest ["model"; "classification"; "name"] (YScalar "mobilevit"))
    (KStr "") "."
  = Ok [(KStr (dotted "model" ["classification"; "name"]), YScalar "mobilevit")].
Proof.
  apply (flatten_yaml_as_dict_dotted_key true "model"
           ["classification"; "name"] (YScalar "mobilevit")).
  - reflexivity.
  - discriminate.
  - reflexivity.
Defined.

Lemma flatten_yaml_as_dict_flat_identity_witness :
  flatten_yaml_as_dict true
    (YMap [(KStr "name", YScalar "mobilevit"); (KOther true "1", YNull)])
    (KStr "") "."
  = Ok [(KStr "name", YScalar "mobilevit"); (KOther true "1", YNull)].
Proof.
  apply (flatten_yaml_as_dict_flat_identity true
           [(KStr "name", YScalar "mobilevit"); (KOther true "1", YNull)] ".").
  - reflexivity.
  - simpl. apply NoDup_cons. split.
    + intros [H|H%elem_of_nil]%elem_of_cons; [discriminate H | exact H].
    + apply NoDup_singleton.
  - simpl. by repeat constructor.
Defined.

Lemma flatten_drops_empty_mappings_witness :
  flatten_yaml_as_dict true
    (YMap [(KStr "name", YScalar "mobilevit"); (KStr "extra", YMap [])])
    (KStr "") "."
  = flatten_yaml_as_dict true (YMap [(KStr "name", YScalar "mobilevit")])
      (KStr "") ".".
Proof.
  apply (flatten_drops_empty_mappings true
           [(KStr "name", YScalar "mobilevit")] (KStr "extra") []
           (KStr "") ".").
  - reflexivity.
  - reflexivity.
Defined.

Lemma effi_freeze_layers_witness :
  ∃ self,
    EFFILitModule.__init__ Example.mobilevit Sample.frozen_hparams = Ok self
    ∧ (∀ name sub, name ∈ ["layer_5"; "conv_1x1_exp"; "classifier"] →
         getattr (EFFILitModule.model self) name = Ok sub →
         all_requires_grad true sub)
    ∧ (∀ name sub, name ∉ ["layer_5"; "conv_1x1_exp"; "classifier"] →
         getattr (EFFILitModule.model self) name = Ok sub →
         all_requires_grad false sub).
Proof.
  eapply (effi_freeze_layers (num:=Z) Example.mobilevit Sample.frozen_hparams).
  - reflexivity.
  - reflexivity.
  - reflexivity.
Defined.

Lemma effi_freeze_layers_missing_witness :
  ("layer_5" ∉ (children Example.efficientnet).*1 →
     EFFILitModule.__init__ Example.efficientnet Sample.frozen_hparams
     = Raise (AttributeError "layer_5"))
  ∧ ("layer_5" ∈ (children Example.efficientnet).*1 →
     "conv_1x1_exp" ∉ (children Example.efficientnet).*1 →
     EFFILitModule.__init__ Example.efficientnet Sample.frozen_hparams
     = Raise (AttributeError "conv_1x1_exp")).
Proof.
  apply (effi_freeze_layers_missing (num:=Z) Example.efficientnet
           Sample.frozen_hparams).
  reflexivity.
Defined.

Lemma setup_idempotent_witness :
  ∃ self' s',
    Sample.setup (Sample.datamodule "train.csv" "train.csv", Example.s0)
    = (Ok tt, (self', s'))
    ∧ is_Some (data_train self') ∧ is_Some (data_val self')
    ∧ Sample.setup (self', s') = (Ok tt, (self', s')).
Proof.
  eexists _, _. split; [vm_compute; reflexivity|].
  eapply setup_idempotent
    with (read_csv := Example.read_csv) (decode := Example.decode)
         (clahe_apply := Example.clahe_apply)
         (self := Sample.datamodule "train.csv" "train.csv")
         (s := Example.s0) (n := 2%nat).
  - reflexivity.
  - reflexivity.
  - reflexivity.
  - reflexivity.
  - simpl. by repeat constructor.
  - unfold frame_rows. repeat constructor.
  - lia.
  - vm_compute. reflexivity.
Defined.


Lemma setup_again_raises_witness :
  ∃ self' s',
    Sample.setup (Sample.datamodule "test.csv" "train.csv", Example.s0)
    = (Ok tt, (self', s'))
    ∧ Sample.setup (self', s') = (Raise (AttributeError "shape"), (self', s')).
Proof.
  eexists _, _. split; [vm_compute; reflexivity|].
  lazymatch goal with
  | |- Sample.setup (?a, ?b) = _ =>
      destruct (setup_again_raises (pyobj:=unit) (ambient:=unit)
                  Example.read_csv Example.decode Example.clahe_apply
                  (Sample.datamodule "test.csv" "train.csv") a Example.s0 b
                  [("image", ["a.png"; "b.png"])])
        as [Hunlabelled _]
  end.
  - reflexivity.
  - reflexivity.
  - reflexivity.
  - reflexivity.
  - vm_compute. reflexivity.
  - apply Hunlabelled. simpl.
    intros [H|H%elem_of_nil]%elem_of_cons; [discriminate H | exact H].
Defined.

Lemma setup_testing_reads_only_the_table_witness :
  ∃ self',
    setup_testing Example.read_csv Example.decode Example.clahe_apply
      (Sample.testing_module "broken.csv", Example.s0)
    = (Ok tt, (self', Example.s0))
    ∧ (∃ ds, t_data_test self' = Some ds ∧ load_ram ds = false
             ∧ images ds = None)
    ∧ setup_testing Example.read_csv Example.decode Example.clahe_apply
        (self', Example.s0)
      = (Ok tt, (self', Example.s0)).
Proof.
  apply (setup_testing_reads_only_the_table Example.read_csv Example.decode
           Example.clahe_apply (Sample.testing_module "broken.csv") Example.s0
           [("image", ["a.png"; "missing.png"])]).
  - reflexivity.
  - simpl. by repeat constructor.
Defined.
End ConcreteMore.
